(** * A shallow embedding of the zero-trust identity proxy worker

    The development follows [workload/cloudflare/src/jwt.ts] (token codec,
    key manager, verifier, signer) and [workload/cloudflare/src/index.ts]
    (routing table, proxy dispatcher, request handler).  JavaScript strings
    are sequences of UTF-16 code units, byte arrays are sequences of
    integers in [0, 256), the key-value namespace is a finite map from
    strings to strings, and every asynchronous function is a state
    transformer over a [World] that may return, throw, or run out of fuel. *)

From Stdlib Require Import ZArith Ascii String Lia.
From stdpp Require Import gmap list.

Open Scope Z_scope.

(** ** Strings and byte arrays *)

Abbreviation jsstring := (list Z) (only parsing).
Abbreviation bytes := (list Z) (only parsing).

(** An ASCII literal of the source, as code units. *)
Definition lit (s : string) : jsstring :=
  (fun a => Z.of_nat (nat_of_ascii a)) <$> list_ascii_of_string s.

Definition is_byte (b : Z) : Prop := 0 <= b < 256.
Definition is_ascii (c : Z) : Prop := 0 <= c < 128.
Definition is_code_unit (c : Z) : Prop := 0 <= c < 65536.

Definition is_byteb (b : Z) : bool := (0 <=? b) && (b <? 256).
Definition is_asciib (c : Z) : bool := (0 <=? c) && (c <? 128).

Definition str_eqb (a b : jsstring) : bool := bool_decide (a = b).

(** [s.split(c)] for a one-character separator: never returns the empty
    list, [''.split('.')] is [['']]. *)
Fixpoint split_on (sep : Z) (s : jsstring) : list jsstring :=
  match s with
  | [] => [[]]
  | c :: r =>
      if c =? sep then [] :: split_on sep r
      else match split_on sep r with
           | [] => [[c]]
           | h :: t => (c :: h) :: t
           end
  end.

(** [parts.join(sep)]. *)
Fixpoint join (sep : jsstring) (parts : list jsstring) : jsstring :=
  match parts with
  | [] => []
  | [p] => p
  | p :: r => p ++ sep ++ join sep r
  end.

(** [s.replace(/c/g, '')] and [s.replace(/c/g, d)] for one character. *)
Definition remove_all (c : Z) (s : jsstring) : jsstring :=
  filter (fun x => x <> c) s.
Definition replace_all (c d : Z) (s : jsstring) : jsstring :=
  (fun x => if x =? c then d else x) <$> s.

(** The regular-expression class [\s]: WhiteSpace and LineTerminator. *)
Definition is_js_space (c : Z) : bool :=
  bool_decide (c ∈ [9; 10; 11; 12; 13; 32; 160; 5760; 8232; 8233; 8239; 8287;
                    12288; 65279])
  || ((8192 <=? c) && (c <=? 8202)).

(** [s.substring(0, n)]. *)
Definition substring0 (n : nat) (s : jsstring) : jsstring := take n s.

(** [s.toUpperCase()] on the ASCII letters (HTTP methods are tokens). *)
Definition toUpperCase (s : jsstring) : jsstring :=
  (fun c => if (97 <=? c) && (c <=? 122) then c - 32 else c) <$> s.

(** Decimal digits of a non-negative integer, most significant first. *)
Fixpoint digits_fuel (fuel : nat) (n : Z) (acc : jsstring) : jsstring :=
  match fuel with
  | O => acc
  | S f =>
      if n <? 10 then (48 + n) :: acc
      else digits_fuel f (n / 10) ((48 + n mod 10) :: acc)
  end.

(** [String(n)] for an integer [n] of magnitude below [10^21]; from there
    on the platform writes an exponent, and above [2^53] it rounds. *)
Definition Z_to_string (n : Z) : jsstring :=
  if n <? 0 then 45 :: digits_fuel (Z.to_nat (Z.log2 (- n)) + 1) (- n) []
  else digits_fuel (Z.to_nat (Z.log2 n) + 1) n [].

Definition hex_digit (d : Z) : Z := if d <? 10 then 48 + d else 87 + d.

(** [b.toString(16).padStart(2, '0')] for a byte [b]. *)
Definition hex2 (b : Z) : jsstring := [hex_digit (b / 16); hex_digit (b mod 16)].

(** ** Failure *)

(** What a [throw] carries: an [Error] instance (with the [name] of its
    class), hono's [HTTPException], or a bare string. *)
Inductive JSError : Type :=
| Err (name message : jsstring)
| HTTPException (status : Z) (message : jsstring)
| ThrownString (s : jsstring).

(** [Unspecified] marks behaviour of the platform that the embedding does not
    describe; [OutOfFuel] is an exhausted recursion budget. *)
Inductive Outcome (A : Type) : Type :=
| Return (a : A)
| Throw (e : JSError)
| Unspecified
| OutOfFuel.
Arguments Return {A} a.
Arguments Throw {A} e.
Arguments Unspecified {A}.
Arguments OutOfFuel {A}.

Definition bindO {A B} (m : Outcome A) (k : A -> Outcome B) : Outcome B :=
  match m with
  | Return a => k a
  | Throw e => Throw e
  | Unspecified => Unspecified
  | OutOfFuel => OutOfFuel
  end.

Notation "'let?' x ':=' m 'in' k" := (bindO m (fun x => k))
  (at level 10, x name, m at level 100, k at level 200).

Definition Error (msg : string) : JSError := Err (lit "Error") (lit msg).
Definition TypeError (msg : string) : JSError := Err (lit "TypeError") (lit msg).
Definition SyntaxError (msg : string) : JSError := Err (lit "SyntaxError") (lit msg).
Definition InvalidCharacterError : JSError :=
  Err (lit "InvalidCharacterError") (lit "Invalid character").

(** [err.toString()] of an [Error] instance. *)
Definition error_toString (e : JSError) : jsstring :=
  match e with
  | Err name msg => if msg is [] then name else name ++ lit ": " ++ msg
  | HTTPException _ msg => if msg is [] then lit "Error" else lit "Error: " ++ msg
  | ThrownString s => s
  end.

(** ** Base64 ([btoa], [atob]) *)

Definition b64_char (i : Z) : Z :=
  if i <? 26 then 65 + i
  else if i <? 52 then 71 + i
  else if i <? 62 then i - 4
  else if i =? 62 then 43
  else 47.

Definition b64_index (c : Z) : option Z :=
  if (65 <=? c) && (c <=? 90) then Some (c - 65)
  else if (97 <=? c) && (c <=? 122) then Some (c - 71)
  else if (48 <=? c) && (c <=? 57) then Some (c + 4)
  else if c =? 43 then Some 62
  else if c =? 47 then Some 63
  else None.

Fixpoint b64_encode (l : bytes) : jsstring :=
  match l with
  | [] => []
  | [a] => [b64_char (a / 4); b64_char (a mod 4 * 16); 61; 61]
  | [a; b] =>
      [b64_char (a / 4); b64_char (a mod 4 * 16 + b / 16);
       b64_char (b mod 16 * 4); 61]
  | a :: b :: c :: r =>
      b64_char (a / 4) :: b64_char (a mod 4 * 16 + b / 16)
      :: b64_char (b mod 16 * 4 + c / 64) :: b64_char (c mod 64)
      :: b64_encode r
  end.

(** [btoa(s)]: fails on a code unit above 255. *)
Definition btoa (s : jsstring) : Outcome jsstring :=
  if forallb is_byteb s then Return (b64_encode s)
  else Throw InvalidCharacterError.

Fixpoint b64_decode (l : list Z) : option bytes :=
  match l with
  | [] => Some []
  | [_] => None
  | [a; b] => Some [a * 4 + b / 16]
  | [a; b; c] => Some [a * 4 + b / 16; b mod 16 * 16 + c / 4]
  | a :: b :: c :: d :: r =>
      match b64_decode r with
      | Some t =>
          Some (a * 4 + b / 16 :: b mod 16 * 16 + c / 4 :: c mod 4 * 64 + d :: t)
      | None => None
      end
  end.

Definition is_ascii_whitespace (c : Z) : bool :=
  bool_decide (c ∈ [9; 10; 12; 13; 32]).

(** Removes one or two trailing [=] (forgiving-base64 decode, step 2). *)
Definition strip_padding (s : jsstring) : jsstring :=
  match reverse s with
  | x :: r =>
      if x =? 61 then
        match r with
        | y :: r' => if y =? 61 then reverse r' else reverse r
        | [] => []
        end
      else s
  | [] => s
  end.

Fixpoint sextets (s : jsstring) : option (list Z) :=
  match s with
  | [] => Some []
  | c :: r =>
      match b64_index c, sextets r with
      | Some i, Some t => Some (i :: t)
      | _, _ => None
      end
  end.

(** [atob(s)], the forgiving-base64 decode of the HTML standard. *)
Definition atob (s : jsstring) : Outcome jsstring :=
  let data := filter (fun c => is_ascii_whitespace c = false) s in
  let data := if (Z.of_nat (length data) mod 4 =? 0) then strip_padding data else data in
  match sextets data with
  | Some l =>
      match b64_decode l with
      | Some b => Return b
      | None => Throw InvalidCharacterError
      end
  | None => Throw InvalidCharacterError
  end.

(** ** UTF-8 ([TextDecoder], [TextEncoder]) *)

Definition REPLACEMENT : Z := 65533.

Definition code_units_of (cp : Z) : jsstring :=
  if cp <? 65536 then [cp]
  else [55296 + (cp - 65536) / 1024; 56320 + (cp - 65536) mod 1024].

Record Utf8State : Type := mkUtf8 {
  u_cp : Z; u_seen : Z; u_needed : Z; u_lower : Z; u_upper : Z
}.
Definition utf8_init : Utf8State := mkUtf8 0 0 0 128 191.

(** A byte met while no sequence is open. *)
Definition utf8_lead (b : Z) : jsstring * Utf8State :=
  if b <=? 127 then ([b], utf8_init)
  else if (194 <=? b) && (b <=? 223) then ([], mkUtf8 (Z.land b 31) 0 1 128 191)
  else if (224 <=? b) && (b <=? 239) then
    ([], mkUtf8 (Z.land b 15) 0 2 (if b =? 224 then 160 else 128)
                (if b =? 237 then 159 else 191))
  else if (240 <=? b) && (b <=? 244) then
    ([], mkUtf8 (Z.land b 7) 0 3 (if b =? 240 then 144 else 128)
                (if b =? 244 then 143 else 191))
  else ([REPLACEMENT], utf8_init).

(** One step of the UTF-8 decoder of the Encoding standard. *)
Definition utf8_step (st : Utf8State) (b : Z) : jsstring * Utf8State :=
  if u_needed st =? 0 then utf8_lead b
  else if negb ((u_lower st <=? b) && (b <=? u_upper st)) then
    let '(out, st') := utf8_lead b in (REPLACEMENT :: out, st')
  else
    let cp := Z.lor (Z.shiftl (u_cp st) 6) (Z.land b 63) in
    if u_seen st + 1 =? u_needed st then (code_units_of cp, utf8_init)
    else ([], mkUtf8 cp (u_seen st + 1) (u_needed st) 128 191).

Fixpoint utf8_run (st : Utf8State) (l : bytes) : jsstring :=
  match l with
  | [] => if u_needed st =? 0 then [] else [REPLACEMENT]
  | b :: r => let '(out, st') := utf8_step st b in out ++ utf8_run st' r
  end.

(** [new TextDecoder('utf-8').decode(b)]: malformed input becomes U+FFFD and
    a leading byte-order mark is dropped. *)
Definition TextDecoder_decode (b : bytes) : jsstring :=
  match utf8_run utf8_init b with
  | 65279 :: r => r
  | s => s
  end.

Definition utf8_encode_cp (cp : Z) : bytes :=
  if cp <? 128 then [cp]
  else if cp <? 2048 then [192 + cp / 64; 128 + cp mod 64]
  else if cp <? 65536 then [224 + cp / 4096; 128 + cp / 64 mod 64; 128 + cp mod 64]
  else [240 + cp / 262144; 128 + cp / 4096 mod 64; 128 + cp / 64 mod 64;
        128 + cp mod 64].

Definition is_high_surrogate (c : Z) : bool := (55296 <=? c) && (c <=? 56319).
Definition is_low_surrogate (c : Z) : bool := (56320 <=? c) && (c <=? 57343).

(** [new TextEncoder().encode(s)]: a lone surrogate is encoded as U+FFFD. *)
Fixpoint TextEncoder_encode (s : jsstring) : bytes :=
  match s with
  | [] => []
  | c :: r =>
      if is_high_surrogate c then
        match r with
        | d :: r' =>
            if is_low_surrogate d then
              utf8_encode_cp (65536 + (c - 55296) * 1024 + (d - 56320))
                ++ TextEncoder_encode r'
            else utf8_encode_cp REPLACEMENT ++ TextEncoder_encode r
        | [] => utf8_encode_cp REPLACEMENT
        end
      else if is_low_surrogate c then utf8_encode_cp REPLACEMENT ++ TextEncoder_encode r
      else utf8_encode_cp c ++ TextEncoder_encode r
  end.

(** ** JSON values

    Numbers are the integers (an expiry is a number of seconds); a numeral
    with a fraction or an exponent, or beyond the safe-integer range, is left
    [Unspecified] by [JSON_parse].  The fields of an object are kept in
    property order. *)

#[local] Set Warnings "-register-all".

Inductive JSON : Type :=
| JNull
| JBool (b : bool)
| JNum (n : Z)
| JStr (s : jsstring)
| JArr (items : list JSON)
| JObj (fields : list (jsstring * JSON)).

Definition hex4 (c : Z) : jsstring :=
  [hex_digit (c / 4096); hex_digit (c / 256 mod 16); hex_digit (c / 16 mod 16);
   hex_digit (c mod 16)].

Definition escape_unit (c : Z) : jsstring := 92 :: 117 :: hex4 c.

(** QuoteJSONString, without the surrounding quotes. *)
Fixpoint quote_body (s : jsstring) : jsstring :=
  match s with
  | [] => []
  | c :: r =>
      if c =? 8 then 92 :: 98 :: quote_body r
      else if c =? 9 then 92 :: 116 :: quote_body r
      else if c =? 10 then 92 :: 110 :: quote_body r
      else if c =? 12 then 92 :: 102 :: quote_body r
      else if c =? 13 then 92 :: 114 :: quote_body r
      else if c =? 34 then 92 :: 34 :: quote_body r
      else if c =? 92 then 92 :: 92 :: quote_body r
      else if c <? 32 then escape_unit c ++ quote_body r
      else if is_high_surrogate c then
        match r with
        | d :: r' =>
            if is_low_surrogate d then c :: d :: quote_body r'
            else escape_unit c ++ quote_body r
        | [] => escape_unit c
        end
      else if is_low_surrogate c then escape_unit c ++ quote_body r
      else c :: quote_body r
  end.

Definition quote (s : jsstring) : jsstring := 34 :: quote_body s ++ [34].

(** [JSON.stringify(v)]. *)
Fixpoint JSON_stringify (v : JSON) : jsstring :=
  match v with
  | JNull => lit "null"
  | JBool b => if b then lit "true" else lit "false"
  | JNum n => Z_to_string n
  | JStr s => quote s
  | JArr l => 91 :: join [44] (map JSON_stringify l) ++ [93]
  | JObj fs =>
      123 :: join [44] (map (fun kv => quote (fst kv) ++ 58 :: JSON_stringify (snd kv)) fs)
          ++ [125]
  end.

(** The [SyntaxError] of [JSON.parse].  The platform words it by the
    position and the token it stopped at; one text stands for all of
    them. *)
Definition json_syntax_error {A} : Outcome A :=
  Throw (SyntaxError "Unexpected token in JSON").

Fixpoint skip_ws (s : jsstring) : jsstring :=
  match s with
  | c :: r => if bool_decide (c ∈ [32; 9; 10; 13]) then skip_ws r else s
  | [] => []
  end.

Definition hex_val (c : Z) : option Z :=
  if (48 <=? c) && (c <=? 57) then Some (c - 48)
  else if (97 <=? c) && (c <=? 102) then Some (c - 87)
  else if (65 <=? c) && (c <=? 70) then Some (c - 55)
  else None.

Definition unescape (e : Z) : option Z :=
  if e =? 34 then Some 34 else if e =? 92 then Some 92
  else if e =? 47 then Some 47 else if e =? 98 then Some 8
  else if e =? 102 then Some 12 else if e =? 110 then Some 10
  else if e =? 114 then Some 13 else if e =? 116 then Some 9
  else None.

Definition cons_char (c : Z) (res : option (jsstring * jsstring))
  : option (jsstring * jsstring) :=
  match res with
  | Some (t, rest) => Some (c :: t, rest)
  | None => None
  end.

(** The characters of a string literal after its opening quote. *)
Fixpoint parse_chars (s : jsstring) : option (jsstring * jsstring) :=
  match s with
  | [] => None
  | c :: r =>
      if c =? 34 then Some ([], r)
      else if c =? 92 then
        match r with
        | [] => None
        | e :: r' =>
            if e =? 117 then
              match r' with
              | h1 :: h2 :: h3 :: h4 :: r'' =>
                  match hex_val h1, hex_val h2, hex_val h3, hex_val h4 with
                  | Some a, Some b, Some x, Some d =>
                      cons_char (a * 4096 + b * 256 + x * 16 + d) (parse_chars r'')
                  | _, _, _, _ => None
                  end
              | _ => None
              end
            else match unescape e with
                 | Some x => cons_char x (parse_chars r')
                 | None => None
                 end
        end
      else if c <? 32 then None
      else cons_char c (parse_chars r)
  end.

Definition is_digit (c : Z) : bool := (48 <=? c) && (c <=? 57).

Fixpoint parse_digits (acc : Z) (s : jsstring) : Z * jsstring :=
  match s with
  | c :: r => if is_digit c then parse_digits (acc * 10 + (c - 48)) r else (acc, s)
  | [] => (acc, [])
  end.

Definition MAX_SAFE_INTEGER : Z := 9007199254740991.

(** A JSON numeral: [-]? then [0] or a digit string without leading zero. *)
Definition parse_number (s : jsstring) : Outcome (JSON * jsstring) :=
  let '(neg, s1) := match s with 45 :: r => (true, r) | _ => (false, s) end in
  match s1 with
  | d :: r =>
      if is_digit d then
        let '(n, rest) := if d =? 48 then (0, r) else parse_digits 0 s1 in
        match rest with
        | c :: _ =>
            if is_digit c then json_syntax_error
            else if bool_decide (c ∈ [46; 101; 69]) then Unspecified
            else if MAX_SAFE_INTEGER <? n then Unspecified
            else Return (JNum (if neg then - n else n), rest)
        | [] =>
            if MAX_SAFE_INTEGER <? n then Unspecified
            else Return (JNum (if neg then - n else n), rest)
        end
      else json_syntax_error
  | [] => json_syntax_error
  end.

(** An array index: the canonical numeral of an integer below 2^32 - 1. *)
Definition array_index (k : jsstring) : option Z :=
  match k with
  | [] => None
  | d :: r =>
      if forallb is_digit k && ((d =? 48) && bool_decide (r = []) || negb (d =? 48))
         && (Z.of_nat (length k) <=? 10)
      then let n := fst (parse_digits 0 k) in
           if n <? 4294967295 then Some n else None
      else None
  end.

Definition has_key {V} (k : jsstring) (fs : list (jsstring * V)) : bool :=
  existsb (fun kv => str_eqb (fst kv) k) fs.

Fixpoint insert_index {V} (n : Z) (k : jsstring) (v : V) (fs : list (jsstring * V))
  : list (jsstring * V) :=
  match fs with
  | [] => [(k, v)]
  | (k', v') :: r =>
      match array_index k' with
      | Some m => if m <? n then (k', v') :: insert_index n k v r
                  else (k, v) :: fs
      | None => (k, v) :: fs
      end
  end.

(** Defining property [k] of an object: an existing property keeps its
    place, a new array index goes among the indices in ascending order, any
    other new key goes last. *)
Definition obj_set {V} (fs : list (jsstring * V)) (k : jsstring) (v : V)
  : list (jsstring * V) :=
  if has_key k fs then
    (fun kv => if str_eqb (fst kv) k then (k, v) else kv) <$> fs
  else match array_index k with
       | Some n => insert_index n k v fs
       | None => fs ++ [(k, v)]
       end.

Definition starts_with (p s : jsstring) : bool :=
  bool_decide (take (length p) s = p).

Fixpoint parse_value (fuel : nat) (s : jsstring) : Outcome (JSON * jsstring) :=
  match fuel with
  | O => OutOfFuel
  | S f =>
      match skip_ws s with
      | [] => json_syntax_error
      | c :: r =>
          if c =? 123 then
            match skip_ws r with
            | 125 :: r' => Return (JObj [], r')
            | _ => parse_members f [] r
            end
          else if c =? 91 then
            match skip_ws r with
            | 93 :: r' => Return (JArr [], r')
            | _ => parse_elements f [] r
            end
          else if c =? 34 then
            match parse_chars r with
            | Some (str, r') => Return (JStr str, r')
            | None => json_syntax_error
            end
          else if starts_with (lit "null") (c :: r) then Return (JNull, drop 4 (c :: r))
          else if starts_with (lit "true") (c :: r) then
            Return (JBool true, drop 4 (c :: r))
          else if starts_with (lit "false") (c :: r) then
            Return (JBool false, drop 5 (c :: r))
          else parse_number (c :: r)
      end
  end
with parse_elements (fuel : nat) (acc : list JSON) (s : jsstring)
  : Outcome (JSON * jsstring) :=
  match fuel with
  | O => OutOfFuel
  | S f =>
      let? vr := parse_value f s in
      match skip_ws (snd vr) with
      | 44 :: r' => parse_elements f (acc ++ [fst vr]) r'
      | 93 :: r' => Return (JArr (acc ++ [fst vr]), r')
      | _ => json_syntax_error
      end
  end
with parse_members (fuel : nat) (acc : list (jsstring * JSON)) (s : jsstring)
  : Outcome (JSON * jsstring) :=
  match fuel with
  | O => OutOfFuel
  | S f =>
      match skip_ws s with
      | 34 :: r =>
          match parse_chars r with
          | Some (k, r1) =>
              match skip_ws r1 with
              | 58 :: r2 =>
                  let? vr := parse_value f r2 in
                  match skip_ws (snd vr) with
                  | 44 :: r4 => parse_members f (obj_set acc k (fst vr)) r4
                  | 125 :: r4 => Return (JObj (obj_set acc k (fst vr)), r4)
                  | _ => json_syntax_error
                  end
              | _ => json_syntax_error
              end
          | None => json_syntax_error
          end
      | _ => json_syntax_error
      end
  end.

(** [JSON.parse(s)]. *)
Definition JSON_parse (s : jsstring) : Outcome JSON :=
  let? vr := parse_value (2 * length s + 2) s in
  match skip_ws (snd vr) with
  | [] => Return (fst vr)
  | _ => json_syntax_error
  end.

(** ** Values and coercions *)

(** The boolean coercion of [if (v)], [!v] and [v || d]; [None] is
    [undefined]. *)
Definition truthy (v : option JSON) : bool :=
  match v with
  | None | Some JNull => false
  | Some (JBool b) => b
  | Some (JNum n) => negb (n =? 0)
  | Some (JStr s) => negb (bool_decide (s = []))
  | Some (JArr _) | Some (JObj _) => true
  end.

Fixpoint lookup_field (k : jsstring) (fs : list (jsstring * JSON)) : option JSON :=
  match fs with
  | [] => None
  | (k', v) :: r => if str_eqb k' k then Some v else lookup_field k r
  end.

(** [v.name] for a property name written in the source ([kid], [exp],
    [host], ...): none of them exists on a built-in prototype, so only an
    object's own field can answer; reading a property of [null] or
    [undefined] throws. *)
Definition get_field (v : option JSON) (name : string) : Outcome (option JSON) :=
  match v with
  | None | Some JNull =>
      Throw (TypeError "Cannot read properties of null or undefined")
  | Some (JObj fs) => Return (lookup_field (lit name) fs)
  | Some _ => Return None
  end.

(** The result of [o[k]] for a computed key [k]: an own value, a member
    inherited from [Object.prototype], or [undefined]. *)
Inductive Member : Type :=
| Own (v : JSON)
| Inherited (name : jsstring)
| Absent.

Definition object_prototype_names : list jsstring :=
  lit <$> ["constructor"; "__proto__"; "hasOwnProperty"; "isPrototypeOf";
           "propertyIsEnumerable"; "toLocaleString"; "toString"; "valueOf";
           "__defineGetter__"; "__defineSetter__"; "__lookupGetter__";
           "__lookupSetter__"]%string.

Definition member_truthy (m : Member) : bool :=
  match m with
  | Own v => truthy (Some v)
  | Inherited _ => true
  | Absent => false
  end.

(** [o[k]] on an object; on an array or a string only the indices are
    described. *)
Definition get_member (o : option JSON) (k : jsstring) : Outcome Member :=
  match o with
  | None | Some JNull =>
      Throw (TypeError "Cannot read properties of null or undefined")
  | Some (JObj fs) =>
      match lookup_field k fs with
      | Some v => Return (Own v)
      | None => if bool_decide (k ∈ object_prototype_names)
                then Return (Inherited k) else Return Absent
      end
  | Some (JArr l) =>
      match array_index k with
      | Some i => Return (from_option Own Absent (l !! Z.to_nat i))
      | None => Unspecified
      end
  | Some (JStr s) =>
      match array_index k with
      | Some i => Return (from_option (fun c => Own (JStr [c])) Absent (s !! Z.to_nat i))
      | None => Unspecified
      end
  | Some (JBool _) | Some (JNum _) =>
      if bool_decide (k ∈ object_prototype_names) then Return (Inherited k)
      else Unspecified
  end.

(** A field of a [Member]: functions and [Object.prototype] carry none of the
    names the source reads. *)
Definition member_field (m : Member) (name : string) : Outcome (option JSON) :=
  match m with
  | Own v => get_field (Some v) name
  | Inherited _ => Return None
  | Absent => Throw (TypeError "Cannot read properties of undefined")
  end.

(** The keys visited by [for (const k in o)]. *)
Definition for_in_keys (o : JSON) : list jsstring :=
  match o with
  | JObj fs => fst <$> fs
  | JArr l => (fun i => Z_to_string (Z.of_nat i)) <$> seq 0 (length l)
  | JStr s => (fun i => Z_to_string (Z.of_nat i)) <$> seq 0 (length s)
  | _ => []
  end.

(** The string coercion of a template literal or of a property key.  An
    object that redefines [toString] or [valueOf] is not described. *)
Fixpoint json_toString (v : JSON) : Outcome jsstring :=
  match v with
  | JNull => Return (lit "null")
  | JBool b => Return (if b then lit "true" else lit "false")
  | JNum n => Return (Z_to_string n)
  | JStr s => Return s
  | JArr l =>
      (fix items (l : list JSON) : Outcome jsstring :=
         match l with
         | [] => Return []
         | x :: r =>
             let? sx := match x with JNull => Return [] | _ => json_toString x end in
             match r with
             | [] => Return sx
             | _ => let? sr := items r in Return (sx ++ 44 :: sr)
             end
         end) l
  | JObj fs =>
      if has_key (lit "toString") fs || has_key (lit "valueOf") fs then Unspecified
      else Return (lit "[object Object]")
  end.

Definition ToString (v : option JSON) : Outcome jsstring :=
  match v with
  | None => Return (lit "undefined")
  | Some j => json_toString j
  end.

(** [a == b] where both sides come from parsed JSON documents: two objects
    are never the same reference; comparisons that coerce between types are
    not described. *)
Definition loose_eq (a b : option JSON) : Outcome bool :=
  match a, b with
  | (None | Some JNull), (None | Some JNull) => Return true
  | (None | Some JNull), _ | _, (None | Some JNull) => Return false
  | Some (JBool x), Some (JBool y) => Return (bool_decide (x = y))
  | Some (JNum x), Some (JNum y) => Return (x =? y)
  | Some (JStr x), Some (JStr y) => Return (str_eqb x y)
  | Some (JArr _ | JObj _), Some (JArr _ | JObj _) => Return false
  | _, _ => Unspecified
  end.

(** [v < n] for a number [n]: [undefined] becomes NaN, [null] and booleans
    become 0 or 1; strings and objects are not described. *)
Definition less_than (v : option JSON) (n : Z) : Outcome bool :=
  match v with
  | None => Return false
  | Some JNull => Return (0 <? n)
  | Some (JBool b) => Return ((if b then 1 else 0) <? n)
  | Some (JNum x) => Return (x <? n)
  | Some _ => Unspecified
  end.

(** ** The world of one invocation *)

Record Response : Type := mkResponse { res_status : Z; res_body : jsstring }.

(** What a remote endpoint answers: a response, or a failed connection. *)
Inductive NetReply : Type :=
| Reply (status : Z) (body : jsstring)
| NetworkError (e : JSError).

Record OutboundRequest : Type := mkOutbound {
  out_url : jsstring;
  out_method : jsstring;
  out_headers : list (jsstring * option JSON);
  out_body : option bytes
}.

(** [kv] is the namespace bound to [env.CONFIG]; [date_now] is [Date.now()];
    [interceptors] are the pending answers of the network, by URL, each
    consumed by one [fetch]; [fetched] records the outbound calls, oldest
    first; [keygen] lists the outcomes of the coming
    [generateKey]/[exportKey] calls as (public, private) JWK pairs.
    Console output is not part of the world. *)
Record World : Type := mkWorld {
  kv : gmap (list Z) (list Z);
  date_now : Z;
  interceptors : list (jsstring * NetReply);
  fetched : list OutboundRequest;
  keygen : list (option (JSON * JSON))
}.

Definition set_kv (f : gmap (list Z) (list Z) -> gmap (list Z) (list Z)) (w : World) :=
  mkWorld (f (kv w)) (date_now w) (interceptors w) (fetched w) (keygen w).
Definition set_interceptors (i : list (jsstring * NetReply)) (w : World) :=
  mkWorld (kv w) (date_now w) i (fetched w) (keygen w).
Definition set_fetched (l : list OutboundRequest) (w : World) :=
  mkWorld (kv w) (date_now w) (interceptors w) l (keygen w).
Definition set_keygen (g : list (option (JSON * JSON))) (w : World) :=
  mkWorld (kv w) (date_now w) (interceptors w) (fetched w) g.

(** An asynchronous function. *)
Definition M (A : Type) : Type := World -> Outcome A * World.

Definition ret {A} (a : A) : M A := fun w => (Return a, w).
Definition throw {A} (e : JSError) : M A := fun w => (Throw e, w).
Definition lift {A} (o : Outcome A) : M A := fun w => (o, w).

Definition bind {A B} (m : M A) (k : A -> M B) : M B :=
  fun w =>
    match m w with
    | (Return a, w') => k a w'
    | (Throw e, w') => (Throw e, w')
    | (Unspecified, w') => (Unspecified, w')
    | (OutOfFuel, w') => (OutOfFuel, w')
    end.

(** [try { m } catch (e) { h e }]. *)
Definition try_catch {A} (m : M A) (h : JSError -> M A) : M A :=
  fun w =>
    match m w with
    | (Throw e, w') => h e w'
    | r => r
    end.

Notation "'let*' x ':=' m 'in' k" := (bind m (fun x => k))
  (at level 10, x name, m at level 100, k at level 200).

(** [env.CONFIG.get(key, 'json')]. *)
Definition kv_get_json (key : jsstring) : M JSON :=
  fun w =>
    match kv w !! key with
    | None => (Return JNull, w)
    | Some s => (JSON_parse s, w)
    end.

(** [env.CONFIG.put(key, value)]. *)
Definition kv_put (key value : jsstring) : M unit :=
  fun w => (Return tt, set_kv (insert key value) w).

Fixpoint take_reply (url : jsstring) (l : list (jsstring * NetReply))
  : option (NetReply * list (jsstring * NetReply)) :=
  match l with
  | [] => None
  | (u, r) :: t =>
      if str_eqb u url then Some (r, t)
      else match take_reply url t with
           | Some (r', t') => Some (r', (u, r) :: t')
           | None => None
           end
  end.

(** [fetch(url, init)]: a call that nothing answers fails like a refused
    connection. *)
Definition fetch (req : OutboundRequest) : M Response :=
  fun w =>
    let w1 := set_fetched (fetched w ++ [req]) w in
    match take_reply (out_url req) (interceptors w) with
    | Some (Reply st body, rest) => (Return (mkResponse st body), set_interceptors rest w1)
    | Some (NetworkError e, rest) => (Throw e, set_interceptors rest w1)
    | None => (Throw (TypeError "fetch failed"), w1)
    end.

Definition fetch_get (url : jsstring) : M Response :=
  fetch (mkOutbound url (lit "GET") [] None).

Definition now_seconds : M Z := fun w => (Return (date_now w / 1000), w).

(** ** Platform interfaces: [crypto.subtle] and the [yaml] package *)

Inductive KeyUsage : Type := UsageSign | UsageVerify.

Class SubtleCrypto : Type := {
  CryptoKey : Type;
  (** [importKey('jwk', jwk, RSASSA-PKCS1-v1_5/SHA-256, false, [usage])];
      [None] when the call rejects. *)
  importKey : option JSON -> KeyUsage -> option CryptoKey;
  (** [sign('RSASSA-PKCS1-v1_5', key, data)]. *)
  subtle_sign : CryptoKey -> bytes -> bytes;
  (** [verify('RSASSA-PKCS1-v1_5', key, signature, data)]. *)
  subtle_verify : CryptoKey -> bytes -> bytes -> bool;
  (** [digest('SHA-1', data)]. *)
  digest_SHA1 : bytes -> bytes
}.

Class YamlParser : Type := {
  (** [parse(text)] of the [yaml] package. *)
  yaml_parse : jsstring -> Outcome JSON
}.

Record Env : Type := mkEnv { KEY_PREFIX : jsstring }.

(** ** jwt.ts *)

Module Jwt.
Section WithCrypto.
Context {crypto : SubtleCrypto}.

Definition getSigningKey (e : Env) : jsstring := KEY_PREFIX e ++ lit "_keys".

(** [String.fromCharCode.apply(0, a)]. *)
Definition String_fromCharCode (a : list Z) : jsstring :=
  (fun x => x mod 65536) <$> a.

Definition base64url_stringify (a : bytes) : Outcome jsstring :=
  let? base64string := btoa (String_fromCharCode a) in
  Return (replace_all 47 95 (replace_all 43 45 (remove_all 61 base64string))).

Definition base64url_parse (s : jsstring) : Outcome bytes :=
  let s := filter (fun c => is_js_space c = false)
             (replace_all 95 47 (replace_all 45 43 s)) in
  atob s.

(** [new Uint8Array(chars)] of the code units of [str]: each is reduced
    modulo 256. *)
Definition asciiToUint8Array (str : jsstring) : bytes :=
  (fun c => c mod 256) <$> str.

Definition certs_url : jsstring :=
  lit "https://access-testing.cloudflareaccess.com/cdn-cgi/access/certs".

(** [keys.keys.filter((key) => key.kid == kid)]. *)
Fixpoint filter_kid (l : list JSON) (kid : option JSON) : Outcome (list JSON) :=
  match l with
  | [] => Return []
  | key :: r =>
      let? k := get_field (Some key) "kid" in
      let? same := loose_eq k kid in
      let? t := filter_kid r kid in
      Return (if same then key :: t else t)
  end.

Definition fetchAccessPublicKey (env : Env) (kid : option JSON) : M CryptoKey :=
  let* resp := fetch_get certs_url in
  let* keys := lift (JSON_parse (res_body resp)) in
  let* ks := lift (get_field (Some keys) "keys") in
  let* found :=
    match ks with
    | Some (JArr l) => lift (filter_kid l kid)
    | _ => throw (TypeError "keys.keys.filter is not a function")
    end in
  let jwk := head found in
  match importKey jwk UsageVerify with
  | Some key => ret key
  | None => throw (TypeError "Failed to import key")
  end.

Definition generateKID (publicKey : jsstring) : jsstring :=
  let msgUint8 := TextEncoder_encode publicKey in
  let hashArray := digest_SHA1 msgUint8 in
  let hashHex := concat (hex2 <$> hashArray) in
  substring0 64 hashHex.

(** What [generateKeys] returns (its [keypair] handle, which no caller
    reads, is left out). *)
Record GeneratedKeys : Type := mkGenerated {
  g_publicKey : JSON; g_privateKey : JSON; g_kid : jsstring
}.

(** [crypto.subtle.generateKey] followed by the two [exportKey] calls; with
    no outcome left in [keygen] the call fails. *)
Definition generateKey_export : M (JSON * JSON) :=
  fun w =>
    match keygen w with
    | Some jwks :: rest => (Return jwks, set_keygen rest w)
    | None :: rest => (Throw (Err (lit "OperationError") []), set_keygen rest w)
    | [] => (Throw (Err (lit "OperationError") []), w)
    end.

Definition keyset_record (publicKey privateKey : JSON) (kid : jsstring) : JSON :=
  JObj [(lit "public", publicKey); (lit "private", privateKey); (lit "kid", JStr kid)].

Definition generateKeys (env : Env) : M GeneratedKeys :=
  try_catch
    (let* keys := generateKey_export in
     let publicKey := fst keys in
     let privateKey := snd keys in
     let kid := generateKID (JSON_stringify publicKey) in
     let* _ := kv_put (getSigningKey env)
                 (JSON_stringify (keyset_record publicKey privateKey kid)) in
     ret (mkGenerated publicKey privateKey kid))
    (fun _ => throw (ThrownString (lit "failed to generate keyset"))).

(** The own enumerable properties copied by [{...v}]. *)
Definition spread_source (v : option JSON) : list (jsstring * option JSON) :=
  match v with
  | Some (JObj fs) => (fun kv => (fst kv, Some (snd kv))) <$> fs
  | Some (JArr l) => imap (fun i x => (Z_to_string (Z.of_nat i), Some x)) l
  | Some (JStr s) => imap (fun i c => (Z_to_string (Z.of_nat i), Some (JStr [c]))) s
  | _ => []
  end.

(** [{ kid: kid, ...pub }]. *)
Definition with_kid (kid pub : option JSON) : list (jsstring * option JSON) :=
  foldl (fun o kv => obj_set o (fst kv) (snd kv)) [(lit "kid", kid)] (spread_source pub).

Definition loadPublicKey (env : Env) : M (list (jsstring * option JSON)) :=
  let* key := kv_get_json (getSigningKey env) in
  if truthy (Some key) then
    let* kid := lift (get_field (Some key) "kid") in
    let* pub := lift (get_field (Some key) "public") in
    ret (with_kid kid pub)
  else
    let* g := generateKeys env in
    ret (with_kid (Some (JStr (g_kid g))) (Some (g_publicKey g))).

Record ParsedJWT : Type := mkParsed {
  to_be_validated : jsstring;
  header : JSON;
  payload : JSON;
  signature : jsstring
}.

Definition parseJWT (token : jsstring) : Outcome ParsedJWT :=
  match split_on 46 token with
  | [p0; p1; p2] =>
      let? hb := base64url_parse p0 in
      let? h := JSON_parse (TextDecoder_decode hb) in
      let? pb := base64url_parse p1 in
      let? p := JSON_parse (TextDecoder_decode pb) in
      Return (mkParsed (p0 ++ 46 :: p1) h p p2)
  | _ => Throw (Error "token must have 3 parts")
  end.

Definition verifyToken (env : Env) (token : jsstring) : M JSON :=
  let* jwt := lift (parseJWT token) in
  let* kid := lift (get_field (Some (header jwt)) "kid") in
  let* key := fetchAccessPublicKey env kid in
  let* sig := lift (base64url_parse (signature jwt)) in
  let verified := subtle_verify key sig (asciiToUint8Array (to_be_validated jwt)) in
  if negb verified then throw (Error "failed to verify token")
  else
    let claims := payload jwt in
    let* now := now_seconds in
    let* exp := lift (get_field (Some claims) "exp") in
    let* expired := lift (less_than exp now) in
    if expired then throw (Error "expired token")
    else ret claims.

(** A call of [loadSigningKey] may call itself; [fuel] bounds the number of
    nested calls. *)
Fixpoint loadSigningKey (fuel : nat) (env : Env) : M (option JSON * CryptoKey) :=
  match fuel with
  | O => lift OutOfFuel
  | S fuel' =>
      let* keyset := kv_get_json (getSigningKey env) in
      if truthy (Some keyset) then
        let* priv := lift (get_field (Some keyset) "private") in
        match importKey priv UsageSign with
        | Some signingKey =>
            let* kid := lift (get_field (Some keyset) "kid") in
            ret (kid, signingKey)
        | None => throw (TypeError "Failed to import key")
        end
      else
        let* _ := loadPublicKey env in
        loadSigningKey fuel' env
  end.

(** [{ alg: 'RS256', kid: kid }] as [JSON.stringify] sees it: a property
    whose value is [undefined] is left out. *)
Definition jwt_header (kid : option JSON) : JSON :=
  JObj ((lit "alg", JStr (lit "RS256"))
          :: match kid with Some k => [(lit "kid", k)] | None => [] end).

Definition signJWT (fuel : nat) (env : Env) (payload : JSON) : M jsstring :=
  let* handle := loadSigningKey fuel env in
  let kid := fst handle in
  let privateKey := snd handle in
  let header := jwt_header kid in
  let* encHeader := lift (base64url_stringify (asciiToUint8Array (JSON_stringify header))) in
  let* encPayload := lift (base64url_stringify (asciiToUint8Array (JSON_stringify payload))) in
  let encoded := encHeader ++ 46 :: encPayload in
  let sig := subtle_sign privateKey (asciiToUint8Array encoded) in
  let* encSig := lift (base64url_stringify sig) in
  ret (encoded ++ 46 :: encSig).

End WithCrypto.
End Jwt.

(** ** index.ts *)

Module Index.

(** The request as hono presents it: [c.req.method], [c.req.path], the query
    of [c.req.url] (without its [?], empty when there is none), the value of
    the [CF_Authorization] cookie, and the body. *)
Record Request : Type := mkRequest {
  req_method : jsstring;
  req_path : jsstring;
  req_query : jsstring;
  req_cookie : option jsstring;
  req_body : bytes
}.

(** *** [URLSearchParams] *)

Fixpoint percent_decode (b : bytes) : bytes :=
  match b with
  | [] => []
  | c :: r =>
      if c =? 37 then
        match r with
        | h1 :: h2 :: r' =>
            match hex_val h1, hex_val h2 with
            | Some a, Some d => a * 16 + d :: percent_decode r'
            | _, _ => c :: percent_decode r
            end
        | _ => c :: percent_decode r
        end
      else c :: percent_decode r
  end.

Fixpoint split_first (sep : Z) (s : list Z) : list Z * list Z :=
  match s with
  | [] => ([], [])
  | c :: r => if c =? sep then ([], r)
              else let '(a, b) := split_first sep r in (c :: a, b)
  end.

Definition decode_component (b : bytes) : jsstring :=
  utf8_run utf8_init (percent_decode (replace_all 43 32 b)).

(** The application/x-www-form-urlencoded parser. *)
Definition urlencoded_parse (query : jsstring) : list (jsstring * jsstring) :=
  (fun seq => let '(n, v) := split_first 61 seq in
              (decode_component n, decode_component v))
    <$> filter (fun seq => seq <> []) (split_on 38 (TextEncoder_encode query)).

Definition upper_hex_digit (d : Z) : Z := if d <? 10 then 48 + d else 55 + d.

Definition urlencoded_byte (b : Z) : jsstring :=
  if b =? 32 then [43]
  else if bool_decide (b ∈ [42; 45; 46; 95]) || is_digit b
          || ((65 <=? b) && (b <=? 90)) || ((97 <=? b) && (b <=? 122)) then [b]
  else [37; upper_hex_digit (b / 16); upper_hex_digit (b mod 16)].

Definition encode_component (s : jsstring) : jsstring :=
  concat (urlencoded_byte <$> TextEncoder_encode s).

(** The application/x-www-form-urlencoded serializer. *)
Definition urlencoded_serialize (params : list (jsstring * jsstring)) : jsstring :=
  join [38] ((fun nv => encode_component (fst nv) ++ 61 :: encode_component (snd nv))
               <$> params).

(** [new URL(c.req.url).searchParams.toString()]. *)
Definition searchParams_toString (req : Request) : jsstring :=
  urlencoded_serialize (urlencoded_parse (req_query req)).

(** *** Responses of the hono context *)

Definition c_text (body : jsstring) (status : Z) : Response := mkResponse status body.
Definition c_json (v : JSON) (status : Z) : Response :=
  mkResponse status (JSON_stringify v).

Section WithPlatform.
Context {crypto : SubtleCrypto} {yaml : YamlParser}.

Definition getConfigKey (e : Env) : jsstring := KEY_PREFIX e ++ lit "_workload_config".

Definition hosts_url : jsstring :=
  lit "https://raw.githubusercontent.com/co-cddo/zerotrust-cloud-identity/refs/heads/main/shared_config/hosts.yaml".

Definition getUserAndHistory (env : Env) (c : Request) : M Response :=
  let cf_cookie := req_cookie c in
  let* claims := Jwt.verifyToken env (default [] cf_cookie) in
  let* email := lift (get_field (Some claims) "email") in
  let user := match email with
              | Some e => if truthy email then e else JStr (lit "unknown user")
              | None => JStr (lit "unknown user")
              end in
  ret (c_json (JObj [(lit "user", user);
                     (lit "history", JArr [JStr (lit "insert identity history0 here");
                                           JStr (lit "insert identity history1 here")])])
              200).

Definition refreshConfig (env : Env) : M JSON :=
  let* resp := fetch_get hosts_url in
  if negb (res_status resp =? 200) then
    throw (HTTPException 500 (lit "failed to get config from github"))
  else
    let yamlData := res_body resp in
    let* jsonData := lift (yaml_parse yamlData) in
    let* _ := kv_put (getConfigKey env) (JSON_stringify jsonData) in
    ret jsonData.

(** [c.req.path.split('/').filter(Boolean)]. *)
Definition path_parts (path : jsstring) : list jsstring :=
  filter (fun p => p <> []) (split_on 47 path).

(** The URL handed to [fetch] for a workload with the given host. *)
Definition target_url (host : jsstring) (pathParts : list jsstring) (query : jsstring)
  : jsstring :=
  let remainingPath := join [47] (drop 1 pathParts) in
  let targetUrl :=
    lit "https://" ++ host ++ (if remainingPath is [] then [] else 47 :: remainingPath) in
  targetUrl ++ 63 :: query.

(** The [try] block of [forwardRequest]. *)
Definition forward_try (c : Request) (config : option JSON) : M Response :=
  let pathParts := path_parts (req_path c) in
  match pathParts with
  | [] => ret (c_text (lit "Invalid request path") 400)
  | workloadName :: _ =>
      let* workload := lift (get_member config workloadName) in
      if negb (member_truthy workload) then
        ret (c_text (lit "Workload " ++ workloadName ++ lit " not found") 404)
      else
        let* host := lift (member_field workload "host") in
        let* hostText := lift (ToString host) in
        let query := searchParams_toString c in
        let targetUrl := target_url hostText pathParts query in
        let method := if req_method c is [] then lit "GET" else req_method c in
        let body :=
          if bool_decide (toUpperCase (req_method c)
                            ∈ [lit "POST"; lit "PUT"; lit "PATCH"])
          then Some (req_body c) else None in
        (* spreading [c.req.raw.headers], a [Headers] instance, copies no
           property: only [host] is sent *)
        fetch (mkOutbound targetUrl method [(lit "host", host)] body)
  end.

Definition forwardRequest (c : Request) (config : option JSON) : M Response :=
  try_catch (forward_try c config)
    (fun _ => ret (c_text (lit "Error forwarding request to remote host") 500)).

(** *** The hono application *)

Inductive Provider : Type :=
| ProviderExample
| ProviderInherited (name : jsstring).

(** [Providers[key]]: the table's own entry [example], or a member inherited
    from [Object.prototype]. *)
Definition Providers (key : jsstring) : option Provider :=
  if str_eqb key (lit "example") then Some ProviderExample
  else if bool_decide (key ∈ object_prototype_names) then Some (ProviderInherited key)
  else None.

Inductive Pattern : Type :=
| PExact (path : jsstring)
| PUnder (base : jsstring)
| PAny.

Inductive Handler : Type :=
| HProvider (p : Provider)
| HConfig
| HIdentity.

Record Route : Type := mkRoute {
  r_method : jsstring; r_pattern : Pattern; r_handler : Handler
}.

(** A workload name is registered as literal path text; an empty name or a
    name using hono's pattern syntax would change what its routes match,
    which is not described. *)
Definition plain_name (name : jsstring) : bool :=
  negb (bool_decide (name = []))
  && forallb (fun c => negb (bool_decide (c ∈ [58; 42; 63; 123; 125]))) name.

(** [path] against [/name], [/name/*] (which also matches [/name]) and [*]. *)
Definition pattern_matches (p : Pattern) (path : jsstring) : bool :=
  match p with
  | PExact q => str_eqb path q
  | PUnder base => str_eqb path base || starts_with (base ++ [47]) path
  | PAny => true
  end.

(** The routes added for one workload by the loop of [handleRequest]. *)
Definition workload_routes (workloadName : jsstring) (p : Provider) : list Route :=
  let h := HProvider p in
  let under := PUnder (47 :: workloadName) in
  [ mkRoute (lit "GET") (PExact (47 :: workloadName)) h;
    mkRoute (lit "GET") under h;
    mkRoute (lit "POST") under h;
    mkRoute (lit "PUT") under h;
    mkRoute (lit "DELETE") under h;
    mkRoute (lit "PATCH") under h ].

(** [for (const workloadName in workloadConfig) { ... }]. *)
Fixpoint register_workloads (workloadConfig : JSON) (names : list jsstring)
  : Outcome (list Route) :=
  match names with
  | [] => Return []
  | workloadName :: rest =>
      let? workload := get_member (Some workloadConfig) workloadName in
      let? providerName := member_field workload "provider" in
      let? key := ToString providerName in
      let? here :=
        match Providers key with
        | Some p => if plain_name workloadName
                    then Return (workload_routes workloadName p)
                    else Unspecified
        | None => Return []
        end in
      let? more := register_workloads workloadConfig rest in
      Return (here ++ more)
  end.

Definition app_routes (workloadConfig : JSON) : Outcome (list Route) :=
  let? routes := register_workloads workloadConfig (for_in_keys workloadConfig) in
  Return (routes ++ [ mkRoute (lit "GET") (PExact (lit "/config")) HConfig;
                      mkRoute (lit "GET") PAny HIdentity ]).

Definition run_handler (env : Env) (workloadConfig : JSON) (c : Request) (h : Handler)
  : M Response :=
  match h with
  | HProvider ProviderExample => forwardRequest c (Some workloadConfig)
  | HProvider (ProviderInherited _) => lift Unspecified
  | HConfig => let* config := refreshConfig env in ret (c_json config 200)
  | HIdentity => getUserAndHistory env c
  end.

(** [app.onError]: hono hands it only [Error] instances, anything else
    thrown leaves [app.fetch] as a rejection. *)
Definition onError (err : JSError) : M Response :=
  match err with
  | HTTPException status message => ret (mkResponse status message)
  | Err _ _ =>
      ret (c_json (JObj [(lit "message", JStr (lit "something went wrong"));
                         (lit "err", JStr (error_toString err))]) 500)
  | ThrownString _ => throw err
  end.

(** [app.fetch(request, env)]: the first route registered for the method
    whose pattern matches answers; a HEAD request is served as GET, without
    body; without a route hono answers 404.  (The [logger] middleware only
    writes to the console.) *)
Definition app_fetch (env : Env) (workloadConfig : JSON) (routes : list Route)
    (request : Request) : M Response :=
  let is_head := str_eqb (req_method request) (lit "HEAD") in
  let method := if is_head then lit "GET" else req_method request in
  match List.find (fun r => str_eqb (r_method r) method
                            && pattern_matches (r_pattern r) (req_path request)) routes with
  | Some r =>
      let* res := try_catch (run_handler env workloadConfig request (r_handler r)) onError in
      ret (if is_head then mkResponse (res_status res) [] else res)
  | None =>
      ret (if is_head then mkResponse 404 [] else c_text (lit "404 Not Found") 404)
  end.

Definition handleRequest (request : Request) (env : Env) : M Response :=
  let* stored := kv_get_json (getConfigKey env) in
  let* workloadConfig :=
    if negb (truthy (Some stored)) then refreshConfig env else ret stored in
  let* routes := lift (app_routes workloadConfig) in
  app_fetch env workloadConfig routes request.

End WithPlatform.
End Index.

(** ** A small platform for running the embedding

    Keys are numbers carried in a one-field JWK, a signature is a two-byte
    checksum keyed by that number, the digest is twenty bytes of checksum, and
    the YAML parser accepts the JSON subset of YAML. *)

Definition sum_bytes (l : bytes) : Z := foldr Z.add 0 l.

Definition checksum_key (jwk : option JSON) : option Z :=
  match jwk with
  | Some (JObj fs) =>
      match lookup_field (lit "k") fs with
      | Some (JNum k) => Some k
      | _ => None
      end
  | _ => None
  end.

Definition checksum_sign (k : Z) (data : bytes) : bytes :=
  [(k + sum_bytes data) mod 256; (k + sum_bytes data) / 256 mod 256].

#[export] Instance checksum_crypto : SubtleCrypto := {|
  CryptoKey := Z;
  importKey := fun jwk _ => checksum_key jwk;
  subtle_sign := checksum_sign;
  subtle_verify := fun k sig data => bool_decide (sig = checksum_sign k data);
  digest_SHA1 := fun data => replicate 20 (sum_bytes data mod 256)
|}.

#[export] Instance json_yaml : YamlParser := {| yaml_parse := JSON_parse |}.

(** ** Auxiliary definitions of the proofs *)

(** The six-bit groups that [b64_encode] writes, without padding. *)
Fixpoint sextets_of (l : bytes) : list Z :=
  match l with
  | [] => []
  | [a] => [a / 4; a mod 4 * 16]
  | [a; b] => [a / 4; a mod 4 * 16 + b / 16; b mod 16 * 4]
  | a :: b :: c :: r =>
      a / 4 :: a mod 4 * 16 + b / 16 :: b mod 16 * 4 + c / 64 :: c mod 64
      :: sextets_of r
  end.

Definition is_sextet (i : Z) : Prop := 0 <= i < 64.

(** The base64url alphabet. *)
Definition url_char (i : Z) : Z :=
  if i =? 62 then 45 else if i =? 63 then 95 else b64_char i.

(** The expiry read from a payload has not passed at [now]: there is none,
    or it is a number not below [now]. *)
Definition not_expired_at (exp : option JSON) (now : Z) : Prop :=
  match exp with
  | None => True
  | Some (JNum e) => now <= e
  | Some _ => False
  end.

(** A signing key and a verification key of the same pair. *)
Definition same_key_material {crypto : SubtleCrypto} (sk vk : CryptoKey) : Prop :=
  forall data, subtle_verify vk (subtle_sign sk data) data = true.

(** ** A concrete deployment, for running the embedding

    The store holds the key pair [k1]; the identity provider publishes the
    verification key of the same pair; the clock is given in seconds. *)

Definition demo_env : Env := mkEnv (lit "default").

Definition demo_jwk : JSON := JObj [(lit "k", JNum 7)].

Definition demo_keyset : jsstring :=
  JSON_stringify (Jwt.keyset_record demo_jwk demo_jwk (lit "k1")).

Definition demo_certs : jsstring :=
  JSON_stringify
    (JObj [(lit "keys", JArr [JObj [(lit "kid", JStr (lit "k1")); (lit "k", JNum 7)]])]).

Definition demo_world (seconds : Z) : World :=
  mkWorld {[ lit "default_keys" := demo_keyset ]} (seconds * 1000)
          [(Jwt.certs_url, Reply 200 demo_certs)] [] [].

(** The world after the verifier has fetched the published keys. *)
Definition demo_world_fetched (seconds : Z) : World :=
  mkWorld {[ lit "default_keys" := demo_keyset ]} (seconds * 1000) []
          [mkOutbound Jwt.certs_url (lit "GET") [] None] [].

(** [{"email":"a@b.c","exp":1700000000}] *)
Definition demo_payload : JSON :=
  JObj [(lit "email", JStr (lit "a@b.c")); (lit "exp", JNum 1700000000)].

(** [{"alg":"RS256","kid":"k1"}.{"email":"a@b.c","exp":1700000000}], signed
    with [k1]. *)
Definition demo_token : jsstring :=
  lit "eyJhbGciOiJSUzI1NiIsImtpZCI6ImsxIn0.eyJlbWFpbCI6ImFAYi5jIiwiZXhwIjoxNzAwMDAwMDAwfQ.1Bw".

(** The same header over [{"email":"a@b.c","exp":1600000000}], with a
    signature that is not the one of [k1]. *)
Definition forged_old_token : jsstring :=
  lit "eyJhbGciOiJSUzI1NiIsImtpZCI6ImsxIn0.eyJlbWFpbCI6ImFAYi5jIiwiZXhwIjoxNjAwMDAwMDAwfQ.AAAA".

(** The same header over [{"exp":null}], signed with [k1]. *)
Definition null_exp_token : jsstring :=
  lit "eyJhbGciOiJSUzI1NiIsImtpZCI6ImsxIn0.eyJleHAiOm51bGx9.8BE".

(** The same header over [{"email":"a@b.c"}], signed with [k1]. *)
Definition no_exp_token : jsstring :=
  lit "eyJhbGciOiJSUzI1NiIsImtpZCI6ImsxIn0.eyJlbWFpbCI6ImFAYi5jIn0.NRQ".

Definition demo_header : JSON :=
  JObj [(lit "alg", JStr (lit "RS256")); (lit "kid", JStr (lit "k1"))].

Definition workload (provider host : string) : JSON :=
  JObj [(lit "provider", JStr (lit provider)); (lit "host", JStr (lit host));
        (lit "type", JStr (lit "web"))].

(** [{workload1: {provider: example, host: foo.com, type: web}}] *)
Definition demo_table : JSON := JObj [(lit "workload1", workload "example" "foo.com")].

(** A world whose store holds the routing table [table] and whose network
    answers as [net] says. *)
Definition routing_world (table : JSON) (net : list (jsstring * NetReply)) : World :=
  mkWorld {[ lit "default_workload_config" := JSON_stringify table ]} 1700000000000
          net [] [].

Definition GET (path query : string) : Index.Request :=
  Index.mkRequest (lit "GET") (lit path) (lit query) None [].

(** [{oldWorkload: {provider: example, host: example.com, type: web}}] *)
Definition old_table : JSON := JObj [(lit "oldWorkload", workload "example" "example.com")].

(** [{config: {provider: example, host: foo.com, type: web}}] *)
Definition shadowing_table : JSON := JObj [(lit "config", workload "example" "foo.com")].

(** The value of a digit string read after the accumulator [a]. *)
Definition digits_value (ds : jsstring) (a : Z) : Z :=
  foldl (fun a c => a * 10 + (c - 48)) a ds.

(** What may follow a value inside a JSON text. *)
Definition follows_value (rest : jsstring) : Prop :=
  match rest with
  | [] => True
  | c :: _ => c = 44 \/ c = 93 \/ c = 125
  end.

(** Values that [JSON.stringify] writes and [JSON.parse] reads back: safe
    integers, strings of code units, objects whose fields are in property
    order without repetition. *)
Fixpoint canonical (v : JSON) : Prop :=
  match v with
  | JNull | JBool _ => True
  | JNum n => - MAX_SAFE_INTEGER <= n <= MAX_SAFE_INTEGER
  | JStr s => Forall is_code_unit s
  | JArr l =>
      (fix all (l : list JSON) : Prop :=
         match l with
         | [] => True
         | x :: r => canonical x /\ all r
         end) l
  | JObj fs =>
      foldl (fun acc kv => obj_set acc (fst kv) (snd kv)) [] fs = fs
      /\ (fix all (fs : list (jsstring * JSON)) : Prop :=
            match fs with
            | [] => True
            | kv :: r => Forall is_code_unit (fst kv) /\ canonical (snd kv) /\ all r
            end) fs
  end.

(** The number of nested parser calls that reading a value takes. *)
Fixpoint json_size (v : JSON) : nat :=
  match v with
  | JArr l => S (list_sum (map (fun x => S (json_size x)) l))
  | JObj fs => S (list_sum (map (fun kv => S (json_size (snd kv))) fs))
  | _ => 1
  end.

(** The text of one member of an object. *)
Definition member_text (kv : jsstring * JSON) : jsstring :=
  quote (fst kv) ++ 58 :: JSON_stringify (snd kv).

(** The characters a JSON text can start with. *)
Definition clean_head (c : Z) : Prop :=
  c = 110 \/ c = 116 \/ c = 102 \/ c = 45 \/ 48 <= c <= 57 \/ c = 34 \/ c = 91 \/ c = 123.

(** A canonical value whose text is ASCII. *)
Definition ascii_json (v : JSON) : Prop :=
  canonical v /\ Forall is_ascii (JSON_stringify v).

(** The routes of the workloads are patterns over their names. *)
Definition route_of_names (names : list jsstring) (r : Index.Route) : Prop :=
  exists name, name ∈ names
               /\ (Index.r_pattern r = Index.PExact (47 :: name)
                   \/ Index.r_pattern r = Index.PUnder (47 :: name)).

(** ** Tactics *)

(** Case analysis on the integer comparisons of the goal and of the
    hypotheses. *)
Ltac z_cases :=
  repeat (match goal with
          | |- context [Z.ltb ?a ?b] => destruct (Z.ltb_spec a b)
          | |- context [Z.leb ?a ?b] => destruct (Z.leb_spec a b)
          | |- context [Z.eqb ?a ?b] => destruct (Z.eqb_spec a b)
          | H : context [Z.ltb ?a ?b] |- _ => destruct (Z.ltb_spec a b)
          | H : context [Z.leb ?a ?b] |- _ => destruct (Z.leb_spec a b)
          | H : context [Z.eqb ?a ?b] |- _ => destruct (Z.eqb_spec a b)
          end; cbv iota beta in *).

(** Linear arithmetic with division and remainder by constants. *)
Ltac zlia := Z.div_mod_to_equations; lia.


(** The fields of a literal object, one key and one value at a time. *)
Ltac each_field :=
  repeat match goal with
    | |- Forall (fun kv => _ /\ _) _ =>
        (apply Forall_cons_2; [split; cbn [fst snd]|]) || apply Forall_nil_2
    end.

(** ** Vocabulary of the further properties *)

(** The characters of the base64url alphabet. *)
Definition is_base64url_char (c : Z) : Prop :=
  65 <= c <= 90 \/ 97 <= c <= 122 \/ 48 <= c <= 57 \/ c = 45 \/ c = 95.

(** A lower-case hexadecimal digit. *)
Definition is_lower_hex (c : Z) : Prop := 48 <= c <= 57 \/ 97 <= c <= 102.

(** The number of [.] in a token. *)
Definition dots (token : jsstring) : nat := length (filter (fun c => c = 46) token).

(** [w'] differs from [w] at most by network traffic: the store, the clock
    and the pending key generations are the same. *)
Definition only_network (w w' : World) : Prop :=
  kv w' = kv w /\ date_now w' = date_now w /\ keygen w' = keygen w.

(** The text of [workloadConfig[name].provider], as the registration loop
    reads it to index [Providers]. *)
Definition provider_of (table : JSON) (name : jsstring) : Outcome jsstring :=
  let? wl := get_member (Some table) name in
  let? p := member_field wl "provider" in
  ToString p.

(** The workload [name] of [table] names a member of [Providers]. *)
Definition routable (table : JSON) (name : jsstring) : bool :=
  match provider_of table name with
  | Return key => match Index.Providers key with Some _ => true | None => false end
  | _ => false
  end.

(** The methods for which a workload gets routes. *)
Definition workload_methods : list jsstring :=
  [lit "GET"; lit "POST"; lit "PUT"; lit "DELETE"; lit "PATCH"].


(** A world with an empty store whose source of the routing table answers
    [reply], followed by the answers [net]. *)
Definition cold_world (reply : NetReply) (net : list (jsstring * NetReply)) : World :=
  mkWorld ∅ 1700000000000 ((Index.hosts_url, reply) :: net) [] [].


(** The value of a lower-case hexadecimal digit. *)
Definition lower_hex_value (c : Z) : option Z :=
  if (48 <=? c) && (c <=? 57) then Some (c - 48)
  else if (97 <=? c) && (c <=? 102) then Some (c - 87)
  else None.

(** The bytes that a hexadecimal text denotes: two lower-case digits for
    each byte, the high one first. *)
Fixpoint hex_decode (s : jsstring) : option bytes :=
  match s with
  | [] => Some []
  | h :: l :: r =>
      match lower_hex_value h, lower_hex_value l, hex_decode r with
      | Some a, Some b, Some t => Some (a * 16 + b :: t)
      | _, _, _ => None
      end
  | _ => None
  end.

(** Every entry of [table] has a provider that reads as a text: the entry
    is not [null] and its [provider] is absent or a value whose string
    coercion is described. *)
Definition readable_providers (table : JSON) : Prop :=
  Forall (fun n => exists key, provider_of table n = Return key) (for_in_keys table).

(** Every workload name of [table] is literal route text: not empty and
    without the characters [:], [*], [?], [{] and [}] of hono's pattern
    syntax. *)
Definition plain_names (table : JSON) : Prop :=
  Forall (fun n => Index.plain_name n = true) (for_in_keys table).

(** [{"a/b": {provider: example, host: foo.com, type: web}}]: a workload
    whose name holds a [/]. *)
Definition nested_name_table : JSON := JObj [(lit "a/b", workload "example" "foo.com")].

(** * Properties *)

(** ** Base64 and base64url *)

Lemma b64_index_char i : is_sextet i -> b64_index (b64_char i) = Some i.
Proof.
  unfold is_sextet, b64_index, b64_char. intros Hi.
  z_cases; simpl; try lia; z_cases; simpl; try lia; f_equal; lia.
Qed.

(** Three bytes at a time. *)
Lemma bytes_ind3 (P : bytes -> Prop) :
  P [] -> (forall a, P [a]) -> (forall a b, P [a; b]) ->
  (forall a b c r, P r -> P (a :: b :: c :: r)) ->
  forall l, P l.
Proof.
  intros H0 H1 H2 H3.
  fix IH 1. intros [|a [|b [|c r]]].
  - exact H0.
  - apply H1.
  - apply H2.
  - apply H3, IH.
Qed.

Lemma sextets_of_range l : Forall is_byte l -> Forall is_sextet (sextets_of l).
Proof.
  induction l as [|a|a b|a b c r IH] using bytes_ind3; intros Hl; simpl;
    repeat match goal with H : Forall _ (_ :: _) |- _ => inversion_clear H end;
    unfold is_byte in *;
    repeat (apply Forall_cons_2; [unfold is_sextet; zlia|]); auto.
Qed.

Lemma b64_decode_sextets l : Forall is_byte l -> b64_decode (sextets_of l) = Some l.
Proof.
  induction l as [|a|a b|a b c r IH] using bytes_ind3; intros Hl;
    repeat match goal with H : Forall _ (_ :: _) |- _ => inversion_clear H end;
    unfold is_byte in *.
  - reflexivity.
  - simpl. do 2 f_equal. zlia.
  - simpl. do 2 f_equal; [zlia|f_equal; zlia].
  - cbn [sextets_of b64_decode]. rewrite IH by assumption.
    do 2 f_equal; [zlia|]. f_equal; [zlia|]. f_equal; zlia.
Qed.

Lemma filter_all {A} (P : A -> Prop) `{!forall x, Decision (P x)} (l : list A) :
  Forall P l -> filter P l = l.
Proof.
  induction 1 as [|x l Hx Hl IH]; [reflexivity|].
  rewrite filter_cons_True by assumption. now rewrite IH.
Qed.

Lemma b64_char_range i : is_sextet i -> 43 <= b64_char i <= 122.
Proof. unfold is_sextet, b64_char. intros Hi. z_cases; lia. Qed.

Lemma b64_char_not_pad i : is_sextet i -> b64_char i <> 61.
Proof. unfold is_sextet, b64_char. intros Hi. z_cases; lia. Qed.

Lemma url_char_range i : is_sextet i -> 45 <= url_char i <= 122.
Proof. unfold is_sextet, url_char, b64_char. intros Hi. z_cases; lia. Qed.

Lemma url_char_not_dot i : is_sextet i -> url_char i <> 46.
Proof. unfold is_sextet, url_char, b64_char. intros Hi. z_cases; lia. Qed.

Lemma url_char_not_space i : is_sextet i -> is_js_space (url_char i) = false.
Proof.
  intros Hi. pose proof (url_char_range i Hi) as Hr. unfold is_js_space.
  apply orb_false_intro.
  - apply bool_decide_eq_false. rewrite !elem_of_cons, elem_of_nil. lia.
  - z_cases; simpl; try reflexivity; lia.
Qed.

Lemma b64_char_not_whitespace i : is_sextet i -> is_ascii_whitespace (b64_char i) = false.
Proof.
  intros Hi. pose proof (b64_char_range i Hi) as Hr. unfold is_ascii_whitespace.
  apply bool_decide_eq_false. rewrite !elem_of_cons, elem_of_nil. lia.
Qed.

(** [-] and [_] stand for [+] and [/]. *)
Lemma to_url_char i :
  is_sextet i ->
  (if (if b64_char i =? 43 then 45 else b64_char i) =? 47 then 95
   else (if b64_char i =? 43 then 45 else b64_char i)) = url_char i.
Proof. unfold is_sextet, url_char, b64_char. intros Hi. z_cases; lia. Qed.

Lemma of_url_char i :
  is_sextet i ->
  (if (if url_char i =? 45 then 43 else url_char i) =? 95 then 47
   else (if url_char i =? 45 then 43 else url_char i)) = b64_char i.
Proof. unfold is_sextet, url_char, b64_char. intros Hi. z_cases; lia. Qed.

Lemma remove_pad_encode l :
  Forall is_byte l -> remove_all 61 (b64_encode l) = b64_char <$> sextets_of l.
Proof.
  assert (Hs : forall a, is_sextet a -> forall t,
             remove_all 61 (b64_char a :: t) = b64_char a :: remove_all 61 t).
  { intros a Ha t. unfold remove_all. rewrite filter_cons_True; [reflexivity|].
    now apply b64_char_not_pad. }
  assert (Hp : forall t, remove_all 61 (61 :: t) = remove_all 61 t).
  { intros t. unfold remove_all. rewrite filter_cons_False; [reflexivity|]. tauto. }
  induction l as [|a|a b|a b c r IH] using bytes_ind3; intros Hl;
    repeat match goal with H : Forall _ (_ :: _) |- _ => inversion_clear H end;
    unfold is_byte in *; cbn [b64_encode sextets_of fmap list_fmap].
  - reflexivity.
  - rewrite !Hs, !Hp by (unfold is_sextet; zlia). reflexivity.
  - rewrite !Hs, !Hp by (unfold is_sextet; zlia). reflexivity.
  - rewrite !Hs by (unfold is_sextet; zlia). rewrite IH by assumption. reflexivity.
Qed.

Lemma sextets_chars l : Forall is_sextet l -> sextets (b64_char <$> l) = Some l.
Proof.
  induction 1 as [|i l Hi Hl IH]; [reflexivity|].
  cbn [fmap list_fmap sextets]. change (list_fmap _ _ b64_char l) with (b64_char <$> l).
  now rewrite b64_index_char, IH.
Qed.

Lemma strip_padding_chars l :
  Forall is_sextet l -> strip_padding (b64_char <$> l) = b64_char <$> l.
Proof.
  intros Hl. unfold strip_padding.
  destruct (reverse (b64_char <$> l)) as [|x r] eqn:E; [reflexivity|].
  assert (Hx : x <> 61).
  { assert (Hin : x ∈ reverse (b64_char <$> l)) by (rewrite E; apply list_elem_of_here).
    rewrite elem_of_reverse in Hin. apply list_elem_of_fmap in Hin as (i & -> & Hi).
    rewrite Forall_forall in Hl. apply b64_char_not_pad, Hl, Hi. }
  destruct (Z.eqb_spec x 61); [contradiction|reflexivity].
Qed.

Lemma atob_chars l :
  Forall is_sextet l ->
  atob (b64_char <$> l) = from_option Return (Throw InvalidCharacterError) (b64_decode l).
Proof.
  intros Hl. unfold atob.
  rewrite (filter_all (fun c => is_ascii_whitespace c = false)).
  2:{ rewrite Forall_fmap. eapply Forall_impl; [exact Hl|].
      intros i Hi. simpl. now apply b64_char_not_whitespace. }
  assert (Hstrip : (if Z.of_nat (length (b64_char <$> l)) mod 4 =? 0
                    then strip_padding (b64_char <$> l) else b64_char <$> l)
                   = b64_char <$> l).
  { destruct (_ =? 0); [now apply strip_padding_chars|reflexivity]. }
  rewrite Hstrip, sextets_chars by assumption.
  now destruct (b64_decode l).
Qed.

Section Base64Url.
Context {crypto : SubtleCrypto}.
Import Jwt.

Lemma String_fromCharCode_bytes a : Forall is_byte a -> String_fromCharCode a = a.
Proof.
  induction 1 as [|x l Hx Hl IH]; [reflexivity|].
  unfold String_fromCharCode in *. cbn [fmap list_fmap]. f_equal; [|exact IH].
  unfold is_byte in Hx. apply Z.mod_small. lia.
Qed.

Lemma forallb_is_byteb a : Forall is_byte a -> forallb is_byteb a = true.
Proof.
  induction 1 as [|x l Hx Hl IH]; [reflexivity|].
  simpl. rewrite IH. unfold is_byte in Hx. unfold is_byteb.
  z_cases; simpl; try reflexivity; lia.
Qed.

Lemma base64url_stringify_bytes a :
  Forall is_byte a -> base64url_stringify a = Return (url_char <$> sextets_of a).
Proof.
  intros Ha. unfold base64url_stringify, btoa.
  rewrite String_fromCharCode_bytes, forallb_is_byteb by assumption. simpl.
  rewrite remove_pad_encode by assumption. f_equal.
  unfold replace_all. rewrite <- !list_fmap_compose.
  apply Forall_fmap_ext. eapply Forall_impl; [apply sextets_of_range, Ha|].
  intros i Hi. simpl. now apply to_url_char.
Qed.

Lemma base64url_parse_chars a :
  Forall is_byte a -> base64url_parse (url_char <$> sextets_of a) = Return a.
Proof.
  intros Ha. pose proof (sextets_of_range a Ha) as Hs. unfold base64url_parse.
  assert (Hback : replace_all 95 47 (replace_all 45 43 (url_char <$> sextets_of a))
                  = b64_char <$> sextets_of a).
  { unfold replace_all. rewrite <- !list_fmap_compose.
    apply Forall_fmap_ext. eapply Forall_impl; [exact Hs|].
    intros i Hi. simpl. now apply of_url_char. }
  rewrite Hback.
  rewrite (filter_all (fun c => is_js_space c = false)).
  2:{ rewrite Forall_fmap. eapply Forall_impl; [exact Hs|].
      intros i Hi. simpl.
      (* a base64 character is a base64url character or one of + and / *)
      pose proof (b64_char_range i Hi) as Hr. unfold is_js_space.
      apply orb_false_intro.
      - apply bool_decide_eq_false. rewrite !elem_of_cons, elem_of_nil. lia.
      - z_cases; simpl; try reflexivity; lia. }
  rewrite atob_chars, b64_decode_sextets by assumption. reflexivity.
Qed.

(** The codec of [base64url] loses nothing: parsing what [stringify] wrote
    gives the bytes back. *)
Lemma base64url_roundtrip a :
  Forall is_byte a ->
  exists s, base64url_stringify a = Return s /\ base64url_parse s = Return a
            /\ (46 ∉ s).
Proof.
  intros Ha. exists (url_char <$> sextets_of a). split; [|split].
  - now apply base64url_stringify_bytes.
  - now apply base64url_parse_chars.
  - intros Hin. apply list_elem_of_fmap in Hin as (i & Hi & Hel).
    pose proof (sextets_of_range a Ha) as Hs. rewrite Forall_forall in Hs.
    symmetry in Hi. revert Hi. now apply url_char_not_dot, Hs.
Qed.

End Base64Url.

(** ** ASCII text through [asciiToUint8Array] and [TextDecoder] *)

Lemma utf8_run_ascii b : Forall is_ascii b -> utf8_run utf8_init b = b.
Proof.
  induction 1 as [|x l Hx Hl IH]; [reflexivity|].
  unfold is_ascii in Hx. cbn [utf8_run]. unfold utf8_step, utf8_lead.
  cbn [u_needed utf8_init]. change (0 =? 0) with true. cbv iota.
  destruct (Z.leb_spec x 127); [|lia]. cbn [app]. now rewrite IH.
Qed.

Lemma TextDecoder_decode_ascii b : Forall is_ascii b -> TextDecoder_decode b = b.
Proof.
  intros Hb. unfold TextDecoder_decode. rewrite utf8_run_ascii by assumption.
  destruct Hb as [|x l Hx Hl]; [reflexivity|].
  unfold is_ascii in Hx. destruct (Z.eq_dec x 65279) as [->|Hne]; [lia|].
  destruct x as [|p|p]; try reflexivity.
  repeat (destruct p as [p|p|]; try reflexivity; try lia).
Qed.

Lemma split_on_no_sep sep s : sep ∉ s -> split_on sep s = [s].
Proof.
  induction s as [|c r IH]; [reflexivity|]. intros Hn.
  rewrite not_elem_of_cons in Hn. destruct Hn as [Hc Hr].
  cbn [split_on]. destruct (Z.eqb_spec c sep); [congruence|].
  now rewrite IH.
Qed.

Lemma split_on_app sep a b :
  sep ∉ a -> split_on sep (a ++ sep :: b) = a :: split_on sep b.
Proof.
  induction a as [|c r IH]; intros Hn.
  - cbn [app split_on]. now rewrite Z.eqb_refl.
  - rewrite not_elem_of_cons in Hn. destruct Hn as [Hc Hr].
    cbn [app split_on]. destruct (Z.eqb_spec c sep); [congruence|].
    now rewrite IH.
Qed.

Lemma split_on_three a b c :
  46 ∉ a -> 46 ∉ b -> 46 ∉ c -> split_on 46 (a ++ 46 :: b ++ 46 :: c) = [a; b; c].
Proof.
  intros Ha Hb Hc. now rewrite !split_on_app, split_on_no_sep.
Qed.

Lemma ascii_is_byte s : Forall is_ascii s -> Forall is_byte s.
Proof.
  intros Hs. eapply Forall_impl; [exact Hs|]. unfold is_ascii, is_byte. lia.
Qed.

Lemma ascii_check s : forallb is_asciib s = true -> Forall is_ascii s.
Proof.
  induction s as [|c r IH]; [constructor|]. simpl. intros Hc.
  apply andb_true_iff in Hc as [Hc Hr]. constructor; [|now apply IH].
  unfold is_asciib in Hc. unfold is_ascii. z_cases; simpl in Hc; try discriminate; lia.
Qed.

Lemma ascii_is_code_unit s : Forall is_ascii s -> Forall is_code_unit s.
Proof.
  intros Hs. eapply Forall_impl; [exact Hs|]. unfold is_ascii, is_code_unit. lia.
Qed.

Section Codec.
Context {crypto : SubtleCrypto}.
Import Jwt.

Lemma asciiToUint8Array_ascii s : Forall is_ascii s -> asciiToUint8Array s = s.
Proof.
  induction 1 as [|x l Hx Hl IH]; [reflexivity|].
  unfold asciiToUint8Array in *. cbn [fmap list_fmap]. f_equal; [|exact IH].
  unfold is_ascii in Hx. apply Z.mod_small. lia.
Qed.

(** An ASCII text written by [base64url.stringify(asciiToUint8Array(text))]
    is read back by [enc.decode(base64url.parse(segment))]. *)
Lemma segment_roundtrip text :
  Forall is_ascii text ->
  exists seg b, base64url_stringify (asciiToUint8Array text) = Return seg
                /\ (46 ∉ seg)
                /\ base64url_parse seg = Return b
                /\ TextDecoder_decode b = text.
Proof.
  intros Ht. rewrite asciiToUint8Array_ascii by assumption.
  destruct (base64url_roundtrip text (ascii_is_byte _ Ht)) as (seg & Hs & Hp & Hdot).
  exists seg, text. repeat split; try assumption.
  now apply TextDecoder_decode_ascii.
Qed.

End Codec.

(** ** JSON texts are read back *)

Lemma hex_val_digit d : 0 <= d < 16 -> hex_val (hex_digit d) = Some d.
Proof.
  intros Hd. unfold hex_val, hex_digit. z_cases; simpl; try lia; f_equal; lia.
Qed.

Lemma parse_escape_unit c tail :
  is_code_unit c ->
  parse_chars (escape_unit c ++ tail) = cons_char c (parse_chars tail).
Proof.
  intros Hc. unfold is_code_unit in Hc. unfold escape_unit, hex4.
  cbn [app parse_chars]. change (92 =? 34) with false. change (92 =? 92) with true.
  change (117 =? 117) with true. cbv iota.
  rewrite !hex_val_digit by zlia. do 2 f_equal. zlia.
Qed.

Lemma parse_literal_char c tail :
  32 <= c -> c <> 34 -> c <> 92 ->
  parse_chars (c :: tail) = cons_char c (parse_chars tail).
Proof.
  intros H32 H34 H92. cbn [parse_chars].
  destruct (Z.eqb_spec c 34); [contradiction|].
  destruct (Z.eqb_spec c 92); [contradiction|].
  destruct (Z.ltb_spec c 32); [lia|reflexivity].
Qed.

Lemma parse_quote_body s rest :
  Forall is_code_unit s ->
  parse_chars (quote_body s ++ 34 :: rest) = Some (s, rest).
Proof.
  remember (length s) as n eqn:Hn. revert s Hn.
  induction n as [n IH] using lt_wf_ind. intros s Hn Hs.
  destruct s as [|c r]; [reflexivity|].
  inversion_clear Hs as [|? ? Hc Hr].
  assert (IHr : parse_chars (quote_body r ++ 34 :: rest) = Some (r, rest)).
  { apply (IH (length r)); [subst n; simpl; lia|reflexivity|assumption]. }
  assert (Hesc : parse_chars ((escape_unit c ++ quote_body r) ++ 34 :: rest)
                 = Some (c :: r, rest)).
  { rewrite <- app_assoc, parse_escape_unit, IHr by assumption. reflexivity. }
  cbn [quote_body].
  destruct (Z.eqb_spec c 8) as [->|]; [cbn; now rewrite IHr|].
  destruct (Z.eqb_spec c 9) as [->|]; [cbn; now rewrite IHr|].
  destruct (Z.eqb_spec c 10) as [->|]; [cbn; now rewrite IHr|].
  destruct (Z.eqb_spec c 12) as [->|]; [cbn; now rewrite IHr|].
  destruct (Z.eqb_spec c 13) as [->|]; [cbn; now rewrite IHr|].
  destruct (Z.eqb_spec c 34) as [->|]; [cbn; now rewrite IHr|].
  destruct (Z.eqb_spec c 92) as [->|]; [cbn; now rewrite IHr|].
  destruct (Z.ltb_spec c 32); [exact Hesc|].
  destruct (is_high_surrogate c) eqn:Hhigh.
  - destruct r as [|d r'].
    + rewrite app_nil_r in Hesc. exact Hesc.
    + destruct (is_low_surrogate d) eqn:Hlow; [|exact Hesc].
      inversion_clear Hr as [|? ? Hd Hr'].
      unfold is_low_surrogate in Hlow. apply andb_true_iff in Hlow as [Hl1 Hl2].
      apply Z.leb_le in Hl1, Hl2.
      cbn [app]. rewrite !parse_literal_char by lia.
      rewrite (IH (length r')); [reflexivity|subst n; simpl; lia|reflexivity|assumption].
  - destruct (is_low_surrogate c); [exact Hesc|].
    cbn [app]. rewrite parse_literal_char, IHr by lia. reflexivity.
Qed.

Lemma digits_value_fuel fuel n acc :
  0 <= n < 10 ^ Z.of_nat fuel ->
  digits_value (digits_fuel fuel n acc) 0 = digits_value acc n.
Proof.
  revert n acc. induction fuel as [|f IH]; intros n acc Hn.
  - change (10 ^ Z.of_nat 0) with 1 in Hn. assert (n = 0) as -> by lia. reflexivity.
  - cbn [digits_fuel]. destruct (Z.ltb_spec n 10).
    + unfold digits_value. cbn [foldl]. f_equal. lia.
    + rewrite Nat2Z.inj_succ, Z.pow_succ_r in Hn by lia.
      rewrite IH by zlia. unfold digits_value. cbn [foldl]. f_equal. zlia.
Qed.

Lemma digits_fuel_digits fuel n acc :
  0 <= n -> Forall (fun c => is_digit c = true) acc ->
  Forall (fun c => is_digit c = true) (digits_fuel fuel n acc).
Proof.
  revert n acc. induction fuel as [|f IH]; intros n acc Hn Hacc; [exact Hacc|].
  cbn [digits_fuel]. destruct (Z.ltb_spec n 10).
  - constructor; [|exact Hacc]. unfold is_digit. z_cases; simpl; try reflexivity; lia.
  - apply IH; [zlia|]. constructor; [|exact Hacc].
    unfold is_digit. z_cases; simpl; try reflexivity; zlia.
Qed.

Lemma digits_fuel_head fuel n acc :
  0 < n < 10 ^ Z.of_nat fuel ->
  exists d t, digits_fuel fuel n acc = d :: t /\ 49 <= d <= 57.
Proof.
  revert n acc. induction fuel as [|f IH]; intros n acc Hn.
  - change (10 ^ Z.of_nat 0) with 1 in Hn. lia.
  - cbn [digits_fuel]. destruct (Z.ltb_spec n 10).
    + eexists _, _. split; [reflexivity|lia].
    + rewrite Nat2Z.inj_succ, Z.pow_succ_r in Hn by lia. apply IH. zlia.
Qed.

Lemma parse_digits_all ds rest a :
  Forall (fun c => is_digit c = true) ds ->
  match rest with [] => True | c :: _ => is_digit c = false end ->
  parse_digits a (ds ++ rest) = (digits_value ds a, rest).
Proof.
  intros Hds Hrest. revert a. induction Hds as [|c ds Hc Hds IH]; intros a.
  - cbn [app]. destruct rest as [|c r]; [reflexivity|].
    cbn [parse_digits]. now rewrite Hrest.
  - cbn [app parse_digits]. rewrite Hc, IH. reflexivity.
Qed.

(** The fuel of [Z_to_string] is enough for all the digits. *)
Lemma log2_fuel n : 0 <= n -> n < 10 ^ Z.of_nat (Z.to_nat (Z.log2 n) + 1).
Proof.
  intros Hn. rewrite Nat2Z.inj_add, Z2Nat.id by apply Z.log2_nonneg.
  destruct (Z.eq_dec n 0) as [->|Hne]; [reflexivity|].
  apply Z.lt_le_trans with (2 ^ (Z.log2 n + 1)).
  - pose proof (Z.log2_spec n ltac:(lia)) as [_ Hs]. exact Hs.
  - apply Z.pow_le_mono_l. lia.
Qed.

Lemma follows_value_not_digit rest :
  follows_value rest ->
  match rest with [] => True | c :: _ => is_digit c = false end.
Proof.
  destruct rest as [|c r]; [trivial|]. cbn. intros [->|[->| ->]]; reflexivity.
Qed.

Lemma parse_number_positive n rest (neg : bool) :
  0 < n <= MAX_SAFE_INTEGER -> follows_value rest ->
  exists d t,
    digits_fuel (Z.to_nat (Z.log2 n) + 1) n [] = d :: t /\ 49 <= d <= 57
    /\ (let '(m, rest') := if d =? 48 then (0, t ++ rest)
                           else parse_digits 0 ((d :: t) ++ rest) in
        match rest' with
        | c :: _ =>
            if is_digit c then json_syntax_error
            else if bool_decide (c ∈ [46; 101; 69]) then Unspecified
            else if MAX_SAFE_INTEGER <? m then Unspecified
            else Return (JNum (if neg then - m else m), rest')
        | [] =>
            if MAX_SAFE_INTEGER <? m then Unspecified
            else Return (JNum (if neg then - m else m), rest')
        end) = Return (JNum (if neg then - n else n), rest).
Proof.
  intros Hn Hrest.
  pose proof (log2_fuel n ltac:(lia)) as Hfuel.
  destruct (digits_fuel_head _ n [] (conj (proj1 Hn) Hfuel)) as (d & t & Hd & Hrange).
  exists d, t. split; [exact Hd|]. split; [exact Hrange|].
  destruct (Z.eqb_spec d 48); [lia|].
  rewrite <- Hd, parse_digits_all.
  2:{ apply digits_fuel_digits; [lia|constructor]. }
  2:{ now apply follows_value_not_digit. }
  rewrite digits_value_fuel by lia. unfold digits_value. cbn [foldl].
  destruct (Z.ltb_spec MAX_SAFE_INTEGER n); [lia|].
  destruct rest as [|c r]; [reflexivity|].
  cbn in Hrest. destruct Hrest as [->|[->| ->]]; reflexivity.
Qed.

Lemma parse_number_text n rest :
  - MAX_SAFE_INTEGER <= n <= MAX_SAFE_INTEGER -> follows_value rest ->
  parse_number (Z_to_string n ++ rest) = Return (JNum n, rest).
Proof.
  intros Hn Hrest. unfold Z_to_string. destruct (Z.ltb_spec n 0).
  - destruct (parse_number_positive (- n) rest true ltac:(lia) Hrest)
      as (d & t & Hd & Hrange & Hparse).
    unfold parse_number. cbn [app]. rewrite Hd. cbn [app].
    assert (Hdig : is_digit d = true) by (unfold is_digit; z_cases; simpl; auto; lia).
    rewrite Hdig. cbn [app] in Hparse. rewrite Hparse. f_equal. f_equal. f_equal. lia.
  - destruct (Z.eq_dec n 0) as [->|Hne].
    + cbn. destruct rest as [|c r]; [reflexivity|].
      cbn in Hrest. destruct Hrest as [->|[->| ->]]; reflexivity.
    + destruct (parse_number_positive n rest false ltac:(lia) Hrest)
        as (d & t & Hd & Hrange & Hparse).
      unfold parse_number. rewrite Hd. cbn [app].
      assert (Hdig : is_digit d = true) by (unfold is_digit; z_cases; simpl; auto; lia).
      assert (H45 : d <> 45) by lia.
      destruct d as [|p|p]; try lia.
      do 6 (destruct p as [p|p|]; try lia; try (rewrite Hdig; exact Hparse)).
Qed.

Lemma JSON_nested_ind (P : JSON -> Prop) :
  P JNull -> (forall b, P (JBool b)) -> (forall n, P (JNum n)) -> (forall s, P (JStr s)) ->
  (forall l, Forall P l -> P (JArr l)) ->
  (forall fs, Forall (fun kv => P (snd kv)) fs -> P (JObj fs)) ->
  forall v, P v.
Proof.
  intros Hnull Hbool Hnum Hstr Harr Hobj. fix IH 1. intros [|b|n|s|l|fs].
  - exact Hnull.
  - apply Hbool.
  - apply Hnum.
  - apply Hstr.
  - apply Harr. induction l as [|x l IHl]; constructor; [apply IH|exact IHl].
  - apply Hobj. induction fs as [|kv fs IHfs]; constructor; [apply IH|exact IHfs].
Qed.

Lemma canonical_items l : canonical (JArr l) <-> Forall canonical l.
Proof.
  induction l as [|x l IH].
  - split; [constructor|intros _; exact I].
  - split.
    + intros [Hx Hl]. constructor; [exact Hx|now apply IH].
    + intros Hxl. apply Forall_cons_1 in Hxl as [Hx Hl]. split; [exact Hx|now apply IH].
Qed.

Lemma canonical_fields fs :
  canonical (JObj fs)
  <-> foldl (fun acc kv => obj_set acc (fst kv) (snd kv)) [] fs = fs
      /\ Forall (fun kv => Forall is_code_unit (fst kv) /\ canonical (snd kv)) fs.
Proof.
  cbn [canonical]. apply and_iff_compat_l.
  induction fs as [|kv fs IH].
  - split; [constructor|intros _; exact I].
  - split.
    + intros (Hk & Hx & Hfs). constructor; [now split|now apply IH].
    + intros Hall. apply Forall_cons_1 in Hall as [[Hk Hx] Hfs].
      split; [exact Hk|]. split; [exact Hx|now apply IH].
Qed.

Lemma clean_head_not_ws c : clean_head c -> bool_decide (c ∈ [32; 9; 10; 13]) = false.
Proof.
  intros Hc. apply bool_decide_eq_false. rewrite !elem_of_cons, elem_of_nil.
  unfold clean_head in Hc. lia.
Qed.

Lemma skip_ws_clean c t : clean_head c -> skip_ws (c :: t) = c :: t.
Proof. intros Hc. cbn [skip_ws]. now rewrite clean_head_not_ws. Qed.

Lemma skip_ws_follows rest : follows_value rest -> skip_ws rest = rest.
Proof.
  destruct rest as [|c r]; [reflexivity|]. cbn. intros Hc.
  rewrite bool_decide_eq_false_2; [reflexivity|].
  rewrite !elem_of_cons, elem_of_nil. lia.
Qed.

Lemma Z_to_string_head n :
  exists c t, Z_to_string n = c :: t /\ (c = 45 \/ 48 <= c <= 57).
Proof.
  unfold Z_to_string. destruct (Z.ltb_spec n 0).
  - eexists _, _. split; [reflexivity|lia].
  - destruct (Z.eq_dec n 0) as [->|Hne].
    + eexists _, _. split; [reflexivity|lia].
    + destruct (digits_fuel_head (Z.to_nat (Z.log2 n) + 1) n [])
        as (d & t & Hd & Hr); [split; [lia|apply log2_fuel; lia]|].
      exists d, t. split; [exact Hd|lia].
Qed.

Lemma stringify_head v : exists c t, JSON_stringify v = c :: t /\ clean_head c.
Proof.
  destruct v as [|b|n|s|l|fs].
  - exists 110, (lit "ull"). split; [reflexivity|unfold clean_head; lia].
  - destruct b.
    + exists 116, (lit "rue"). split; [reflexivity|unfold clean_head; lia].
    + exists 102, (lit "alse"). split; [reflexivity|unfold clean_head; lia].
  - destruct (Z_to_string_head n) as (c & t & Hc & Hr).
    exists c, t. split; [exact Hc|unfold clean_head; lia].
  - eexists 34, _. split; [reflexivity|unfold clean_head; lia].
  - eexists 91, _. split; [reflexivity|unfold clean_head; lia].
  - eexists 123, _. split; [reflexivity|unfold clean_head; lia].
Qed.

Lemma starts_with_other p c d r t : c <> d -> starts_with (d :: p) (c :: r ++ t) = false.
Proof.
  intros Hne. unfold starts_with. apply bool_decide_eq_false. cbn [length take].
  intros Heq. injection Heq as Heq _. contradiction.
Qed.

Lemma parse_value_number f c t rest :
  c = 45 \/ 48 <= c <= 57 ->
  parse_value (S f) (c :: t ++ rest) = parse_number (c :: t ++ rest).
Proof.
  intros Hc. cbn [parse_value]. rewrite skip_ws_clean by (unfold clean_head; lia).
  destruct (Z.eqb_spec c 123); [lia|]. destruct (Z.eqb_spec c 91); [lia|].
  destruct (Z.eqb_spec c 34); [lia|].
  change (lit "null") with (110 :: lit "ull"). change (lit "true") with (116 :: lit "rue").
  change (lit "false") with (102 :: lit "alse").
  rewrite !starts_with_other by lia. reflexivity.
Qed.

Lemma json_size_pos v : (1 <= json_size v)%nat.
Proof. destruct v; cbn; lia. Qed.

Section ParseBack.

(** Reading the elements of an array, given that each element reads back. *)
Lemma parse_elements_text l :
  Forall (fun x => forall fuel rest,
              (json_size x <= fuel)%nat -> follows_value rest ->
              parse_value fuel (JSON_stringify x ++ rest) = Return (x, rest)) l ->
  l <> [] ->
  forall fuel acc rest,
    (list_sum (map (fun x => S (json_size x)) l) <= fuel)%nat ->
    parse_elements fuel acc (join [44] (map JSON_stringify l) ++ 93 :: rest)
    = Return (JArr (acc ++ l), rest).
Proof.
  induction 1 as [|x l Hx Hl IH]; [congruence|]. intros _ fuel acc rest Hfuel.
  simpl in Hfuel. destruct fuel as [|f]; [lia|].
  cbn [parse_elements]. destruct l as [|y l'].
  - cbn [map join]. rewrite Hx by (cbn; auto; lia). cbn [bindO fst snd skip_ws].
    change (bool_decide (93 ∈ [32; 9; 10; 13])) with false. reflexivity.
  - change (join [44] (map JSON_stringify (x :: y :: l')))
      with (JSON_stringify x ++ [44] ++ join [44] (map JSON_stringify (y :: l'))).
    rewrite <- !app_assoc. cbn [app]. rewrite Hx by (cbn; auto; lia).
    cbn [bindO fst snd skip_ws]. change (bool_decide (44 ∈ [32; 9; 10; 13])) with false.
    cbv iota. rewrite IH by (congruence || lia). now rewrite <- app_assoc.
Qed.

(** Reading the members of an object. *)
Lemma parse_members_text fs :
  Forall (fun kv => Forall is_code_unit (fst kv)
                    /\ forall fuel rest,
                        (json_size (snd kv) <= fuel)%nat -> follows_value rest ->
                        parse_value fuel (JSON_stringify (snd kv) ++ rest)
                        = Return (snd kv, rest)) fs ->
  fs <> [] ->
  forall fuel acc rest,
    (list_sum (map (fun kv => S (json_size (snd kv))) fs) <= fuel)%nat ->
    parse_members fuel acc (join [44] (map member_text fs) ++ 125 :: rest)
    = Return (JObj (foldl (fun acc kv => obj_set acc (fst kv) (snd kv)) acc fs), rest).
Proof.
  induction 1 as [|[k x] fs [Hk Hx] Hfs IH]; [congruence|].
  intros _ fuel acc rest Hfuel.
  simpl in Hfuel. destruct fuel as [|f]; [lia|].
  cbn [parse_members]. cbn [fst snd] in Hk, Hx.
  assert (Hstep : forall tail,
             follows_value tail ->
             parse_members (S f) acc (member_text (k, x) ++ tail)
             = match tail with
               | 44 :: r4 => parse_members f (obj_set acc k x) r4
               | 125 :: r4 => Return (JObj (obj_set acc k x), r4)
               | _ => json_syntax_error
               end).
  { intros tail Htail. unfold member_text, quote. cbn [fst snd app parse_members].
    rewrite skip_ws_clean by (unfold clean_head; lia).
    rewrite <- !app_assoc. cbn [app]. rewrite parse_quote_body by assumption.
    cbn [skip_ws]. change (bool_decide (58 ∈ [32; 9; 10; 13])) with false. cbv iota.
    rewrite Hx by (auto; lia). cbn [bindO fst snd].
    rewrite (skip_ws_follows tail Htail).
    destruct tail as [|c r]; [reflexivity|]. cbn in Htail.
    destruct Htail as [->|[->| ->]]; reflexivity. }
  destruct fs as [|kv' fs'].
  - cbn [map join foldl]. cbn [parse_members] in Hstep. rewrite Hstep by (cbn; auto).
    reflexivity.
  - change (join [44] (map member_text ((k, x) :: kv' :: fs')))
      with (member_text (k, x) ++ [44] ++ join [44] (map member_text (kv' :: fs'))).
    rewrite <- !app_assoc. cbn [app]. cbn [parse_members] in Hstep.
    rewrite Hstep by (cbn; auto).
    rewrite IH by (congruence || lia). reflexivity.
Qed.

(** Every canonical value is read back from its text by [parse_value]. *)
Lemma parse_value_text v :
  canonical v ->
  forall fuel rest,
    (json_size v <= fuel)%nat -> follows_value rest ->
    parse_value fuel (JSON_stringify v ++ rest) = Return (v, rest).
Proof.
  induction v as [|b|n|s|l IHl|fs IHfs] using JSON_nested_ind;
    intros Hcan fuel rest Hfuel Hrest;
    (destruct fuel as [|f]; [pose proof (json_size_pos (JArr [])); cbn in Hfuel; lia|]).
  - reflexivity.
  - destruct b; reflexivity.
  - cbn [JSON_stringify]. destruct (Z_to_string_head n) as (c & t & Hc & Hr).
    rewrite Hc. cbn [app]. rewrite parse_value_number by assumption.
    change (c :: t ++ rest) with ((c :: t) ++ rest). rewrite <- Hc.
    now apply parse_number_text.
  - cbn [JSON_stringify parse_value]. unfold quote. cbn [app skip_ws].
    change (bool_decide (34 ∈ [32; 9; 10; 13])) with false. cbv iota.
    change (34 =? 123) with false. change (34 =? 91) with false.
    change (34 =? 34) with true. cbv iota.
    rewrite <- app_assoc. cbn [app]. now rewrite parse_quote_body.
  - cbn [JSON_stringify parse_value app skip_ws].
    change (bool_decide (91 ∈ [32; 9; 10; 13])) with false. cbv iota.
    change (91 =? 123) with false. change (91 =? 91) with true. cbv iota.
    destruct l as [|x l']; [reflexivity|].
    apply canonical_items in Hcan.
    destruct (stringify_head x) as (c & t & Hc & Hclean).
    assert (Hskip : exists u, skip_ws ((join [44] (map JSON_stringify (x :: l')) ++ [93])
                                        ++ rest) = c :: u).
    { destruct l' as [|y l'']; cbn [map join]; rewrite Hc; cbn [app];
        rewrite skip_ws_clean by assumption; eexists; reflexivity. }
    destruct Hskip as (u & ->).
    assert (c <> 93) by (unfold clean_head in Hclean; lia).
    assert (Hnot : forall A (a b : A), match c :: u with 93 :: _ => a | _ => b end = b).
    { intros A a b. destruct c as [|p|p]; try reflexivity.
      do 7 (destruct p as [p|p|]; try reflexivity). lia. }
    rewrite (Hnot _ (Return (JArr [], _))).
    rewrite <- app_assoc. cbn [app]. cbn [json_size] in Hfuel.
    rewrite parse_elements_text; [reflexivity| |congruence|lia].
    apply Forall_forall. intros y Hy. rewrite Forall_forall in IHl, Hcan.
    intros fuel' rest'. now apply IHl, Hcan.
  - cbn [JSON_stringify parse_value app skip_ws].
    change (bool_decide (123 ∈ [32; 9; 10; 13])) with false. cbv iota.
    change (123 =? 123) with true. cbv iota.
    destruct fs as [|[k x] fs']; [reflexivity|].
    apply canonical_fields in Hcan as [Horder Hcan].
    change (map (fun kv => quote kv.1 ++ 58 :: JSON_stringify kv.2) ((k, x) :: fs'))
      with (map member_text ((k, x) :: fs')).
    assert (Hskip : exists u, skip_ws ((join [44] (map member_text ((k, x) :: fs')) ++ [125])
                                        ++ rest) = 34 :: u).
    { destruct fs' as [|y l'']; cbn [map join]; unfold member_text at 1, quote;
        cbn [app fst]; rewrite skip_ws_clean by (unfold clean_head; lia);
        eexists; reflexivity. }
    destruct Hskip as (u & ->). cbv iota.
    rewrite <- app_assoc. cbn [app]. cbn [json_size] in Hfuel.
    rewrite parse_members_text; [now rewrite Horder| |congruence|lia].
    apply Forall_forall. intros kv Hkv. rewrite Forall_forall in IHfs, Hcan.
    destruct (Hcan kv Hkv) as [Hkey Hval]. split; [exact Hkey|].
    intros fuel' rest'. now apply IHfs.
Qed.

End ParseBack.

Lemma join_length_elements l :
  (list_sum (map (fun x => S (json_size x)) l)
   <= 1 + length (join [44%Z] (map JSON_stringify l)))%nat ->
  (json_size (JArr l) <= length (JSON_stringify (JArr l)))%nat.
Proof.
  intros Hl. cbn [json_size JSON_stringify length]. rewrite length_app. cbn [length]. lia.
Qed.

Lemma json_size_text v : (json_size v <= length (JSON_stringify v))%nat.
Proof.
  induction v as [|b|n|s|l IHl|fs IHfs] using JSON_nested_ind.
  - cbn. lia.
  - destruct b; cbn; lia.
  - cbn [json_size JSON_stringify]. destruct (Z_to_string_head n) as (c & t & -> & _).
    cbn. lia.
  - cbn [json_size JSON_stringify]. unfold quote. cbn [length]. lia.
  - apply join_length_elements.
    induction IHl as [|x l Hx Hl IH]; [cbn; lia|].
    destruct l as [|y l'].
    + cbn [map join list_sum foldr]. simpl. lia.
    + change (join [44] (map JSON_stringify (x :: y :: l')))
        with (JSON_stringify x ++ [44] ++ join [44] (map JSON_stringify (y :: l'))).
      rewrite !length_app. simpl in IH |- *. lia.
  - cbn [json_size JSON_stringify length]. rewrite length_app. cbn [length].
    enough (list_sum (map (fun kv => S (json_size (snd kv))) fs)
            <= 1 + length (join [44%Z] (map member_text fs)))%nat by
      (change (map (fun kv => quote kv.1 ++ 58 :: JSON_stringify kv.2) fs)
         with (map member_text fs); lia).
    assert (Hm : forall kv, (length (JSON_stringify (snd kv)) <= length (member_text kv))%nat).
    { intros kv. unfold member_text. rewrite length_app. cbn [length]. lia. }
    remember member_text as text eqn:Htext. clear Htext.
    induction IHfs as [|kv fs Hx Hl IH]; [cbn; lia|].
    pose proof (Hm kv). destruct fs as [|kv' fs'].
    + cbn [map join list_sum foldr]. simpl. lia.
    + change (join [44] (map text (kv :: kv' :: fs')))
        with (text kv ++ [44] ++ join [44] (map text (kv' :: fs'))).
      pose proof (Hm kv').
      rewrite !length_app. simpl in IH |- *. lia.
Qed.

(** [JSON.parse(JSON.stringify(v))] is [v] for every canonical value. *)
Theorem JSON_roundtrip v : canonical v -> JSON_parse (JSON_stringify v) = Return v.
Proof.
  intros Hv. unfold JSON_parse.
  rewrite <- (app_nil_r (JSON_stringify v)) at 2.
  rewrite parse_value_text; [reflexivity|exact Hv| |exact I].
  pose proof (json_size_text v). lia.
Qed.

(** ** Token round trip (C1) *)

Section RoundTrip.
Context {crypto : SubtleCrypto}.
Import Jwt.

Lemma header_kid kid : get_field (Some (jwt_header kid)) "kid" = Return kid.
Proof. destruct kid; reflexivity. Qed.

Lemma less_than_not_expired exp now :
  not_expired_at exp now -> less_than exp now = Return false.
Proof.
  destruct exp as [[| | e | | |]|]; simpl; try tauto.
  intros He. f_equal. lia.
Qed.

(** What [signJWT] returns, and what [parseJWT] reads in it. *)
Lemma signJWT_parse fuel env payload w w' kid sk :
  loadSigningKey fuel env w = (Return (kid, sk), w') ->
  Forall is_ascii (JSON_stringify (jwt_header kid)) ->
  Forall is_ascii (JSON_stringify payload) ->
  JSON_parse (JSON_stringify (jwt_header kid)) = Return (jwt_header kid) ->
  JSON_parse (JSON_stringify payload) = Return payload ->
  (forall data, Forall is_byte (subtle_sign sk data)) ->
  exists signed sig_text,
    signJWT fuel env payload w = (Return (signed ++ 46 :: sig_text), w')
    /\ parseJWT (signed ++ 46 :: sig_text)
       = Return (mkParsed signed (jwt_header kid) payload sig_text)
    /\ base64url_parse sig_text
       = Return (subtle_sign sk (asciiToUint8Array signed)).
Proof.
  intros Hload Hah Hap Hjh Hjp Hsig.
  destruct (segment_roundtrip _ Hah) as (eh & bh & Heh & Hdh & Hph & Hrh).
  destruct (segment_roundtrip _ Hap) as (ep & bp & Hep & Hdp & Hpp & Hrp).
  destruct (base64url_roundtrip _ (Hsig (asciiToUint8Array (eh ++ 46 :: ep))))
    as (es & Hes & Hps & Hds).
  exists (eh ++ 46 :: ep), es. split; [|split].
  - unfold signJWT, bind, lift, ret. rewrite Hload. cbn [fst snd].
    rewrite Heh, Hep, Hes. reflexivity.
  - unfold parseJWT. rewrite <- app_assoc. cbn [app].
    rewrite split_on_three by assumption.
    rewrite Hph, Hpp. unfold bindO at 1. rewrite Hrh, Hjh.
    unfold bindO at 1 2. rewrite Hrp, Hjp. reflexivity.
  - exact Hps.
Qed.

Lemma header_ascii_json kid :
  (forall k, kid = Some k -> ascii_json k) -> ascii_json (jwt_header kid).
Proof.
  intros Hkid. destruct kid as [k|].
  - destruct (Hkid k eq_refl) as [Hcan Hascii]. split.
    + apply canonical_fields. split; [reflexivity|].
      each_field; try exact Hcan; apply ascii_is_code_unit, ascii_check; reflexivity.
    + change (JSON_stringify (jwt_header (Some k)))
        with ((123 :: quote (lit "alg") ++ 58 :: quote (lit "RS256") ++ 44
                   :: quote (lit "kid") ++ [58]) ++ JSON_stringify k ++ [125]).
      apply Forall_app. split; [apply ascii_check; reflexivity|].
      apply Forall_app. split; [exact Hascii|apply ascii_check; reflexivity].
  - split.
    + apply canonical_fields. split; [reflexivity|].
      each_field; apply ascii_is_code_unit, ascii_check; reflexivity.
    + apply ascii_check. reflexivity.
Qed.

(** Within ASCII the round trip holds: for a payload other than [null] that
    is canonical (it survives [JSON.parse] after [JSON.stringify]; integers
    are its only numbers) and whose serialization is ASCII, signed by
    [signJWT] with the key the store holds and verified by [verifyToken]
    against the verification key of the same pair at a time when the
    payload's [exp] (if any) is a number that has not passed, verification
    succeeds and returns the payload. *)
Theorem sign_then_verify_returns_payload
    fuel env payload w w' kid sk w2 w3 vk exp :
  loadSigningKey fuel env w = (Return (kid, sk), w') ->
  (forall k, kid = Some k -> ascii_json k) ->
  ascii_json payload ->
  (forall data, Forall is_byte (subtle_sign sk data)) ->
  fetchAccessPublicKey env kid w2 = (Return vk, w3) ->
  same_key_material sk vk ->
  get_field (Some payload) "exp" = Return exp ->
  not_expired_at exp (date_now w3 / 1000) ->
  exists token,
    signJWT fuel env payload w = (Return token, w')
    /\ verifyToken env token w2 = (Return payload, w3).
Proof.
  intros Hload Hkid [Hcp Hap] Hsig Hkey Hsame Hexp Hnot.
  destruct (header_ascii_json kid Hkid) as [Hch Hah].
  destruct (signJWT_parse fuel env payload w w' kid sk Hload Hah Hap
              (JSON_roundtrip _ Hch) (JSON_roundtrip _ Hcp) Hsig)
    as (signed & sig_text & Hsign & Hparse & Hsigp).
  exists (signed ++ 46 :: sig_text). split; [exact Hsign|].
  unfold verifyToken, bind, lift, ret, throw, now_seconds.
  rewrite Hparse. cbn [Jwt.header Jwt.payload Jwt.signature Jwt.to_be_validated].
  rewrite header_kid, Hkey, Hsigp, Hsame. cbn [negb].
  rewrite Hexp, (less_than_not_expired _ _ Hnot). reflexivity.
Qed.

End RoundTrip.

Lemma checksum_sign_bytes k data : Forall is_byte (checksum_sign k data).
Proof.
  unfold checksum_sign, is_byte.
  repeat apply Forall_cons_2; try apply Forall_nil_2; apply Z.mod_pos_bound; lia.
Qed.

Lemma checksum_same_key k : same_key_material (crypto := checksum_crypto) k k.
Proof. intros data. simpl. now apply bool_decide_eq_true. Qed.


(** The demo payload is canonical and its text is ASCII. *)
Lemma demo_payload_ascii_json : ascii_json demo_payload.
Proof.
  split.
  - apply canonical_fields. split; [reflexivity|].
    each_field; try (apply ascii_is_code_unit, ascii_check; reflexivity).
    unfold canonical, MAX_SAFE_INTEGER. lia.
  - apply ascii_check. vm_compute. reflexivity.
Qed.

(** The round trip at work: the demo payload, signed and verified at the
    second its [exp] names. *)
Lemma sign_then_verify_witness :
  exists token,
    Jwt.signJWT 1 demo_env demo_payload (demo_world 1700000000)
      = (Return token, demo_world 1700000000)
    /\ Jwt.verifyToken demo_env token (demo_world 1700000000)
       = (Return demo_payload, demo_world_fetched 1700000000).
Proof.
  apply (sign_then_verify_returns_payload (crypto := checksum_crypto) 1 demo_env
           demo_payload (demo_world 1700000000) (demo_world 1700000000)
           (Some (JStr (lit "k1"))) 7 (demo_world 1700000000)
           (demo_world_fetched 1700000000) 7 (Some (JNum 1700000000))).
  - vm_compute. reflexivity.
  - intros k Hk. injection Hk as <-. split.
    + apply ascii_is_code_unit, ascii_check. reflexivity.
    + apply ascii_check. reflexivity.
  - exact demo_payload_ascii_json.
  - apply checksum_sign_bytes.
  - vm_compute. reflexivity.
  - apply checksum_same_key.
  - reflexivity.
  - vm_compute. discriminate.
Defined.

(** C1: the round trip fails outside ASCII.  [signJWT] turns the text of
    the payload into bytes with [asciiToUint8Array], which keeps the low byte
    of each code unit, while [parseJWT] reads the bytes as UTF-8.  With the
    key pair of the store published to the verifier, the token signed for
    the string [U+0141] verifies and returns the string [A], and the token
    signed for the string [U+00E9] returns the string [U+FFFD]. *)
Lemma sign_then_verify_non_ascii :
  same_key_material (crypto := checksum_crypto) 7 7
  /\ Jwt.fetchAccessPublicKey demo_env (Some (JStr (lit "k1"))) (demo_world 1700000000)
     = (Return 7, demo_world_fetched 1700000000)
  /\ (exists token w,
         Jwt.signJWT 1 demo_env (JStr [321]) (demo_world 1700000000) = (Return token, w)
         /\ Jwt.verifyToken demo_env token (demo_world 1700000000)
            = (Return (JStr [65]), demo_world_fetched 1700000000)
         /\ JStr [65] <> JStr [321])
  /\ (exists token w,
         Jwt.signJWT 1 demo_env (JStr [233]) (demo_world 1700000000) = (Return token, w)
         /\ Jwt.verifyToken demo_env token (demo_world 1700000000)
            = (Return (JStr [65533]), demo_world_fetched 1700000000)
         /\ JStr [65533] <> JStr [233]).
Proof.
  split; [apply checksum_same_key|].
  split; [vm_compute; reflexivity|].
  split; eexists _, _; (split; [vm_compute; reflexivity|]);
    (split; [vm_compute; reflexivity|discriminate]).
Qed.

(** ** Order of the checks in [verifyToken] (C2, C10) *)

Section Verify.
Context {crypto : SubtleCrypto}.
Import Jwt.

(** C2, amended: for a well-formed token whose key resolves and whose payload
    carries a numeric [exp] below the current time, [verifyToken] fails with
    [expired token] when the signature verifies, and with
    [failed to verify token] when it does not: the signature is checked
    first. *)
Theorem expired_token_fails_after_signature_check env token w jwt kid key w1 sig e :
  parseJWT token = Return jwt ->
  get_field (Some (header jwt)) "kid" = Return kid ->
  fetchAccessPublicKey env kid w = (Return key, w1) ->
  base64url_parse (signature jwt) = Return sig ->
  get_field (Some (payload jwt)) "exp" = Return (Some (JNum e)) ->
  e < date_now w1 / 1000 ->
  verifyToken env token w
  = (Throw (if subtle_verify key sig (asciiToUint8Array (to_be_validated jwt))
            then Error "expired token" else Error "failed to verify token"), w1).
Proof.
  intros Hparse Hkid Hkey Hsig Hexp Hlt.
  unfold verifyToken, bind, lift, ret, throw, now_seconds.
  rewrite Hparse, Hkid, Hkey, Hsig.
  destruct (subtle_verify key sig _); cbn [negb]; [|reflexivity].
  rewrite Hexp. cbn [less_than].
  destruct (Z.ltb_spec e (date_now w1 / 1000)); [reflexivity|lia].
Qed.

(** C10, amended: a token that passes signature verification and whose
    payload has no [exp] member at all, or whose [exp] is the number equal
    to the current time, is accepted and its claims are returned. *)
Theorem token_without_exp_is_accepted env token w jwt kid key w1 sig exp :
  parseJWT token = Return jwt ->
  get_field (Some (header jwt)) "kid" = Return kid ->
  fetchAccessPublicKey env kid w = (Return key, w1) ->
  base64url_parse (signature jwt) = Return sig ->
  subtle_verify key sig (asciiToUint8Array (to_be_validated jwt)) = true ->
  get_field (Some (payload jwt)) "exp" = Return exp ->
  exp = None \/ exp = Some (JNum (date_now w1 / 1000)) ->
  verifyToken env token w = (Return (payload jwt), w1).
Proof.
  intros Hparse Hkid Hkey Hsig Hok Hexp Hcase.
  unfold verifyToken, bind, lift, ret, throw, now_seconds.
  rewrite Hparse, Hkid, Hkey, Hsig, Hok. cbn [negb]. rewrite Hexp.
  destruct Hcase as [->| ->]; cbn [less_than]; [reflexivity|].
  now rewrite Z.ltb_irrefl.
Qed.

End Verify.

(** C2 at work: the demo token, one second after its [exp]. *)
Lemma expired_token_witness :
  Jwt.verifyToken demo_env demo_token (demo_world 1700000001)
  = (Throw (Error "expired token"), demo_world_fetched 1700000001).
Proof.
  apply (expired_token_fails_after_signature_check (crypto := checksum_crypto)
           demo_env demo_token (demo_world 1700000001)
           (Jwt.mkParsed
              (lit "eyJhbGciOiJSUzI1NiIsImtpZCI6ImsxIn0.eyJlbWFpbCI6ImFAYi5jIiwiZXhwIjoxNzAwMDAwMDAwfQ")
              demo_header demo_payload (lit "1Bw"))
           (Some (JStr (lit "k1"))) 7 (demo_world_fetched 1700000001) [212; 28]
           1700000000).
  - vm_compute. reflexivity.
  - reflexivity.
  - vm_compute. reflexivity.
  - vm_compute. reflexivity.
  - reflexivity.
  - vm_compute. reflexivity.
Defined.

(** An expired token whose signature does not verify fails with
    [failed to verify token], not with [expired token]. *)
Lemma forged_expired_token_is_not_reported_expired :
  exists jwt,
    Jwt.parseJWT forged_old_token = Return jwt
    /\ get_field (Some (Jwt.payload jwt)) "exp" = Return (Some (JNum 1600000000))
    /\ 1600000000 < date_now (demo_world 1700000000) / 1000
    /\ Jwt.verifyToken demo_env forged_old_token (demo_world 1700000000)
       = (Throw (Error "failed to verify token"), demo_world_fetched 1700000000)
    /\ Error "failed to verify token" <> Error "expired token".
Proof.
  eexists. split; [vm_compute; reflexivity|].
  split; [reflexivity|]. split; [vm_compute; reflexivity|].
  split; [vm_compute; reflexivity|]. vm_compute. discriminate.
Qed.

(** C10 at work: a verified token whose payload has no [exp]. *)
Lemma token_without_exp_witness :
  Jwt.verifyToken demo_env no_exp_token (demo_world 1700000000)
  = (Return (JObj [(lit "email", JStr (lit "a@b.c"))]), demo_world_fetched 1700000000).
Proof.
  apply (token_without_exp_is_accepted (crypto := checksum_crypto)
           demo_env no_exp_token (demo_world 1700000000)
           (Jwt.mkParsed
              (lit "eyJhbGciOiJSUzI1NiIsImtpZCI6ImsxIn0.eyJlbWFpbCI6ImFAYi5jIn0")
              demo_header (JObj [(lit "email", JStr (lit "a@b.c"))]) (lit "NRQ"))
           (Some (JStr (lit "k1"))) 7 (demo_world_fetched 1700000000) [53; 20] None).
  - vm_compute. reflexivity.
  - reflexivity.
  - vm_compute. reflexivity.
  - vm_compute. reflexivity.
  - vm_compute. reflexivity.
  - reflexivity.
  - left. reflexivity.
Defined.

(** A verified token whose payload is [{"exp":null}] has no numeric [exp],
    yet it is rejected as expired: [null < now] compares 0 with [now]. *)
Lemma null_exp_token_is_rejected :
  exists jwt,
    Jwt.parseJWT null_exp_token = Return jwt
    /\ Jwt.payload jwt = JObj [(lit "exp", JNull)]
    /\ subtle_verify (SubtleCrypto := checksum_crypto) 7 [240; 17]
         (Jwt.asciiToUint8Array (Jwt.to_be_validated jwt)) = true
    /\ Jwt.base64url_parse (Jwt.signature jwt) = Return [240; 17]
    /\ Jwt.verifyToken demo_env null_exp_token (demo_world 1700000000)
       = (Throw (Error "expired token"), demo_world_fetched 1700000000).
Proof.
  eexists. split; [vm_compute; reflexivity|].
  split; [reflexivity|]. split; [vm_compute; reflexivity|].
  split; vm_compute; reflexivity.
Qed.

(** ** Key generation (C3, C9) *)

Section Keys.
Context {crypto : SubtleCrypto}.
Import Jwt.

Lemma generateKeys_ok env w pub priv rest :
  keygen w = Some (pub, priv) :: rest ->
  generateKeys env w
  = (Return (mkGenerated pub priv (generateKID (JSON_stringify pub))),
     set_kv (insert (getSigningKey env)
               (JSON_stringify
                  (keyset_record pub priv (generateKID (JSON_stringify pub)))))
            (set_keygen rest w)).
Proof.
  intros Hgen. unfold generateKeys, try_catch, bind, generateKey_export, kv_put, ret.
  rewrite Hgen. reflexivity.
Qed.

Lemma lower_hex_value_digit d : 0 <= d < 16 -> lower_hex_value (hex_digit d) = Some d.
Proof.
  unfold lower_hex_value, hex_digit. intros Hd.
  z_cases; cbn [andb]; try lia; f_equal; lia.
Qed.

(** Reading the text that [generateKID] builds from a digest gives the
    digest back. *)
Lemma hex_decode_hex2 l : Forall is_byte l -> hex_decode (concat (hex2 <$> l)) = Some l.
Proof.
  induction 1 as [|b l Hb Hl IH]; [reflexivity|].
  cbn [fmap list_fmap concat hex2 app hex_decode]. unfold is_byte in Hb.
  rewrite !lower_hex_value_digit by zlia.
  change (list_fmap _ _ hex2 l) with (hex2 <$> l). rewrite IH. do 2 f_equal. zlia.
Qed.

(** C3: when [generateKeys] generates a pair, the record it stores carries
    as [kid] the first 64 characters of the hexadecimal text of the SHA-1
    digest of the JSON serialization of the exported public key: the text
    that reads back, two lower-case digits a byte, as the bytes of the
    digest.  A digest of twenty bytes, as SHA-1 gives, is kept whole. *)
Theorem stored_kid_is_sha1_of_public_key env w pub priv rest :
  keygen w = Some (pub, priv) :: rest ->
  Forall is_byte (digest_SHA1 (TextEncoder_encode (JSON_stringify pub))) ->
  exists hex kid w',
    hex_decode hex = Some (digest_SHA1 (TextEncoder_encode (JSON_stringify pub)))
    /\ kid = take 64 hex
    /\ (length (digest_SHA1 (TextEncoder_encode (JSON_stringify pub))) = 20%nat ->
        kid = hex /\ length kid = 40%nat)
    /\ generateKeys env w = (Return (mkGenerated pub priv kid), w')
    /\ kv w' !! getSigningKey env
       = Some (JSON_stringify
                 (JObj [(lit "public", pub); (lit "private", priv);
                        (lit "kid", JStr kid)])).
Proof.
  intros Hgen Hbytes.
  exists (concat (hex2 <$> digest_SHA1 (TextEncoder_encode (JSON_stringify pub)))).
  eexists _, _. split; [now apply hex_decode_hex2|]. split; [reflexivity|]. split; [|split].
  - intros Hlen.
    assert (Hhex : forall l : bytes, length (concat (hex2 <$> l)) = (2 * length l)%nat).
    { induction l as [|b l IH]; [reflexivity|].
      cbn [fmap list_fmap concat]. rewrite length_app. cbn [hex2 length].
      change (list_fmap _ _ hex2 l) with (hex2 <$> l). rewrite IH. lia. }
    rewrite take_ge by (rewrite Hhex, Hlen; lia).
    split; [reflexivity|]. rewrite Hhex, Hlen. reflexivity.
  - apply generateKeys_ok, Hgen.
  - cbn [kv set_kv]. apply lookup_insert_eq.
Qed.

(** A SHA-1 digest has twenty bytes, that is forty hexadecimal characters:
    the cut at 64 keeps all of them. *)
Lemma kid_is_the_whole_digest text :
  length (digest_SHA1 (TextEncoder_encode text)) = 20%nat ->
  generateKID text = concat (hex2 <$> digest_SHA1 (TextEncoder_encode text))
  /\ length (generateKID text) = 40%nat.
Proof.
  intros Hlen. unfold generateKID, substring0.
  assert (Hhex : forall l : bytes, length (concat (hex2 <$> l)) = (2 * length l)%nat).
  { induction l as [|b l IH]; [reflexivity|].
    cbn [fmap list_fmap concat]. rewrite length_app. cbn [hex2 length].
    change (list_fmap _ _ hex2 l) with (hex2 <$> l). rewrite IH. lia. }
  rewrite take_ge by (rewrite Hhex, Hlen; lia).
  split; [reflexivity|]. rewrite Hhex, Hlen. reflexivity.
Qed.

Lemma kv_get_json_absent key w : kv w !! key = None -> kv_get_json key w = (Return JNull, w).
Proof. intros Hk. unfold kv_get_json. now rewrite Hk. Qed.

Lemma hex2_code_units b : is_byte b -> Forall is_code_unit (hex2 b).
Proof.
  unfold is_byte, hex2, hex_digit, is_code_unit. intros Hb.
  repeat constructor; z_cases; zlia.
Qed.

Lemma generateKID_code_units text :
  Forall is_byte (digest_SHA1 (TextEncoder_encode text)) ->
  Forall is_code_unit (generateKID text).
Proof.
  intros Hd. unfold generateKID, substring0. apply Forall_take.
  induction Hd as [|b l Hb Hl IH]; [constructor|].
  cbn [fmap list_fmap concat]. apply Forall_app. split; [now apply hex2_code_units|exact IH].
Qed.

(** The stored record is read back as it was written. *)
Lemma keyset_record_roundtrip pub priv kid :
  canonical pub -> canonical priv -> Forall is_code_unit kid ->
  JSON_parse (JSON_stringify (keyset_record pub priv kid))
  = Return (keyset_record pub priv kid).
Proof.
  intros Hpub Hpriv Hkid. apply JSON_roundtrip, canonical_fields.
  split; [reflexivity|].
  each_field; try assumption; apply ascii_is_code_unit, ascii_check; reflexivity.
Qed.

(** C9: with no key-set record in the store, [loadSigningKey] generates and
    stores a pair through [loadPublicKey], calls itself once, and that second
    call returns the handle: a budget of one call is exhausted, a budget of
    two or more calls returns, so the retry happens exactly once.  (The
    exported keys are canonical JSON, the digest is a byte string, and the
    private key can be imported.) *)
Theorem signing_key_is_loaded_after_one_retry env w pub priv rest sk :
  kv w !! getSigningKey env = None ->
  keygen w = Some (pub, priv) :: rest ->
  canonical pub -> canonical priv ->
  (forall data, Forall is_byte (digest_SHA1 data)) ->
  importKey (Some priv) UsageSign = Some sk ->
  fst (loadSigningKey 1 env w) = OutOfFuel
  /\ forall n,
       loadSigningKey (2 + n) env w
       = (Return (Some (JStr (generateKID (JSON_stringify pub))), sk),
          set_kv (insert (getSigningKey env)
                    (JSON_stringify
                       (keyset_record pub priv (generateKID (JSON_stringify pub)))))
                 (set_keygen rest w)).
Proof.
  intros Habs Hgen Hcpub Hcpriv Hdigest Himp.
  pose proof (keyset_record_roundtrip pub priv (generateKID (JSON_stringify pub))
                Hcpub Hcpriv (generateKID_code_units _ (Hdigest _))) as Hjson.
  assert (Hpub : forall k : World -> Outcome (option JSON * CryptoKey) * World,
             bind (loadPublicKey env) (fun _ => k) w
             = k (set_kv (insert (getSigningKey env)
                            (JSON_stringify
                               (keyset_record pub priv (generateKID (JSON_stringify pub)))))
                         (set_keygen rest w))).
  { intros k. unfold loadPublicKey, bind at 1 2.
    rewrite (kv_get_json_absent _ _ Habs). cbn [truthy].
    unfold bind. rewrite (generateKeys_ok env w pub priv rest Hgen). reflexivity. }
  split.
  - cbn [loadSigningKey]. unfold bind at 1.
    rewrite (kv_get_json_absent _ _ Habs). cbn [truthy]. rewrite Hpub. reflexivity.
  - intros n. change (2 + n)%nat with (S (S n)). cbn [loadSigningKey]. unfold bind at 1.
    rewrite (kv_get_json_absent _ _ Habs). cbn [truthy]. rewrite Hpub.
    unfold bind at 1. unfold kv_get_json at 1. cbn [kv set_kv].
    rewrite lookup_insert_eq, Hjson.
    change (truthy (Some (keyset_record _ _ _))) with true. cbv iota.
    unfold bind, lift, ret.
    change (get_field (Some (keyset_record pub priv (generateKID (JSON_stringify pub))))
              "private") with (Return (A := option JSON) (Some priv)).
    cbv iota beta. rewrite Himp.
    reflexivity.
Qed.

End Keys.

Lemma demo_jwk_canonical : canonical demo_jwk.
Proof.
  apply canonical_fields. split; [reflexivity|].
  each_field; try (apply ascii_is_code_unit, ascii_check; reflexivity).
  unfold canonical, MAX_SAFE_INTEGER. lia.
Qed.

Lemma checksum_digest_bytes data :
  Forall is_byte (digest_SHA1 (SubtleCrypto := checksum_crypto) data).
Proof.
  cbn [digest_SHA1 checksum_crypto]. apply Forall_replicate.
  unfold is_byte. apply Z.mod_pos_bound. lia.
Qed.

(** C3 at work: generating the demo pair in an empty store. *)
Lemma stored_kid_witness :
  exists hex kid w',
    hex_decode hex
    = Some (digest_SHA1 (SubtleCrypto := checksum_crypto)
              (TextEncoder_encode (JSON_stringify demo_jwk)))
    /\ kid = take 64 hex
    /\ (length (digest_SHA1 (SubtleCrypto := checksum_crypto)
                  (TextEncoder_encode (JSON_stringify demo_jwk))) = 20%nat ->
        kid = hex /\ length kid = 40%nat)
    /\ Jwt.generateKeys (crypto := checksum_crypto) demo_env
         (mkWorld ∅ 0 [] [] [Some (demo_jwk, demo_jwk)])
       = (Return (Jwt.mkGenerated demo_jwk demo_jwk kid), w')
    /\ kv w' !! Jwt.getSigningKey demo_env
       = Some (JSON_stringify
                 (JObj [(lit "public", demo_jwk); (lit "private", demo_jwk);
                        (lit "kid", JStr kid)])).
Proof.
  apply (stored_kid_is_sha1_of_public_key (crypto := checksum_crypto) demo_env
           (mkWorld ∅ 0 [] [] [Some (demo_jwk, demo_jwk)]) demo_jwk demo_jwk []).
  - reflexivity.
  - apply checksum_digest_bytes.
Defined.

(** C9 at work: the signing handle from an empty store. *)
Lemma signing_key_retry_witness :
  fst (Jwt.loadSigningKey 1 demo_env (mkWorld ∅ 0 [] [] [Some (demo_jwk, demo_jwk)]))
  = OutOfFuel
  /\ forall n,
       Jwt.loadSigningKey (2 + n) demo_env (mkWorld ∅ 0 [] [] [Some (demo_jwk, demo_jwk)])
       = (Return (Some (JStr (Jwt.generateKID (JSON_stringify demo_jwk))), 7),
          set_kv (insert (Jwt.getSigningKey demo_env)
                    (JSON_stringify
                       (Jwt.keyset_record demo_jwk demo_jwk
                          (Jwt.generateKID (JSON_stringify demo_jwk)))))
                 (set_keygen [] (mkWorld ∅ 0 [] [] [Some (demo_jwk, demo_jwk)]))).
Proof.
  apply (signing_key_is_loaded_after_one_retry (crypto := checksum_crypto) demo_env
           (mkWorld ∅ 0 [] [] [Some (demo_jwk, demo_jwk)]) demo_jwk demo_jwk [] 7).
  - reflexivity.
  - reflexivity.
  - exact demo_jwk_canonical.
  - exact demo_jwk_canonical.
  - exact checksum_digest_bytes.
  - reflexivity.
Defined.

(** ** Refreshing the routing table (C7) *)

Section Routing.
Context {crypto : SubtleCrypto} {yaml : YamlParser}.
Import Index.

(** C7: when the configuration source answers with a status other than 200,
    [refreshConfig] throws the [HTTPException] (status 500, message
    [failed to get config from github]) and the store is left as it was. *)
Theorem failed_refresh_keeps_the_store env w st body rest :
  take_reply hosts_url (interceptors w) = Some (Reply st body, rest) ->
  st <> 200 ->
  exists w',
    refreshConfig env w
    = (Throw (HTTPException 500 (lit "failed to get config from github")), w')
    /\ kv w' = kv w.
Proof.
  intros Hnet Hst. eexists. unfold refreshConfig, bind, fetch_get, fetch.
  cbn [out_url]. rewrite Hnet. cbn [res_status].
  destruct (Z.eqb_spec st 200); [contradiction|]. cbn [negb].
  split; reflexivity.
Qed.

Lemma refreshConfig_ok env w body rest table :
  take_reply hosts_url (interceptors w) = Some (Reply 200 body, rest) ->
  yaml_parse body = Return table ->
  refreshConfig env w
  = (Return table,
     set_kv (insert (getConfigKey env) (JSON_stringify table))
            (set_interceptors rest
               (set_fetched (fetched w ++ [mkOutbound hosts_url (lit "GET") [] None]) w))).
Proof.
  intros Hnet Hyaml. unfold refreshConfig, bind, fetch_get, fetch.
  cbn [out_url]. rewrite Hnet. cbn [res_status res_body negb Z.eqb Pos.eqb].
  unfold lift. rewrite Hyaml. reflexivity.
Qed.

Lemma register_workloads_routes table names rs :
  register_workloads table names = Return rs -> Forall (route_of_names names) rs.
Proof.
  revert rs. induction names as [|name rest IH]; intros rs Hreg.
  - injection Hreg as <-. constructor.
  - cbn [register_workloads] in Hreg.
    destruct (get_member (Some table) name) as [m| | |]; try discriminate Hreg.
    cbn [bindO] in Hreg.
    destruct (member_field m "provider") as [p| | |]; try discriminate Hreg.
    cbn [bindO] in Hreg.
    destruct (ToString p) as [key| | |]; try discriminate Hreg.
    cbn [bindO] in Hreg.
    destruct (register_workloads table rest) as [more| | |] eqn:Hmore.
    2-4: destruct (Providers key); [destruct (plain_name name)|]; discriminate Hreg.
    assert (Hrest : Forall (route_of_names (name :: rest)) more).
    { eapply Forall_impl; [apply IH; reflexivity|].
      intros r (n & Hn & Hr). exists n. split; [now apply list_elem_of_further|exact Hr]. }
    destruct (Providers key) as [prov|]; [destruct (plain_name name)|];
      cbn [bindO] in Hreg; try discriminate Hreg; injection Hreg as <-.
    + repeat (apply Forall_cons_2;
              [exists name; split; [apply list_elem_of_here|cbn [r_pattern]; tauto]|]).
      exact Hrest.
    + exact Hrest.
Qed.

Lemma config_path_not_under name :
  starts_with ((47 :: name) ++ [47]) (lit "/config") = false.
Proof.
  unfold starts_with. apply bool_decide_eq_false. intros Heq.
  change (lit "/config") with (47 :: lit "config") in Heq.
  cbn [app length take] in Heq. injection Heq as Heq.
  assert (Hin : 47 ∈ take (length (name ++ [47])) (lit "config")).
  { rewrite Heq. apply elem_of_app. right. apply list_elem_of_here. }
  apply subseteq_take in Hin.
  change (lit "config") with [99; 111; 110; 102; 105; 103] in Hin.
  rewrite !elem_of_cons, elem_of_nil in Hin. lia.
Qed.

Lemma config_path_unmatched names r :
  lit "config" ∉ names -> route_of_names names r ->
  pattern_matches (r_pattern r) (lit "/config") = false.
Proof.
  intros Hnot (name & Hin & [-> | ->]); cbn [pattern_matches].
  - unfold str_eqb. apply bool_decide_eq_false. intros Heq.
    change (lit "/config") with (47 :: lit "config") in Heq.
    injection Heq as <-. contradiction.
  - rewrite config_path_not_under, orb_false_r.
    unfold str_eqb. apply bool_decide_eq_false. intros Heq.
    change (lit "/config") with (47 :: lit "config") in Heq.
    injection Heq as <-. contradiction.
Qed.

Lemma find_skips {A} (f : A -> bool) (l1 l2 : list A) :
  Forall (fun x => f x = false) l1 -> List.find f (l1 ++ l2) = List.find f l2.
Proof.
  induction 1 as [|x l Hx Hl IH]; [reflexivity|]. cbn [app List.find]. now rewrite Hx.
Qed.

End Routing.

(** C7 at work: the source answers 429. *)
Lemma failed_refresh_witness :
  exists w',
    Index.refreshConfig (yaml := json_yaml) demo_env
      (routing_world old_table [(Index.hosts_url, Reply 429 [])])
    = (Throw (HTTPException 500 (lit "failed to get config from github")), w')
    /\ kv w' = kv (routing_world old_table [(Index.hosts_url, Reply 429 [])]).
Proof.
  apply (failed_refresh_keeps_the_store (yaml := json_yaml)
           demo_env (routing_world old_table [(Index.hosts_url, Reply 429 [])]) 429 [] []).
  - reflexivity.
  - lia.
Defined.

(** When the persisted record defines a workload named [config], its routes
    are registered before the [/config] route: the request is forwarded to
    that workload's host, the source is not consulted and the record stays. *)
Lemma config_route_can_be_shadowed :
  exists w',
    Index.handleRequest (crypto := checksum_crypto) (yaml := json_yaml)
      (GET "/config" "") demo_env
      (routing_world shadowing_table
         [(Index.hosts_url, Reply 200 (JSON_stringify demo_table));
          (lit "https://foo.com?", Reply 200 (lit "backend"))])
    = (Return (mkResponse 200 (lit "backend")), w')
    /\ kv w' !! Index.getConfigKey demo_env = Some (JSON_stringify shadowing_table)
    /\ yaml_parse (YamlParser := json_yaml) (JSON_stringify demo_table) = Return demo_table
    /\ lit "backend" <> JSON_stringify demo_table
    /\ JSON_stringify shadowing_table <> JSON_stringify demo_table.
Proof.
  eexists. split; [vm_compute; reflexivity|].
  split; [vm_compute; reflexivity|].
  split; [vm_compute; reflexivity|].
  split; vm_compute; discriminate.
Qed.

(** *** The scenarios of the repository's test suite *)

(** [nonexistent config is loaded and then reloaded]: with an empty store the
    table is fetched once before routing and once more by the [/config]
    route. *)
Example config_is_loaded_then_reloaded :
  let w := mkWorld ∅ 0 [(Index.hosts_url, Reply 200 (JSON_stringify demo_table));
                        (Index.hosts_url, Reply 200 (JSON_stringify demo_table))] [] [] in
  let r := Index.handleRequest (crypto := checksum_crypto) (yaml := json_yaml)
             (GET "/config" "") demo_env w in
  fst r = Return (mkResponse 200 (JSON_stringify demo_table))
  /\ kv (snd r) !! Index.getConfigKey demo_env = Some (JSON_stringify demo_table)
  /\ length (fetched (snd r)) = 2%nat /\ interceptors (snd r) = [].
Proof. vm_compute. repeat split; reflexivity. Qed.

(** [failed to load config from github]: the answer is the 500 of the
    [HTTPException] and the old record stays. *)
Example config_endpoint_reports_failure :
  let w := routing_world old_table [(Index.hosts_url, Reply 429 [])] in
  let r := Index.handleRequest (crypto := checksum_crypto) (yaml := json_yaml)
             (GET "/config" "") demo_env w in
  fst r = Return (mkResponse 500 (lit "failed to get config from github"))
  /\ kv (snd r) !! Index.getConfigKey demo_env = Some (JSON_stringify old_table).
Proof. vm_compute. split; reflexivity. Qed.

(** After a refresh the store reads back the table that was fetched. *)
Lemma refreshed_record_reads_back `{yaml : YamlParser} env w body rest table :
  take_reply Index.hosts_url (interceptors w) = Some (Reply 200 body, rest) ->
  yaml_parse body = Return table ->
  canonical table ->
  exists w', Index.refreshConfig env w = (Return table, w')
             /\ kv_get_json (Index.getConfigKey env) w' = (Return table, w').
Proof.
  intros Hnet Hyaml Hcan. eexists. split.
  - apply (refreshConfig_ok env w body rest table Hnet Hyaml).
  - unfold kv_get_json. cbn [kv set_kv]. rewrite lookup_insert_eq.
    now rewrite JSON_roundtrip.
Qed.

(** ** The proxy dispatcher (C4) *)

Section Dispatch.
Import Index.

(** Whatever error the network raises for the outbound call, the caller
    sees the same response. *)
Lemma network_failure_is_fixed_500 c config name rest wl host w e pending :
  path_parts (req_path c) = name :: rest ->
  get_member config name = Return (Own wl) ->
  truthy (Some wl) = true ->
  get_field (Some wl) "host" = Return (Some (JStr host)) ->
  take_reply (target_url host (name :: rest) (searchParams_toString c)) (interceptors w)
  = Some (NetworkError e, pending) ->
  fst (forwardRequest c config w)
  = Return (mkResponse 500 (lit "Error forwarding request to remote host")).
Proof.
  intros Hparts Hmem Htruthy Hhost Hnet.
  unfold forwardRequest, try_catch, forward_try. rewrite Hparts.
  unfold bind at 1, lift at 1. rewrite Hmem. cbn [member_truthy]. rewrite Htruthy.
  cbn [negb]. unfold bind at 1, lift at 1. cbn [member_field]. rewrite Hhost.
  unfold bind at 1, lift at 1. cbn [ToString json_toString].
  unfold fetch. cbn [out_url]. rewrite Hnet. reflexivity.
Qed.

(** [forwardRequest] never throws. *)
Lemma forwardRequest_does_not_throw c config w e w1 :
  forwardRequest c config w <> (Throw e, w1).
Proof.
  unfold forwardRequest, try_catch, ret.
  destruct (forward_try c config w) as [[r|e'| |] w']; discriminate.
Qed.

(** The call that [forward_try] hands to [fetch] is recorded whatever the
    network answers. *)
Lemma fetch_records req w : fetched (snd (fetch req w)) = fetched w ++ [req].
Proof.
  unfold fetch. destruct (take_reply _ _) as [[[st body|e] rest]|]; reflexivity.
Qed.

Lemma try_catch_ret_fetched {A} (m : M A) (a : A) w :
  fetched (snd (try_catch m (fun _ => ret a) w)) = fetched (snd (m w)).
Proof. unfold try_catch. destruct (m w) as [[x|e| |] w1]; reflexivity. Qed.

Lemma path_parts_nonempty path : Forall (fun p => p <> []) (path_parts path).
Proof.
  unfold path_parts. apply Forall_forall. intros p Hp.
  now apply list_elem_of_filter in Hp as [Hne _].
Qed.

Lemma join_nonempty sep p r : p <> [] -> join sep (p :: r) <> [].
Proof. destruct p; [congruence|]. destruct r; discriminate. Qed.

(** C4, amended: for a request whose first path segment is a workload with
    host [host] and whose query holds at least one parameter, the URL handed
    to [fetch] is [https://], the host, [/] and the remaining non-empty
    segments joined by [/] when there are any, then [?] and the query as
    [URLSearchParams] serializes it again (every pair, repeated keys
    included, in order). *)
Theorem forward_target_url c config name rest wl host w :
  path_parts (req_path c) = name :: rest ->
  get_member config name = Return (Own wl) ->
  truthy (Some wl) = true ->
  get_field (Some wl) "host" = Return (Some (JStr host)) ->
  urlencoded_parse (req_query c) <> [] ->
  exists method body,
    fetched (snd (forwardRequest c config w))
    = fetched w
      ++ [mkOutbound
            (lit "https://" ++ host
               ++ (if rest is [] then [] else 47 :: join [47] rest)
               ++ 63 :: urlencoded_serialize (urlencoded_parse (req_query c)))
            method [(lit "host", Some (JStr host))] body].
Proof.
  intros Hparts Hmem Htruthy Hhost _. eexists _, _.
  unfold forwardRequest. rewrite try_catch_ret_fetched.
  unfold forward_try. rewrite Hparts. unfold bind at 1, lift at 1. rewrite Hmem.
  cbn [member_truthy]. rewrite Htruthy. cbn [negb].
  unfold bind at 1, lift at 1. cbn [member_field]. rewrite Hhost.
  unfold bind at 1, lift at 1. cbn [ToString json_toString].
  rewrite fetch_records. unfold target_url, searchParams_toString. cbn [drop].
  rewrite drop_0, <- !app_assoc. do 3 f_equal.
  destruct rest as [|p r]; [reflexivity|].
  pose proof (path_parts_nonempty (req_path c)) as Hne. rewrite Hparts in Hne.
  apply Forall_cons_1 in Hne as [_ Hne]. apply Forall_cons_1 in Hne as [Hp _].
  destruct (join [47] (p :: r)) eqn:Hj; [|reflexivity].
  now apply join_nonempty in Hj.
Qed.

End Dispatch.

(** C4 at work: a path and a query with a repeated key. *)
Lemma forward_target_url_witness :
  exists method body,
    fetched (snd (Index.forwardRequest
                    (GET "/workload1/path" "param=value&param2=test1&param2=test2")
                    (Some demo_table) (routing_world demo_table [])))
    = fetched (routing_world demo_table [])
      ++ [mkOutbound
            (lit "https://" ++ lit "foo.com"
               ++ 47 :: join [47] [lit "path"]
               ++ 63 :: Index.urlencoded_serialize
                          [(lit "param", lit "value"); (lit "param2", lit "test1");
                           (lit "param2", lit "test2")])
            method [(lit "host", Some (JStr (lit "foo.com")))] body].
Proof.
  apply (forward_target_url
           (GET "/workload1/path" "param=value&param2=test1&param2=test2")
           (Some demo_table) (lit "workload1") [lit "path"]
           (workload "example" "foo.com") (lit "foo.com") (routing_world demo_table [])).
  - vm_compute. reflexivity.
  - vm_compute. reflexivity.
  - reflexivity.
  - reflexivity.
  - vm_compute. discriminate.
Defined.

(** The query is parsed and serialized again, not copied: [q=a%20b] is
    forwarded as [q=a+b]. *)
Lemma forwarded_query_is_reencoded :
  out_url <$> fetched (snd (Index.forwardRequest (GET "/workload1/path" "q=a%20b")
                              (Some demo_table) (routing_world demo_table [])))
  = [lit "https://foo.com/path?q=a+b"]
  /\ lit "https://foo.com/path?q=a+b" <> lit "https://foo.com/path?q=a%20b".
Proof. split; [vm_compute; reflexivity|vm_compute; discriminate]. Qed.

(** Without remaining segments and without query the URL still ends in the
    [?] that precedes the (empty) query. *)
Lemma bare_host_keeps_question_mark :
  out_url <$> fetched (snd (Index.forwardRequest (GET "/workload1/" "")
                              (Some demo_table) (routing_world demo_table [])))
  = [lit "https://foo.com?"].
Proof. vm_compute. reflexivity. Qed.

(** Through [handleRequest] a GET whose first segment names no workload is
    answered by the identity catch-all: without a token that is a 500, not a
    404. *)
Lemma unmatched_get_is_not_a_404 :
  exists body w',
    Index.path_parts (Index.req_path (GET "/doesnotexist" "")) = [lit "doesnotexist"]
    /\ get_member (Some demo_table) (lit "doesnotexist") = Return Absent
    /\ Index.handleRequest (crypto := checksum_crypto) (yaml := json_yaml)
         (GET "/doesnotexist" "") demo_env (routing_world demo_table [])
       = (Return (mkResponse 500 body), w')
    /\ 500 <> 404.
Proof.
  eexists _, _. split; [vm_compute; reflexivity|].
  split; [vm_compute; reflexivity|]. split; [vm_compute; reflexivity|lia].
Qed.


(** [should handle POST requests with body data]: the method and the body
    are passed on. *)
Example post_body_is_forwarded :
  fetched (snd (Index.forwardRequest
                  (Index.mkRequest (lit "POST") (lit "/workload1/path") [] None [123; 125])
                  (Some demo_table) (routing_world demo_table [])))
  = [mkOutbound (lit "https://foo.com/path?") (lit "POST")
       [(lit "host", Some (JStr (lit "foo.com")))] (Some [123; 125])].
Proof. vm_compute. reflexivity. Qed.

(** [should handle DELETE requests]: no body is passed on. *)
Example delete_has_no_body :
  fetched (snd (Index.forwardRequest
                  (Index.mkRequest (lit "DELETE") (lit "/workload1/path") [] None [1; 2])
                  (Some demo_table) (routing_world demo_table [])))
  = [mkOutbound (lit "https://foo.com/path?") (lit "DELETE")
       [(lit "host", Some (JStr (lit "foo.com")))] None].
Proof. vm_compute. reflexivity. Qed.

(** ** The identity catch-all *)

Section CatchAll.
Context {crypto : SubtleCrypto} {yaml : YamlParser}.
Import Index.

Lemma bind_ret {A} (m : M A) w : bind m ret w = m w.
Proof. unfold bind, ret. destruct (m w) as [[a|e| |] w1]; reflexivity. Qed.

Lemma workload_routes_unmatched names path r :
  Forall (fun name => pattern_matches (PUnder (47 :: name)) path = false) names ->
  route_of_names names r ->
  pattern_matches (r_pattern r) path = false.
Proof.
  intros Hall (name & Hin & Hr). rewrite Forall_forall in Hall.
  specialize (Hall name Hin). cbn [pattern_matches] in Hall.
  apply orb_false_iff in Hall as [Hexact Hunder].
  destruct Hr as [-> | ->]; cbn [pattern_matches]; [exact Hexact|].
  now rewrite Hexact, Hunder.
Qed.

(** A GET that no workload route matches and that is not for [/config] is
    answered by [getUserAndHistory], its errors by [onError]. *)
Lemma unmatched_get_reaches_identity env w request old_text old routes :
  req_method request = lit "GET" ->
  kv w !! getConfigKey env = Some old_text ->
  JSON_parse old_text = Return old ->
  truthy (Some old) = true ->
  register_workloads old (for_in_keys old) = Return routes ->
  Forall (fun name => pattern_matches (PUnder (47 :: name)) (req_path request) = false)
         (for_in_keys old) ->
  req_path request <> lit "/config" ->
  handleRequest request env w = try_catch (getUserAndHistory env request) onError w.
Proof.
  intros Hm Hold Hjson Htruthy Hreg Hnone Hpath.
  unfold handleRequest, bind at 1. unfold kv_get_json. rewrite Hold, Hjson, Htruthy.
  cbn [negb]. unfold bind at 1, ret at 1. unfold bind at 1, lift, app_routes.
  rewrite Hreg. cbn [bindO]. unfold app_fetch. rewrite Hm.
  change (str_eqb (lit "GET") (lit "HEAD")) with false. cbv iota.
  rewrite find_skips.
  2:{ eapply Forall_impl; [apply (register_workloads_routes _ _ _ Hreg)|].
      intros r Hr. cbv beta. rewrite (workload_routes_unmatched _ _ _ Hnone Hr).
      apply andb_false_r. }
  cbn [List.find r_method r_pattern pattern_matches].
  change (str_eqb (lit "GET") (lit "GET")) with true. cbn [andb].
  unfold str_eqb at 1. rewrite bool_decide_eq_false_2 by assumption.
  cbn [r_handler run_handler]. apply bind_ret.
Qed.


(** A path whose first segment is not [name] lies under no route of the
    workload [name]. *)
Lemma other_segment_not_under name path seg rest :
  name <> [] -> 47 ∉ name ->
  path_parts path = seg :: rest -> seg <> name ->
  pattern_matches (PUnder (47 :: name)) path = false.
Proof.
  intros Hne Hslash Hparts Hseg. cbn [pattern_matches]. apply orb_false_iff. split.
  - unfold str_eqb. apply bool_decide_eq_false. intros ->.
    unfold path_parts in Hparts. cbn [split_on] in Hparts.
    change (47 =? 47) with true in Hparts. cbv iota in Hparts.
    rewrite split_on_no_sep in Hparts by assumption.
    rewrite filter_cons_False, filter_cons_True in Hparts by (auto; congruence).
    injection Hparts as <- _. congruence.
  - unfold starts_with. apply bool_decide_eq_false. intros Htake.
    rewrite <- (take_drop (length ((47 :: name) ++ [47])) path) in Hparts.
    rewrite Htake in Hparts. unfold path_parts in Hparts.
    rewrite <- app_assoc in Hparts. cbn [app split_on] in Hparts.
    change (47 =? 47) with true in Hparts. cbv iota in Hparts.
    rewrite split_on_app in Hparts by assumption.
    rewrite filter_cons_False, filter_cons_True in Hparts by (auto; congruence).
    injection Hparts as <- _. congruence.
Qed.

End CatchAll.

(** * Further properties of the code *)

(** ** The base64url codec *)

Section CodecProperties.
Import Jwt.

(** X1: [base64url.parse] undoes [base64url.stringify] on every byte
    array. *)
Theorem base64url_parse_inverts_stringify a :
  Forall is_byte a -> bindO (base64url_stringify a) base64url_parse = Return a.
Proof.
  intros Ha. destruct (base64url_roundtrip a Ha) as (s & -> & Hp & _). exact Hp.
Qed.

Lemma url_char_alphabet i : is_sextet i -> is_base64url_char (url_char i).
Proof.
  unfold is_sextet, is_base64url_char, url_char, b64_char. intros Hi. z_cases; lia.
Qed.

Lemma sextets_of_length l : length (sextets_of l) = ((4 * length l + 2) / 3)%nat.
Proof.
  induction l as [|a|a b|a b c r IH] using bytes_ind3; try reflexivity.
  cbn [sextets_of length]. rewrite IH.
  replace (4 * S (S (S (length r))) + 2)%nat with (4 * length r + 2 + 4 * 3)%nat by lia.
  rewrite Nat.div_add by lia. lia.
Qed.

(** X2: what [base64url.stringify] writes for [n] bytes is made of
    base64url characters only (no [+], [/], [=] or [.]) and is
    [ceil(4n/3)] characters long. *)
Theorem base64url_stringify_is_url_safe a :
  Forall is_byte a ->
  exists s, base64url_stringify a = Return s
            /\ Forall is_base64url_char s
            /\ length s = ((4 * length a + 2) / 3)%nat.
Proof.
  intros Ha. exists (url_char <$> sextets_of a). split; [|split].
  - now apply base64url_stringify_bytes.
  - rewrite Forall_fmap. eapply Forall_impl; [apply sextets_of_range, Ha|].
    intros i Hi. now apply url_char_alphabet.
  - rewrite length_fmap. apply sextets_of_length.
Qed.

Lemma unurl_space c :
  is_js_space (if (if c =? 45 then 43 else c) =? 95 then 47
               else (if c =? 45 then 43 else c)) = is_js_space c.
Proof.
  destruct (Z.eqb_spec c 45) as [->|H45]; [reflexivity|].
  destruct (Z.eqb_spec c 95) as [->|H95]; reflexivity.
Qed.

(** X3: [base64url.parse] is lenient: white space anywhere in its argument
    is ignored, and the standard characters [+] and [/] are read like [-]
    and [_]. *)
Theorem base64url_parse_is_lenient s :
  base64url_parse (filter (fun c => is_js_space c = false) s) = base64url_parse s
  /\ base64url_parse (replace_all 47 95 (replace_all 43 45 s)) = base64url_parse s.
Proof.
  unfold base64url_parse, replace_all. split; f_equal.
  - rewrite <- !list_fmap_compose.
    induction s as [|c r IH]; [reflexivity|].
    destruct (is_js_space c) eqn:Hc.
    + rewrite (filter_cons_False _ c r) by (rewrite Hc; discriminate).
      cbn [fmap list_fmap]. rewrite filter_cons_False; [exact IH|].
      cbn [compose]. rewrite unurl_space, Hc. discriminate.
    + rewrite (filter_cons_True _ c r) by exact Hc.
      cbn [fmap list_fmap]. rewrite !filter_cons_True; [now f_equal| |];
        cbn [compose]; now rewrite unurl_space.
  - rewrite <- !list_fmap_compose. f_equal. apply list_fmap_ext. intros _ c _.
    cbn [compose]. z_cases; lia.
Qed.

End CodecProperties.

(** X1 at work: the bytes 251, 255, 0, whose base64 text uses [+] and
    [/]. *)
Lemma base64url_inverse_witness :
  bindO (Jwt.base64url_stringify [251; 255; 0]) Jwt.base64url_parse = Return [251; 255; 0].
Proof.
  apply (base64url_parse_inverts_stringify [251; 255; 0]).
  repeat constructor; unfold is_byte; lia.
Defined.

(** X2 at work: five bytes give seven characters. *)
Lemma base64url_url_safe_witness :
  exists s, Jwt.base64url_stringify [104; 101; 108; 108; 111] = Return s
            /\ Forall is_base64url_char s
            /\ length s = ((4 * length [104; 101; 108; 108; 111] + 2) / 3)%nat.
Proof.
  apply (base64url_stringify_is_url_safe [104; 101; 108; 108; 111]).
  repeat constructor; unfold is_byte; lia.
Defined.

(** ** Tokens *)

Section TokenProperties.
Context {crypto : SubtleCrypto}.
Import Jwt.

Lemma asciiToUint8Array_bytes s : Forall is_byte (asciiToUint8Array s).
Proof.
  unfold asciiToUint8Array. rewrite Forall_fmap. apply Forall_forall.
  intros c _. unfold is_byte. cbn [compose]. zlia.
Qed.

(** X4: once the signing key is loaded, [signJWT] returns for every
    payload, whatever its characters: a token of exactly three
    [.]-separated segments whose last one decodes to the signature over the
    first two. *)
Theorem signJWT_returns_three_segments fuel env claims w w' kid sk :
  loadSigningKey fuel env w = (Return (kid, sk), w') ->
  (forall data, Forall is_byte (subtle_sign sk data)) ->
  exists h p s,
    signJWT fuel env claims w = (Return (h ++ 46 :: p ++ 46 :: s), w')
    /\ split_on 46 (h ++ 46 :: p ++ 46 :: s) = [h; p; s]
    /\ base64url_parse s = Return (subtle_sign sk (asciiToUint8Array (h ++ 46 :: p))).
Proof.
  intros Hload Hsig.
  destruct (base64url_roundtrip _ (asciiToUint8Array_bytes (JSON_stringify (jwt_header kid))))
    as (h & Hh & _ & Hdh).
  destruct (base64url_roundtrip _ (asciiToUint8Array_bytes (JSON_stringify claims)))
    as (p & Hp & _ & Hdp).
  destruct (base64url_roundtrip _ (Hsig (asciiToUint8Array (h ++ 46 :: p))))
    as (s & Hs & Hps & Hds).
  exists h, p, s. split; [|split].
  - unfold signJWT, bind, lift, ret. rewrite Hload. cbn [fst snd].
    rewrite Hh, Hp, Hs. rewrite <- app_assoc. reflexivity.
  - now apply split_on_three.
  - exact Hps.
Qed.

Lemma split_on_length sep s : length (split_on sep s) = S (length (filter (fun c => c = sep) s)).
Proof.
  induction s as [|c r IH]; [reflexivity|].
  cbn [split_on]. destruct (Z.eqb_spec c sep) as [->|Hc].
  - rewrite filter_cons_True by reflexivity. cbn [length]. now rewrite IH.
  - rewrite filter_cons_False by exact Hc.
    destruct (split_on sep r) as [|h t]; [discriminate IH|exact IH].
Qed.

Lemma join_split_on sep s : join [sep] (split_on sep s) = s.
Proof.
  induction s as [|c r IH]; [reflexivity|].
  cbn [split_on]. pose proof (split_on_length sep r) as Hl.
  destruct (Z.eqb_spec c sep) as [->|Hc].
  - destruct (split_on sep r) as [|h t]; [discriminate Hl|].
    change (join [sep] ([] :: h :: t)) with ([] ++ [sep] ++ join [sep] (h :: t)).
    rewrite IH. reflexivity.
  - destruct (split_on sep r) as [|h [|h' t]]; [discriminate Hl| |].
    + cbn [join] in *. now rewrite IH.
    + change (join [sep] ((c :: h) :: h' :: t))
        with ((c :: h) ++ [sep] ++ join [sep] (h' :: t)).
      change (join [sep] (h :: h' :: t)) with (h ++ [sep] ++ join [sep] (h' :: t)) in IH.
      rewrite <- IH. reflexivity.
Qed.

(** X5: a token that does not have exactly two [.] is refused with
    [token must have 3 parts], by [parseJWT] and so by [verifyToken],
    which then has fetched no key and touched nothing. *)
Theorem malformed_token_is_refused_before_any_fetch env token w :
  dots token <> 2%nat ->
  parseJWT token = Throw (Error "token must have 3 parts")
  /\ verifyToken env token w = (Throw (Error "token must have 3 parts"), w).
Proof.
  intros Hd.
  assert (Hp : parseJWT token = Throw (Error "token must have 3 parts")).
  { unfold parseJWT. pose proof (split_on_length 46 token) as Hl. fold (dots token) in Hl.
    destruct (split_on 46 token) as [|p0 [|p1 [|p2 [|p3 t]]]]; try reflexivity.
    cbn [length] in Hl. lia. }
  split; [exact Hp|]. unfold verifyToken, bind, lift. now rewrite Hp.
Qed.

(** X6: [parseJWT] loses nothing of the token: its signing input and its
    signature, joined by a [.], are the token, and the signature holds no
    [.]. *)
Theorem parseJWT_keeps_the_token token jwt :
  parseJWT token = Return jwt ->
  to_be_validated jwt ++ 46 :: signature jwt = token
  /\ dots (to_be_validated jwt) = 1%nat
  /\ dots (signature jwt) = 0%nat.
Proof.
  unfold parseJWT. intros H.
  pose proof (join_split_on 46 token) as Hj.
  pose proof (split_on_length 46 token) as Hl. fold (dots token) in Hl.
  destruct (split_on 46 token) as [|p0 [|p1 [|p2 [|p3 t]]]]; try discriminate H.
  destruct (base64url_parse p0) as [hb|?| |]; try discriminate H. cbn [bindO] in H.
  destruct (JSON_parse (TextDecoder_decode hb)) as [h|?| |]; try discriminate H.
  cbn [bindO] in H.
  destruct (base64url_parse p1) as [pb|?| |]; try discriminate H. cbn [bindO] in H.
  destruct (JSON_parse (TextDecoder_decode pb)) as [p|?| |]; try discriminate H.
  cbn [bindO] in H. injection H as <-. cbn [to_be_validated signature].
  cbn [join] in Hj. cbn [length] in Hl.
  assert (Ht : (p0 ++ 46 :: p1) ++ 46 :: p2 = token).
  { rewrite <- Hj. rewrite <- app_assoc. reflexivity. }
  split; [exact Ht|].
  rewrite <- Ht in Hl. unfold dots in *.
  rewrite !filter_app, !filter_cons_True, !length_app in Hl by reflexivity.
  rewrite !filter_app, !filter_cons_True, !length_app by reflexivity.
  cbn [length] in *. lia.
Qed.

(** X7: [verifyToken] returns claims only when every check has passed:
    the token parsed, the claims are its payload, a key was obtained for the
    [kid] of its header, the signature verified over the signing input with
    that key, and [exp] is not below the clock. *)
Theorem verified_claims_passed_every_check env token w claims w' :
  verifyToken env token w = (Return claims, w') ->
  exists jwt kid key sig exp,
    parseJWT token = Return jwt
    /\ claims = payload jwt
    /\ get_field (Some (header jwt)) "kid" = Return kid
    /\ fetchAccessPublicKey env kid w = (Return key, w')
    /\ base64url_parse (signature jwt) = Return sig
    /\ subtle_verify key sig (asciiToUint8Array (to_be_validated jwt)) = true
    /\ get_field (Some claims) "exp" = Return exp
    /\ less_than exp (date_now w' / 1000) = Return false.
Proof.
  unfold verifyToken, bind, lift, now_seconds, throw, ret. intros H.
  destruct (parseJWT token) as [jwt|?| |] eqn:Hp; try discriminate H.
  destruct (get_field (Some (header jwt)) "kid") as [kid|?| |] eqn:Hk; try discriminate H.
  destruct (fetchAccessPublicKey env kid w) as [[key|?| |] w1] eqn:Hf; try discriminate H.
  destruct (base64url_parse (signature jwt)) as [sig|?| |] eqn:Hs; try discriminate H.
  destruct (subtle_verify key sig (asciiToUint8Array (to_be_validated jwt))) eqn:Hv;
    [|discriminate H].
  cbn [negb] in H.
  destruct (get_field (Some (payload jwt)) "exp") as [exp|?| |] eqn:He; try discriminate H.
  destruct (less_than exp (date_now w1 / 1000)) as [[|]|?| |] eqn:Hl; try discriminate H.
  injection H as <- <-. exists jwt, kid, key, sig, exp. repeat split; try assumption.
Qed.

Lemma filter_kid_found l kid found jwk :
  filter_kid l kid = Return found -> jwk ∈ found ->
  jwk ∈ l /\ exists k, get_field (Some jwk) "kid" = Return k /\ loose_eq k kid = Return true.
Proof.
  revert found. induction l as [|key r IH]; intros found H Hin.
  - injection H as <-. now apply elem_of_nil in Hin.
  - cbn [filter_kid] in H.
    destruct (get_field (Some key) "kid") as [k|?| |] eqn:Hk; try discriminate H.
    cbn [bindO] in H.
    destruct (loose_eq k kid) as [same|?| |] eqn:Hs; try discriminate H.
    cbn [bindO] in H.
    destruct (filter_kid r kid) as [t|?| |]; try discriminate H.
    cbn [bindO] in H. injection H as <-.
    destruct same.
    + apply elem_of_cons in Hin as [->|Hin].
      * split; [left|]. now exists k.
      * destruct (IH t eq_refl Hin) as [Hr Hk']. split; [now right|exact Hk'].
    + destruct (IH t eq_refl Hin) as [Hr Hk']. split; [now right|exact Hk'].
Qed.

(** X8: where importing no key fails, the key that [fetchAccessPublicKey]
    returns was imported from an entry of the [keys] list that the certs
    endpoint answered, whatever the status of that answer, and the [kid] of
    that entry equals the requested one. *)
Theorem verification_key_is_a_published_key env kid w key w' :
  importKey None UsageVerify = None ->
  fetchAccessPublicKey env kid w = (Return key, w') ->
  exists st body rest keys l jwk k,
    take_reply certs_url (interceptors w) = Some (Reply st body, rest)
    /\ JSON_parse body = Return keys
    /\ get_field (Some keys) "keys" = Return (Some (JArr l))
    /\ jwk ∈ l
    /\ get_field (Some jwk) "kid" = Return k
    /\ loose_eq k kid = Return true
    /\ importKey (Some jwk) UsageVerify = Some key.
Proof.
  intros Hnone.
  unfold fetchAccessPublicKey, bind, lift, fetch_get, fetch, throw, ret.
  cbn [out_url]. intros H.
  destruct (take_reply certs_url (interceptors w)) as [[[st body|e] rest]|] eqn:Ht;
    try discriminate H.
  cbn [res_body] in H.
  destruct (JSON_parse body) as [keys|?| |] eqn:Hp; try discriminate H.
  destruct (get_field (Some keys) "keys") as [ks|?| |] eqn:Hk; try discriminate H.
  destruct ks as [[| | | |l|]|]; try discriminate H.
  destruct (filter_kid l kid) as [found|?| |] eqn:Hf; try discriminate H.
  destruct found as [|jwk t]; cbn [head] in H.
  - rewrite Hnone in H. discriminate H.
  - destruct (importKey (Some jwk) UsageVerify) as [key'|] eqn:Hi; [|discriminate H].
    injection H as <- <-.
    destruct (filter_kid_found l kid (jwk :: t) jwk Hf) as (Hin & k & Hkid & Heq);
      [left|].
    exists st, body, rest, keys, l, jwk, k. repeat split; assumption.
Qed.

Lemma fetch_only_network req w : only_network w (snd (fetch req w)).
Proof.
  unfold fetch, only_network.
  destruct (take_reply (out_url req) (interceptors w)) as [[[st body|e] rest]|];
    repeat split.
Qed.

Lemma fetchAccessPublicKey_world env kid w :
  snd (fetchAccessPublicKey env kid w) = snd (fetch_get certs_url w).
Proof.
  unfold fetchAccessPublicKey, bind, lift, throw, ret.
  destruct (fetch_get certs_url w) as [[resp|?| |] w1]; try reflexivity.
  destruct (JSON_parse (res_body resp)) as [keys|?| |]; try reflexivity.
  destruct (get_field (Some keys) "keys") as [ks|?| |]; try reflexivity.
  destruct ks as [[| | | |l|]|]; try reflexivity.
  destruct (filter_kid l kid) as [found|?| |]; try reflexivity.
  now destruct (importKey (head found) UsageVerify).
Qed.

(** X9: verification only reads: whatever its outcome, [verifyToken]
    leaves the store, the clock and the pending key generations as they
    were, and it makes at most one outbound call, a GET of the certs
    endpoint. *)
Theorem verifyToken_only_fetches_the_certs env token w :
  only_network w (snd (verifyToken env token w))
  /\ (fetched (snd (verifyToken env token w)) = fetched w
      \/ fetched (snd (verifyToken env token w))
         = fetched w ++ [mkOutbound certs_url (lit "GET") [] None]).
Proof.
  assert (H : snd (verifyToken env token w) = w
              \/ snd (verifyToken env token w) = snd (fetch_get certs_url w)).
  { unfold verifyToken, bind, lift, now_seconds, throw, ret.
    destruct (parseJWT token) as [jwt|?| |]; try (now left).
    destruct (get_field (Some (header jwt)) "kid") as [kid|?| |]; try (now left).
    pose proof (fetchAccessPublicKey_world env kid w) as Hw.
    destruct (fetchAccessPublicKey env kid w) as [[key|?| |] w1]; try (now right).
    right. rewrite <- Hw. cbn [snd].
    destruct (base64url_parse (signature jwt)) as [sig|?| |]; try reflexivity.
    destruct (negb _); [reflexivity|].
    destruct (get_field (Some (payload jwt)) "exp") as [exp|?| |]; try reflexivity.
    now destruct (less_than exp (date_now w1 / 1000)) as [[|]|?| |]. }
  destruct H as [-> | ->].
  - split; [repeat split|now left].
  - split; [apply fetch_only_network|right; apply fetch_records].
Qed.

End TokenProperties.

(** X4 at work: a payload outside ASCII is signed all the same. *)
Lemma signJWT_three_segments_witness :
  exists h p s,
    Jwt.signJWT (crypto := checksum_crypto) 2 demo_env (JStr [233]) (demo_world 1700000000)
    = (Return (h ++ 46 :: p ++ 46 :: s), demo_world 1700000000)
    /\ split_on 46 (h ++ 46 :: p ++ 46 :: s) = [h; p; s]
    /\ Jwt.base64url_parse s
       = Return (checksum_sign 7 (Jwt.asciiToUint8Array (h ++ 46 :: p))).
Proof.
  apply (signJWT_returns_three_segments (crypto := checksum_crypto) 2 demo_env (JStr [233])
           (demo_world 1700000000) (demo_world 1700000000) (Some (JStr (lit "k1"))) 7).
  - vm_compute. reflexivity.
  - intros data. unfold subtle_sign, checksum_crypto, checksum_sign.
    repeat constructor; unfold is_byte; zlia.
Defined.

(** X5 at work: a token of two segments. *)
Lemma malformed_token_witness :
  Jwt.parseJWT (lit "a.b") = Throw (Error "token must have 3 parts")
  /\ Jwt.verifyToken (crypto := checksum_crypto) demo_env (lit "a.b") (demo_world 1700000000)
     = (Throw (Error "token must have 3 parts"), demo_world 1700000000).
Proof.
  apply (malformed_token_is_refused_before_any_fetch (crypto := checksum_crypto)
           demo_env (lit "a.b") (demo_world 1700000000)).
  vm_compute. lia.
Defined.

(** X6 at work. *)
Lemma parseJWT_keeps_the_token_witness :
  lit "eyJhbGciOiJSUzI1NiIsImtpZCI6ImsxIn0.eyJlbWFpbCI6ImFAYi5jIiwiZXhwIjoxNzAwMDAwMDAwfQ"
    ++ 46 :: lit "1Bw" = demo_token
  /\ dots (lit "eyJhbGciOiJSUzI1NiIsImtpZCI6ImsxIn0.eyJlbWFpbCI6ImFAYi5jIiwiZXhwIjoxNzAwMDAwMDAwfQ")
     = 1%nat
  /\ dots (lit "1Bw") = 0%nat.
Proof.
  apply (parseJWT_keeps_the_token demo_token
           (Jwt.mkParsed
              (lit "eyJhbGciOiJSUzI1NiIsImtpZCI6ImsxIn0.eyJlbWFpbCI6ImFAYi5jIiwiZXhwIjoxNzAwMDAwMDAwfQ")
              demo_header demo_payload (lit "1Bw"))).
  vm_compute. reflexivity.
Defined.

(** X7 at work: the checks behind the claims of the demo token. *)
Lemma verified_claims_witness :
  exists jwt kid key sig exp,
    Jwt.parseJWT demo_token = Return jwt
    /\ demo_payload = Jwt.payload jwt
    /\ get_field (Some (Jwt.header jwt)) "kid" = Return kid
    /\ Jwt.fetchAccessPublicKey (crypto := checksum_crypto) demo_env kid
         (demo_world 1600000000)
       = (Return key, demo_world_fetched 1600000000)
    /\ Jwt.base64url_parse (Jwt.signature jwt) = Return sig
    /\ subtle_verify key sig (Jwt.asciiToUint8Array (Jwt.to_be_validated jwt)) = true
    /\ get_field (Some demo_payload) "exp" = Return exp
    /\ less_than exp (date_now (demo_world_fetched 1600000000) / 1000) = Return false.
Proof.
  apply (verified_claims_passed_every_check (crypto := checksum_crypto)
           demo_env demo_token (demo_world 1600000000)).
  vm_compute. reflexivity.
Defined.

(** X8 at work: the key behind the demo token. *)
Lemma verification_key_witness :
  exists st body rest keys l jwk k,
    take_reply Jwt.certs_url (interceptors (demo_world 1600000000))
    = Some (Reply st body, rest)
    /\ JSON_parse body = Return keys
    /\ get_field (Some keys) "keys" = Return (Some (JArr l))
    /\ jwk ∈ l
    /\ get_field (Some jwk) "kid" = Return k
    /\ loose_eq k (Some (JStr (lit "k1"))) = Return true
    /\ importKey (SubtleCrypto := checksum_crypto) (Some jwk) UsageVerify = Some 7.
Proof.
  apply (verification_key_is_a_published_key (crypto := checksum_crypto)
           demo_env (Some (JStr (lit "k1"))) (demo_world 1600000000) 7
           (demo_world_fetched 1600000000)).
  - reflexivity.
  - vm_compute. reflexivity.
Defined.

(** ** The key set *)

Section KeySetProperties.
Context {crypto : SubtleCrypto}.
Import Jwt.

(** X10: [generateKeys] either returns with the new record in the store,
    or throws the bare string [failed to generate keyset], whatever went
    wrong, and then the store is as it was. *)
Theorem generateKeys_stores_or_fails_closed env w :
  (exists g w',
      generateKeys env w = (Return g, w')
      /\ kv w' !! getSigningKey env
         = Some (JSON_stringify
                   (keyset_record (g_publicKey g) (g_privateKey g) (g_kid g)))
      /\ g_kid g = generateKID (JSON_stringify (g_publicKey g)))
  \/ (exists w',
         generateKeys env w = (Throw (ThrownString (lit "failed to generate keyset")), w')
         /\ kv w' = kv w).
Proof.
  unfold generateKeys, try_catch, bind, generateKey_export, kv_put, ret, throw.
  destruct (keygen w) as [|[[pub priv]|] rest].
  - right. eexists. split; reflexivity.
  - left. eexists _, _. split; [reflexivity|]. cbn [set_kv kv g_publicKey g_privateKey g_kid fst snd].
    split; [apply lookup_insert_eq|reflexivity].
  - right. eexists. split; reflexivity.
Qed.

(** X11: the key pair is generated once: on an empty store [loadPublicKey]
    generates and stores it, and a second call answers the same key with
    the same [kid] from the store, generating nothing and writing
    nothing. *)
Theorem public_key_is_generated_once env w pub priv rest :
  kv w !! getSigningKey env = None ->
  keygen w = Some (pub, priv) :: rest ->
  canonical pub -> canonical priv ->
  Forall is_byte (digest_SHA1 (TextEncoder_encode (JSON_stringify pub))) ->
  exists w1,
    loadPublicKey env w
    = (Return (with_kid (Some (JStr (generateKID (JSON_stringify pub)))) (Some pub)), w1)
    /\ loadPublicKey env w1
       = (Return (with_kid (Some (JStr (generateKID (JSON_stringify pub)))) (Some pub)), w1)
    /\ keygen w1 = rest.
Proof.
  intros Habsent Hgen Hpub Hpriv Hdigest.
  eexists. split; [|split].
  - unfold loadPublicKey, bind. rewrite (kv_get_json_absent _ _ Habsent).
    cbn [truthy]. rewrite (generateKeys_ok env w pub priv rest Hgen).
    cbn [ret g_kid g_publicKey]. reflexivity.
  - unfold loadPublicKey, bind, kv_get_json. cbn [set_kv kv].
    rewrite lookup_insert_eq.
    rewrite (keyset_record_roundtrip pub priv _ Hpub Hpriv
               (generateKID_code_units _ Hdigest)).
    reflexivity.
  - reflexivity.
Qed.

Lemma truthy_get_field v name :
  truthy (Some v) = true -> exists x, get_field (Some v) name = Return x.
Proof. destruct v; cbn; try discriminate; eauto. Qed.

(** X12: a stored record that reads as a truthy value is never replaced:
    [loadPublicKey] returns the [kid] and the public key of the record, and
    [loadSigningKey], with any budget, returns the [kid] of the record with
    the handle imported from its private key, or fails when the import
    fails; neither generates a key, writes the store or calls itself
    again. *)
Theorem stored_keyset_is_never_replaced env w text keyset :
  kv w !! getSigningKey env = Some text ->
  JSON_parse text = Return keyset ->
  truthy (Some keyset) = true ->
  exists kid pub priv,
    get_field (Some keyset) "kid" = Return kid
    /\ get_field (Some keyset) "public" = Return pub
    /\ get_field (Some keyset) "private" = Return priv
    /\ loadPublicKey env w = (Return (with_kid kid pub), w)
    /\ forall n,
         match importKey priv UsageSign with
         | Some signingKey => loadSigningKey (S n) env w = (Return (kid, signingKey), w)
         | None => exists e, loadSigningKey (S n) env w = (Throw e, w)
         end.
Proof.
  intros Hkv Hparse Htruthy.
  destruct (truthy_get_field keyset "kid" Htruthy) as [kid Hkid].
  destruct (truthy_get_field keyset "public" Htruthy) as [pub Hpub].
  destruct (truthy_get_field keyset "private" Htruthy) as [priv Hpriv].
  exists kid, pub, priv. do 3 (split; [assumption|]). split.
  - unfold loadPublicKey, bind, kv_get_json, lift, ret.
    now rewrite Hkv, Hparse, Htruthy, Hkid, Hpub.
  - intros n. cbn [loadSigningKey]. unfold bind, kv_get_json, lift, ret, throw.
    rewrite Hkv, Hparse, Htruthy, Hpriv.
    destruct (importKey priv UsageSign); [now rewrite Hkid|eauto].
Qed.

(** X13: with no stored record and a failing key generation, [signJWT]
    throws the bare string [failed to generate keyset] after a single
    attempt, and the store is as it was. *)
Theorem signJWT_fails_when_no_key_can_be_generated n env claims w :
  kv w !! getSigningKey env = None ->
  (forall jwks rest, keygen w <> Some jwks :: rest) ->
  exists w',
    signJWT (S n) env claims w
    = (Throw (ThrownString (lit "failed to generate keyset")), w')
    /\ kv w' = kv w
    /\ length (keygen w') = pred (length (keygen w)).
Proof.
  intros Habsent Hgen.
  unfold signJWT, bind. cbn [loadSigningKey]. unfold bind.
  rewrite (kv_get_json_absent _ _ Habsent). cbn [truthy].
  unfold loadPublicKey, bind. rewrite (kv_get_json_absent _ _ Habsent). cbn [truthy].
  unfold generateKeys, try_catch, bind, generateKey_export, throw.
  destruct (keygen w) as [|[jwks|] rest] eqn:Hk.
  - eexists. repeat split. now rewrite Hk.
  - now destruct (Hgen jwks rest).
  - eexists. repeat split.
Qed.

Lemma hex_digit_lower d : 0 <= d < 16 -> is_lower_hex (hex_digit d).
Proof. unfold hex_digit, is_lower_hex. intros Hd. z_cases; lia. Qed.

Lemma hex_bytes_lower l : Forall is_byte l -> Forall is_lower_hex (concat (hex2 <$> l)).
Proof.
  induction 1 as [|b l Hb Hl IH]; [constructor|].
  cbn [fmap list_fmap concat hex2 app]. unfold is_byte in Hb.
  repeat apply Forall_cons_2; [apply hex_digit_lower; zlia|apply hex_digit_lower; zlia|exact IH].
Qed.

Lemma hex_bytes_length (l : list Z) : length (concat (hex2 <$> l)) = (2 * length l)%nat.
Proof.
  induction l as [|b l IH]; [reflexivity|].
  cbn [fmap list_fmap concat hex2 app length]. cbn [fmap] in IH. rewrite IH. lia.
Qed.

(** X14: a key id is written in lower-case hexadecimal digits, two for
    each byte of the digest, and is never longer than 64 characters. *)
Theorem kid_is_lowercase_hex text :
  Forall is_byte (digest_SHA1 (TextEncoder_encode text)) ->
  Forall is_lower_hex (generateKID text)
  /\ length (generateKID text)
     = Nat.min 64 (2 * length (digest_SHA1 (TextEncoder_encode text))).
Proof.
  intros Hd. unfold generateKID, substring0. split.
  - apply Forall_take. now apply hex_bytes_lower.
  - rewrite length_take, hex_bytes_length. reflexivity.
Qed.

End KeySetProperties.

(** X11 at work: a first and a second load on an empty store. *)
Lemma public_key_generated_once_witness :
  exists w1,
    Jwt.loadPublicKey (crypto := checksum_crypto) demo_env
      (mkWorld ∅ 0 [] [] [Some (demo_jwk, demo_jwk)])
    = (Return (Jwt.with_kid
                 (Some (JStr (Jwt.generateKID (crypto := checksum_crypto)
                                (JSON_stringify demo_jwk))))
                 (Some demo_jwk)), w1)
    /\ Jwt.loadPublicKey (crypto := checksum_crypto) demo_env w1
       = (Return (Jwt.with_kid
                    (Some (JStr (Jwt.generateKID (crypto := checksum_crypto)
                                   (JSON_stringify demo_jwk))))
                    (Some demo_jwk)), w1)
    /\ keygen w1 = [].
Proof.
  apply (public_key_is_generated_once (crypto := checksum_crypto) demo_env
           (mkWorld ∅ 0 [] [] [Some (demo_jwk, demo_jwk)]) demo_jwk demo_jwk []).
  - reflexivity.
  - reflexivity.
  - exact demo_jwk_canonical.
  - exact demo_jwk_canonical.
  - apply checksum_digest_bytes.
Defined.

(** X12 at work: the stored key set of the demo deployment. *)
Lemma stored_keyset_witness :
  exists kid pub priv,
    get_field (Some (Jwt.keyset_record demo_jwk demo_jwk (lit "k1"))) "kid" = Return kid
    /\ get_field (Some (Jwt.keyset_record demo_jwk demo_jwk (lit "k1"))) "public"
       = Return pub
    /\ get_field (Some (Jwt.keyset_record demo_jwk demo_jwk (lit "k1"))) "private"
       = Return priv
    /\ Jwt.loadPublicKey (crypto := checksum_crypto) demo_env (demo_world 0)
       = (Return (Jwt.with_kid kid pub), demo_world 0)
    /\ forall n,
         match importKey (SubtleCrypto := checksum_crypto) priv UsageSign with
         | Some signingKey =>
             Jwt.loadSigningKey (crypto := checksum_crypto) (S n) demo_env (demo_world 0)
             = (Return (kid, signingKey), demo_world 0)
         | None =>
             exists e,
               Jwt.loadSigningKey (crypto := checksum_crypto) (S n) demo_env (demo_world 0)
               = (Throw e, demo_world 0)
         end.
Proof.
  apply (stored_keyset_is_never_replaced (crypto := checksum_crypto) demo_env (demo_world 0)
           demo_keyset (Jwt.keyset_record demo_jwk demo_jwk (lit "k1"))).
  - reflexivity.
  - vm_compute. reflexivity.
  - reflexivity.
Defined.

(** X13 at work: an empty store and a platform that cannot generate keys. *)
Lemma signJWT_generation_failure_witness :
  exists w',
    Jwt.signJWT (crypto := checksum_crypto) 1 demo_env demo_payload
      (mkWorld ∅ 0 [] [] [None])
    = (Throw (ThrownString (lit "failed to generate keyset")), w')
    /\ kv w' = ∅
    /\ length (keygen w') = 0%nat.
Proof.
  apply (signJWT_fails_when_no_key_can_be_generated (crypto := checksum_crypto) 0 demo_env
           demo_payload (mkWorld ∅ 0 [] [] [None])).
  - reflexivity.
  - intros jwks rest. discriminate.
Defined.

(** X14 at work: the key id of the demo key. *)
Lemma kid_is_lowercase_hex_witness :
  Forall is_lower_hex (Jwt.generateKID (crypto := checksum_crypto) (JSON_stringify demo_jwk))
  /\ length (Jwt.generateKID (crypto := checksum_crypto) (JSON_stringify demo_jwk))
     = Nat.min 64 (2 * length (digest_SHA1 (SubtleCrypto := checksum_crypto)
                                 (TextEncoder_encode (JSON_stringify demo_jwk)))).
Proof.
  apply (kid_is_lowercase_hex (crypto := checksum_crypto) (JSON_stringify demo_jwk)).
  apply checksum_digest_bytes.
Defined.

(** ** The routing table *)

Section TableProperties.
Context {crypto : SubtleCrypto} {yaml : YamlParser}.
Import Index.

(** X15: [refreshConfig] writes the store only when it returns, and then
    only the record of the routing table: a failed fetch, a status other
    than 200 or text that the YAML parser refuses leave the store as it
    was. *)
Theorem refreshConfig_writes_only_on_success env w :
  match fst (refreshConfig env w) with
  | Return table =>
      kv (snd (refreshConfig env w))
      = <[getConfigKey env := JSON_stringify table]> (kv w)
  | _ => kv (snd (refreshConfig env w)) = kv w
  end.
Proof.
  unfold refreshConfig, bind, fetch_get, fetch, throw, lift, kv_put, ret. cbn [out_url].
  destruct (take_reply hosts_url (interceptors w)) as [[[st body|e] rest]|]; try reflexivity.
  cbn [res_status res_body].
  destruct (st =? 200); cbn [negb]; [|reflexivity].
  destruct (yaml_parse body) as [table|?| |]; reflexivity.
Qed.

Lemma storage_keys_differ e e' : Jwt.getSigningKey e <> getConfigKey e'.
Proof.
  unfold Jwt.getSigningKey, getConfigKey. intros Heq.
  apply (f_equal last) in Heq.
  change (lit "_keys") with (lit "_key" ++ [115]) in Heq.
  change (lit "_workload_config") with (lit "_workload_confi" ++ [103]) in Heq.
  rewrite !app_assoc, !last_snoc in Heq. discriminate Heq.
Qed.

(** X16: the key set and the routing table never share a record, whatever
    the prefixes: [refreshConfig] leaves every key-set record as it was,
    and [generateKeys] every routing-table record. *)
Theorem key_set_and_routing_table_are_separate e e' w :
  Jwt.getSigningKey e' <> getConfigKey e
  /\ kv (snd (refreshConfig e w)) !! Jwt.getSigningKey e' = kv w !! Jwt.getSigningKey e'
  /\ kv (snd (Jwt.generateKeys e w)) !! getConfigKey e' = kv w !! getConfigKey e'.
Proof.
  split; [apply storage_keys_differ|]. split.
  - unfold refreshConfig, bind, fetch_get, fetch, throw, lift, kv_put, ret. cbn [out_url].
    destruct (take_reply hosts_url (interceptors w)) as [[[st body|err] rest]|];
      try reflexivity.
    cbn [res_status res_body].
    destruct (st =? 200); cbn [negb]; [|reflexivity].
    destruct (yaml_parse body) as [table|?| |]; try reflexivity.
    cbn [snd set_kv kv]. apply lookup_insert_ne. apply not_eq_sym, storage_keys_differ.
  - unfold Jwt.generateKeys, try_catch, bind, Jwt.generateKey_export, kv_put, ret, throw.
    destruct (keygen w) as [|[[pub priv]|] rest]; try reflexivity.
    cbn [snd set_kv kv]. apply lookup_insert_ne, storage_keys_differ.
Qed.

(** X17: refreshing is idempotent: when the source answers the same text
    twice, the second [refreshConfig] returns the same table and leaves the
    store as the first one left it. *)
Theorem refreshConfig_is_idempotent env w body rest rest' table :
  take_reply hosts_url (interceptors w) = Some (Reply 200 body, rest) ->
  take_reply hosts_url rest = Some (Reply 200 body, rest') ->
  yaml_parse body = Return table ->
  exists w1 w2,
    refreshConfig env w = (Return table, w1)
    /\ refreshConfig env w1 = (Return table, w2)
    /\ kv w2 = kv w1.
Proof.
  intros Hfirst Hsecond Hyaml. eexists _, _. split; [|split].
  - exact (refreshConfig_ok env w body rest table Hfirst Hyaml).
  - apply (refreshConfig_ok env _ body rest' table); [exact Hsecond|exact Hyaml].
  - cbn [set_kv kv set_interceptors set_fetched]. apply insert_insert_eq.
Qed.

End TableProperties.

(** X17 at work: two refreshes answered with the same table. *)
Lemma refreshConfig_idempotent_witness :
  exists w1 w2,
    Index.refreshConfig (yaml := json_yaml) demo_env
      (mkWorld ∅ 0 [(Index.hosts_url, Reply 200 (JSON_stringify demo_table));
                    (Index.hosts_url, Reply 200 (JSON_stringify demo_table))] [] [])
    = (Return demo_table, w1)
    /\ Index.refreshConfig (yaml := json_yaml) demo_env w1 = (Return demo_table, w2)
    /\ kv w2 = kv w1.
Proof.
  apply (refreshConfig_is_idempotent (yaml := json_yaml) demo_env
           (mkWorld ∅ 0 [(Index.hosts_url, Reply 200 (JSON_stringify demo_table));
                         (Index.hosts_url, Reply 200 (JSON_stringify demo_table))] [] [])
           (JSON_stringify demo_table)
           [(Index.hosts_url, Reply 200 (JSON_stringify demo_table))] []).
  - vm_compute. reflexivity.
  - vm_compute. reflexivity.
  - vm_compute. reflexivity.
Defined.

(** ** The dispatcher *)

Section DispatchProperties.
Context {crypto : SubtleCrypto} {yaml : YamlParser}.
Import Index.

Lemma handleRequest_warm request env w text table routes :
  kv w !! getConfigKey env = Some text ->
  JSON_parse text = Return table ->
  truthy (Some table) = true ->
  register_workloads table (for_in_keys table) = Return routes ->
  handleRequest request env w
  = app_fetch env table
      (routes ++ [ mkRoute (lit "GET") (PExact (lit "/config")) HConfig;
                   mkRoute (lit "GET") PAny HIdentity ]) request w.
Proof.
  intros Hkv Hparse Htruthy Hreg.
  unfold handleRequest, bind at 1. unfold kv_get_json. rewrite Hkv, Hparse, Htruthy.
  cbn [negb]. unfold bind at 1, ret at 1. unfold bind at 1, lift, app_routes.
  rewrite Hreg. reflexivity.
Qed.

(** X18: the request that finds the store empty fetches the table, stores
    it and is then answered exactly as the same request is answered from
    the stored record, when the table is one that JSON carries
    unchanged. *)
Theorem cold_start_answers_like_a_warm_start request env w body rest table :
  kv w !! getConfigKey env = None ->
  take_reply hosts_url (interceptors w) = Some (Reply 200 body, rest) ->
  yaml_parse body = Return table ->
  canonical table ->
  truthy (Some table) = true ->
  handleRequest request env w
  = handleRequest request env
      (set_kv (insert (getConfigKey env) (JSON_stringify table))
         (set_interceptors rest
            (set_fetched (fetched w ++ [mkOutbound hosts_url (lit "GET") [] None]) w))).
Proof.
  intros Habsent Hnet Hyaml Hcanon Htruthy.
  unfold handleRequest at 1. unfold bind at 1. rewrite (kv_get_json_absent _ _ Habsent).
  cbn [truthy negb]. unfold bind at 1.
  rewrite (refreshConfig_ok env w body rest table Hnet Hyaml).
  unfold handleRequest, bind at 2. unfold kv_get_json. cbn [set_kv kv].
  rewrite lookup_insert_eq, (JSON_roundtrip table Hcanon), Htruthy. cbn [negb].
  unfold bind at 3, ret at 1. reflexivity.
Qed.

(** X19: when the store is empty and the source of the table answers with
    a status other than 200, no response is built: the [HTTPException]
    leaves [handleRequest], whatever the request, and nothing is stored. *)
Theorem cold_start_failure_is_not_answered request env w status body rest :
  kv w !! getConfigKey env = None ->
  take_reply hosts_url (interceptors w) = Some (Reply status body, rest) ->
  status <> 200 ->
  exists w',
    handleRequest request env w
    = (Throw (HTTPException 500 (lit "failed to get config from github")), w')
    /\ kv w' = kv w.
Proof.
  intros Habsent Hnet Hstatus. eexists. split.
  - unfold handleRequest, bind at 1. rewrite (kv_get_json_absent _ _ Habsent).
    cbn [truthy negb]. unfold bind at 1. unfold refreshConfig, bind at 1.
    unfold fetch_get, fetch. cbn [out_url]. rewrite Hnet. cbn [res_status].
    rewrite (proj2 (Z.eqb_neq status 200) Hstatus). cbn [negb]. reflexivity.
  - reflexivity.
Qed.

(** X20: a path made of [/] only has no workload segment: [forwardRequest]
    answers 400 and calls nothing. *)
Theorem path_without_segment_is_invalid c config w :
  Forall (fun ch => ch = 47) (req_path c) ->
  forwardRequest c config w = (Return (mkResponse 400 (lit "Invalid request path")), w).
Proof.
  intros Hpath.
  assert (Hparts : path_parts (req_path c) = []).
  { unfold path_parts. induction Hpath as [|ch r -> _ IH]; [reflexivity|].
    cbn [split_on]. change (47 =? 47) with true. cbv iota.
    rewrite filter_cons_False by auto. exact IH. }
  unfold forwardRequest, try_catch, forward_try. rewrite Hparts. reflexivity.
Qed.

(** X21: what the workload's host answers is what the client gets, status
    and body as they are, error statuses included; the one call made
    carries the request's method ([GET] when it is empty), the workload's
    host as its only header, and the request's body for POST, PUT and PATCH
    only. *)
Theorem backend_answer_is_relayed c config name rest wl host w status body pending :
  path_parts (req_path c) = name :: rest ->
  get_member config name = Return (Own wl) ->
  truthy (Some wl) = true ->
  get_field (Some wl) "host" = Return (Some (JStr host)) ->
  take_reply (target_url host (name :: rest) (searchParams_toString c)) (interceptors w)
  = Some (Reply status body, pending) ->
  forwardRequest c config w
  = (Return (mkResponse status body),
     set_interceptors pending
       (set_fetched
          (fetched w
             ++ [mkOutbound
                   (target_url host (name :: rest) (searchParams_toString c))
                   (if req_method c is [] then lit "GET" else req_method c)
                   [(lit "host", Some (JStr host))]
                   (if bool_decide (toUpperCase (req_method c)
                                      ∈ [lit "POST"; lit "PUT"; lit "PATCH"])
                    then Some (req_body c) else None)]) w)).
Proof.
  intros Hparts Hmem Htruthy Hhost Hnet.
  unfold forwardRequest, try_catch, forward_try. rewrite Hparts.
  unfold bind at 1, lift at 1. rewrite Hmem. cbn [member_truthy]. rewrite Htruthy.
  cbn [negb]. unfold bind at 1, lift at 1. cbn [member_field]. rewrite Hhost.
  unfold bind at 1, lift at 1. cbn [ToString json_toString].
  unfold fetch. cbn [out_url]. rewrite Hnet. reflexivity.
Qed.

Lemma register_workloads_routable table names rs :
  register_workloads table names = Return rs ->
  Forall (route_of_names (filter (fun n => routable table n = true) names)) rs.
Proof.
  revert rs. induction names as [|name rest IH]; intros rs Hreg.
  - injection Hreg as <-. constructor.
  - cbn [register_workloads] in Hreg.
    assert (Hr : routable table name
                 = match provider_of table name with
                   | Return key => match Providers key with Some _ => true | None => false end
                   | _ => false
                   end) by reflexivity.
    unfold provider_of in Hr.
    destruct (get_member (Some table) name) as [m| | |]; try discriminate Hreg.
    cbn [bindO] in Hreg, Hr.
    destruct (member_field m "provider") as [p| | |]; try discriminate Hreg.
    cbn [bindO] in Hreg, Hr.
    destruct (ToString p) as [key| | |]; try discriminate Hreg.
    cbn [bindO] in Hreg.
    destruct (register_workloads table rest) as [more| | |] eqn:Hmore.
    2-4: destruct (Providers key); [destruct (plain_name name)|]; discriminate Hreg.
    specialize (IH more eq_refl).
    destruct (Providers key) as [prov|]; [destruct (plain_name name)|];
      cbn [bindO] in Hreg; try discriminate Hreg; injection Hreg as <-.
    + rewrite filter_cons_True by exact Hr.
      repeat (apply Forall_cons_2;
              [exists name; split; [apply list_elem_of_here|cbn [r_pattern]; tauto]|]).
      eapply Forall_impl; [exact IH|].
      intros r (n & Hn & Hp). exists n. split; [now apply list_elem_of_further|exact Hp].
    + rewrite filter_cons_False by (rewrite Hr; discriminate). exact IH.
Qed.

Lemma register_workloads_example table names rs :
  register_workloads table names = Return rs ->
  Forall (fun n => provider_of table n = Return (lit "example")) names ->
  Forall (fun r => r_handler r = HProvider ProviderExample) rs
  /\ forall name r, name ∈ names -> r ∈ workload_routes name ProviderExample -> r ∈ rs.
Proof.
  revert rs. induction names as [|name rest IH]; intros rs Hreg Hall.
  - injection Hreg as <-. split; [constructor|]. intros name r Hin. inversion Hin.
  - apply Forall_cons_1 in Hall as [Hp Hall].
    cbn [register_workloads] in Hreg. unfold provider_of in Hp.
    destruct (get_member (Some table) name) as [m| | |]; try discriminate Hreg.
    cbn [bindO] in Hreg, Hp.
    destruct (member_field m "provider") as [p| | |]; try discriminate Hreg.
    cbn [bindO] in Hreg, Hp. rewrite Hp in Hreg. cbn [bindO] in Hreg.
    change (Providers (lit "example")) with (Some ProviderExample) in Hreg.
    destruct (plain_name name); [|discriminate Hreg]. cbn [bindO] in Hreg.
    destruct (register_workloads table rest) as [more| | |]; try discriminate Hreg.
    cbn [bindO] in Hreg. injection Hreg as <-.
    destruct (IH more eq_refl Hall) as [Hh Hin]. split.
    + repeat (apply Forall_cons_2; [reflexivity|]). exact Hh.
    + intros n r Hn Hr.
      change (r ∈ workload_routes name ProviderExample ++ more).
      apply elem_of_app. apply elem_of_cons in Hn as [->|Hn].
      * now left.
      * right. now apply (Hin n).
Qed.

Lemma find_first_in {A} (f : A -> bool) (l l' : list A) x :
  x ∈ l -> f x = true -> exists y, List.find f (l ++ l') = Some y /\ y ∈ l.
Proof.
  induction l as [|a l IH]; intros Hin Hx; [inversion Hin|].
  cbn [app List.find]. destruct (f a) eqn:Ha.
  - exists a. split; [reflexivity|left].
  - apply elem_of_cons in Hin as [->|Hin]; [congruence|].
    destruct (IH Hin Hx) as (y & Hy & Hyl). exists y. split; [exact Hy|now right].
Qed.

Lemma forwardRequest_caught c config (h : JSError -> M Response) w :
  try_catch (forwardRequest c config) h w = forwardRequest c config w.
Proof.
  unfold try_catch. pose proof (forwardRequest_does_not_throw c config w) as Hno.
  destruct (forwardRequest c config w) as [[r|e| |] w1]; try reflexivity.
  now destruct (Hno e w1).
Qed.

(** X22: with a stored table whose workloads all have the provider
    [example], a GET, POST, PUT, DELETE or PATCH request to [/name] or under
    [/name/] for a workload [name] of the table is answered by
    [forwardRequest] with that table. *)
Theorem workload_request_is_forwarded request env w text table routes name :
  kv w !! getConfigKey env = Some text ->
  JSON_parse text = Return table ->
  truthy (Some table) = true ->
  register_workloads table (for_in_keys table) = Return routes ->
  Forall (fun n => provider_of table n = Return (lit "example")) (for_in_keys table) ->
  name ∈ for_in_keys table ->
  req_method request ∈ workload_methods ->
  pattern_matches (PUnder (47 :: name)) (req_path request) = true ->
  handleRequest request env w = forwardRequest request (Some table) w.
Proof.
  intros Hkv Hparse Htruthy Hreg Hall Hname Hmethod Hunder.
  rewrite (handleRequest_warm request env w text table routes Hkv Hparse Htruthy Hreg).
  destruct (register_workloads_example table _ routes Hreg Hall) as [Hhandlers Hroutes].
  assert (Hhead : str_eqb (req_method request) (lit "HEAD") = false).
  { unfold workload_methods in Hmethod. rewrite !elem_of_cons, elem_of_nil in Hmethod.
    destruct Hmethod as [->|[->|[->|[->|[->|[]]]]]]; reflexivity. }
  unfold app_fetch. rewrite Hhead. cbv zeta iota.
  destruct (find_first_in
              (fun r => str_eqb (r_method r) (req_method request)
                        && pattern_matches (r_pattern r) (req_path request))
              routes
              [ mkRoute (lit "GET") (PExact (lit "/config")) HConfig;
                mkRoute (lit "GET") PAny HIdentity ]
              (mkRoute (req_method request) (PUnder (47 :: name))
                 (HProvider ProviderExample)))
    as (r & -> & Hr).
  - apply (Hroutes name); [exact Hname|].
    unfold workload_methods in Hmethod. rewrite !elem_of_cons, elem_of_nil in Hmethod.
    unfold workload_routes. rewrite !elem_of_cons.
    destruct Hmethod as [->|[->|[->|[->|[->|[]]]]]]; tauto.
  - cbn [r_method r_pattern]. rewrite Hunder. unfold str_eqb.
    now rewrite bool_decide_eq_true_2.
  - rewrite Forall_forall in Hhandlers. rewrite (Hhandlers r Hr). cbn [run_handler].
    unfold bind. rewrite forwardRequest_caught.
    now destruct (forwardRequest request (Some table) w) as [[res|e| |] w1].
Qed.

Lemma routable_routes_unmatched table routes path :
  register_workloads table (for_in_keys table) = Return routes ->
  Forall (fun name => pattern_matches (PUnder (47 :: name)) path = false)
         (filter (fun n => routable table n = true) (for_in_keys table)) ->
  forall (test : Route -> bool),
    Forall (fun r => test r && pattern_matches (r_pattern r) path = false) routes.
Proof.
  intros Hreg Hnone test.
  eapply Forall_impl; [apply (register_workloads_routable _ _ _ Hreg)|].
  intros r Hr. cbv beta. rewrite (workload_routes_unmatched _ _ _ Hnone Hr).
  apply andb_false_r.
Qed.


Lemma get_outside_workloads_reaches_identity env w request text table routes :
  req_method request = lit "GET" ->
  kv w !! getConfigKey env = Some text ->
  JSON_parse text = Return table ->
  truthy (Some table) = true ->
  register_workloads table (for_in_keys table) = Return routes ->
  Forall (fun name => pattern_matches (PUnder (47 :: name)) (req_path request) = false)
         (filter (fun n => routable table n = true) (for_in_keys table)) ->
  req_path request <> lit "/config" ->
  handleRequest request env w = try_catch (getUserAndHistory env request) onError w.
Proof.
  intros Hm Hkv Hparse Htruthy Hreg Hnone Hpath.
  rewrite (handleRequest_warm request env w text table routes Hkv Hparse Htruthy Hreg).
  unfold app_fetch. rewrite Hm.
  change (str_eqb (lit "GET") (lit "HEAD")) with false. cbv zeta iota.
  rewrite find_skips by (apply (routable_routes_unmatched table routes _ Hreg Hnone)).
  cbn [List.find r_method r_pattern pattern_matches].
  change (str_eqb (lit "GET") (lit "GET")) with true. cbn [andb].
  unfold str_eqb at 1. rewrite bool_decide_eq_false_2 by assumption.
  cbn [r_handler run_handler]. apply bind_ret.
Qed.



End DispatchProperties.

Lemma demo_table_canonical : canonical demo_table.
Proof.
  apply canonical_fields. split; [reflexivity|].
  each_field; try (apply ascii_is_code_unit, ascii_check; reflexivity).
  apply canonical_fields. split; [reflexivity|].
  each_field; try (apply ascii_is_code_unit, ascii_check; reflexivity);
    cbn [canonical]; apply ascii_is_code_unit, ascii_check; reflexivity.
Qed.

(** X18 at work: a first request to a workload. *)
Lemma cold_start_witness :
  Index.handleRequest (crypto := checksum_crypto) (yaml := json_yaml)
    (GET "/workload1/path" "") demo_env
    (cold_world (Reply 200 (JSON_stringify demo_table))
       [(lit "https://foo.com/path?", Reply 200 (lit "backend"))])
  = Index.handleRequest (crypto := checksum_crypto) (yaml := json_yaml)
      (GET "/workload1/path" "") demo_env
      (set_kv (insert (Index.getConfigKey demo_env) (JSON_stringify demo_table))
         (set_interceptors [(lit "https://foo.com/path?", Reply 200 (lit "backend"))]
            (set_fetched
               (fetched (cold_world (Reply 200 (JSON_stringify demo_table))
                           [(lit "https://foo.com/path?", Reply 200 (lit "backend"))])
                  ++ [mkOutbound Index.hosts_url (lit "GET") [] None])
               (cold_world (Reply 200 (JSON_stringify demo_table))
                  [(lit "https://foo.com/path?", Reply 200 (lit "backend"))])))).
Proof.
  apply (cold_start_answers_like_a_warm_start (crypto := checksum_crypto) (yaml := json_yaml)
           (GET "/workload1/path" "") demo_env
           (cold_world (Reply 200 (JSON_stringify demo_table))
              [(lit "https://foo.com/path?", Reply 200 (lit "backend"))])
           (JSON_stringify demo_table)
           [(lit "https://foo.com/path?", Reply 200 (lit "backend"))] demo_table).
  - reflexivity.
  - vm_compute. reflexivity.
  - vm_compute. reflexivity.
  - exact demo_table_canonical.
  - reflexivity.
Defined.

(** X19 at work: the source answers 503 to a first request. *)
Lemma cold_start_failure_witness :
  exists w',
    Index.handleRequest (crypto := checksum_crypto) (yaml := json_yaml)
      (GET "/workload1/path" "") demo_env (cold_world (Reply 503 []) [])
    = (Throw (HTTPException 500 (lit "failed to get config from github")), w')
    /\ kv w' = kv (cold_world (Reply 503 []) []).
Proof.
  apply (cold_start_failure_is_not_answered (crypto := checksum_crypto) (yaml := json_yaml)
           (GET "/workload1/path" "") demo_env (cold_world (Reply 503 []) []) 503 [] []).
  - reflexivity.
  - vm_compute. reflexivity.
  - lia.
Defined.

(** X20 at work: the root path. *)
Lemma path_without_segment_witness :
  Index.forwardRequest (GET "/" "") (Some demo_table) (routing_world demo_table [])
  = (Return (mkResponse 400 (lit "Invalid request path")), routing_world demo_table []).
Proof.
  apply (path_without_segment_is_invalid (GET "/" "") (Some demo_table)
           (routing_world demo_table [])).
  repeat constructor.
Defined.

(** X21 at work: a 404 of the workload's host. *)
Lemma backend_answer_witness :
  Index.forwardRequest (GET "/workload1/path" "") (Some demo_table)
    (routing_world demo_table [(lit "https://foo.com/path?", Reply 404 (lit "nope"))])
  = (Return (mkResponse 404 (lit "nope")),
     set_interceptors []
       (set_fetched
          (fetched (routing_world demo_table
                      [(lit "https://foo.com/path?", Reply 404 (lit "nope"))])
             ++ [mkOutbound
                   (Index.target_url (lit "foo.com") [lit "workload1"; lit "path"]
                      (Index.searchParams_toString (GET "/workload1/path" "")))
                   (lit "GET") [(lit "host", Some (JStr (lit "foo.com")))] None])
          (routing_world demo_table
             [(lit "https://foo.com/path?", Reply 404 (lit "nope"))]))).
Proof.
  apply (backend_answer_is_relayed (GET "/workload1/path" "") (Some demo_table)
           (lit "workload1") [lit "path"] (workload "example" "foo.com") (lit "foo.com")
           (routing_world demo_table [(lit "https://foo.com/path?", Reply 404 (lit "nope"))])
           404 (lit "nope") []).
  - vm_compute. reflexivity.
  - vm_compute. reflexivity.
  - reflexivity.
  - vm_compute. reflexivity.
  - vm_compute. reflexivity.
Defined.

(** X22 at work: a POST under the demo workload. *)
Lemma workload_request_witness :
  Index.handleRequest (crypto := checksum_crypto) (yaml := json_yaml)
    (Index.mkRequest (lit "POST") (lit "/workload1/path") [] None [1; 2; 3]) demo_env
    (routing_world demo_table [(lit "https://foo.com/path?", Reply 201 (lit "made"))])
  = Index.forwardRequest
      (Index.mkRequest (lit "POST") (lit "/workload1/path") [] None [1; 2; 3])
      (Some demo_table)
      (routing_world demo_table [(lit "https://foo.com/path?", Reply 201 (lit "made"))]).
Proof.
  apply (workload_request_is_forwarded (crypto := checksum_crypto) (yaml := json_yaml)
           (Index.mkRequest (lit "POST") (lit "/workload1/path") [] None [1; 2; 3])
           demo_env
           (routing_world demo_table [(lit "https://foo.com/path?", Reply 201 (lit "made"))])
           (JSON_stringify demo_table) demo_table
           (Index.workload_routes (lit "workload1") Index.ProviderExample)
           (lit "workload1")).
  - reflexivity.
  - vm_compute. reflexivity.
  - reflexivity.
  - vm_compute. reflexivity.
  - apply Forall_cons_2; [vm_compute; reflexivity|apply Forall_nil_2].
  - apply list_elem_of_here.
  - apply list_elem_of_further, list_elem_of_here.
  - vm_compute. reflexivity.
Defined.




(** ** Requests outside the workloads, errors and refreshes (C5, C6, C8) *)

Section OutsideWorkloads.
Context {crypto : SubtleCrypto} {yaml : YamlParser}.
Import Index.

Lemma register_workloads_returns table names :
  Forall (fun n => exists key, provider_of table n = Return key) names ->
  Forall (fun n => plain_name n = true) names ->
  exists routes, register_workloads table names = Return routes.
Proof.
  induction names as [|name rest IH]; intros Hread Hplain; [now exists []|].
  apply Forall_cons_1 in Hread as [[key Hkey] Hread].
  apply Forall_cons_1 in Hplain as [Hname Hplain].
  destruct (IH Hread Hplain) as [more Hmore].
  cbn [register_workloads]. unfold provider_of in Hkey.
  destruct (get_member (Some table) name) as [m| | |]; try discriminate Hkey.
  cbn [bindO] in *.
  destruct (member_field m "provider") as [p| | |]; try discriminate Hkey.
  cbn [bindO] in *. rewrite Hkey, Hname, Hmore. cbn [bindO].
  destruct (Providers key); cbn [bindO]; eauto.
Qed.

Lemma lookup_field_none_keys name fields :
  lookup_field name fields = None -> name ∉ (fst <$> fields).
Proof.
  induction fields as [|[k v] r IH]; intros Hmiss; [apply not_elem_of_nil|].
  cbn [lookup_field] in Hmiss. unfold str_eqb in Hmiss.
  destruct (bool_decide (k = name)) eqn:Hk; [discriminate Hmiss|].
  apply bool_decide_eq_false in Hk. cbn [fmap list_fmap fst].
  apply not_elem_of_cons. split; [congruence|now apply IH].
Qed.

Lemma plain_name_nonempty n : plain_name n = true -> n <> [].
Proof.
  unfold plain_name. intros Hp ->. discriminate Hp.
Qed.

Lemma config_not_under n :
  n <> lit "config" -> pattern_matches (PUnder (47 :: n)) (lit "/config") = false.
Proof.
  intros Hn. cbn [pattern_matches]. rewrite config_path_not_under, orb_false_r.
  unfold str_eqb. apply bool_decide_eq_false. intros Heq.
  change (lit "/config") with (47 :: lit "config") in Heq.
  injection Heq as Heq. congruence.
Qed.

Lemma get_config_reaches_refresh env w request text table routes :
  req_method request = lit "GET" ->
  req_path request = lit "/config" ->
  kv w !! getConfigKey env = Some text ->
  JSON_parse text = Return table ->
  truthy (Some table) = true ->
  register_workloads table (for_in_keys table) = Return routes ->
  Forall (fun name => pattern_matches (PUnder (47 :: name)) (lit "/config") = false)
         (filter (fun n => routable table n = true) (for_in_keys table)) ->
  handleRequest request env w
  = try_catch (let* config := refreshConfig env in ret (c_json config 200)) onError w.
Proof.
  intros Hm Hp Hkv Hparse Htruthy Hreg Hnone.
  rewrite (handleRequest_warm request env w text table routes Hkv Hparse Htruthy Hreg).
  unfold app_fetch. rewrite Hm, Hp.
  change (str_eqb (lit "GET") (lit "HEAD")) with false. cbv zeta iota.
  rewrite find_skips by (apply (routable_routes_unmatched table routes _ Hreg Hnone)).
  change (List.find _ _) with (Some (mkRoute (lit "GET") (PExact (lit "/config")) HConfig)).
  cbn [r_handler run_handler]. apply bind_ret.
Qed.

(** C5, amended: [forwardRequest] answers 404 with the body
    [Workload <name> not found] when the first path segment is neither a key
    of the routing table nor a name inherited from [Object.prototype].
    Through [handleRequest] that answer is not what such a request gets:
    when the table is the stored one, every entry's provider reads as a
    text and every workload name is plain and without [/], a GET other than
    [/config] with that first segment is answered by the identity
    catch-all, [getUserAndHistory] under [onError]. *)
Theorem unknown_workload_is_not_found c fields name rest w env text :
  path_parts (req_path c) = name :: rest ->
  lookup_field name fields = None ->
  name ∉ object_prototype_names ->
  forwardRequest c (Some (JObj fields)) w
  = (Return (mkResponse 404 (lit "Workload " ++ name ++ lit " not found")), w)
  /\ (req_method c = lit "GET" ->
      req_path c <> lit "/config" ->
      kv w !! getConfigKey env = Some text ->
      JSON_parse text = Return (JObj fields) ->
      readable_providers (JObj fields) ->
      plain_names (JObj fields) ->
      Forall (fun n => 47 ∉ n) (for_in_keys (JObj fields)) ->
      handleRequest c env w = try_catch (getUserAndHistory env c) onError w).
Proof.
  intros Hparts Hmiss Hproto. split.
  - unfold forwardRequest, try_catch, forward_try. rewrite Hparts.
    unfold bind, lift, get_member. rewrite Hmiss.
    rewrite bool_decide_eq_false_2 by assumption. reflexivity.
  - intros Hm Hpath Hkv Hparse Hread Hplain Hslash.
    destruct (register_workloads_returns _ _ Hread Hplain) as [routes Hreg].
    apply (get_outside_workloads_reaches_identity env w c text (JObj fields) routes);
      try assumption; [reflexivity|].
    apply Forall_forall. intros n Hn. apply list_elem_of_filter in Hn as [_ Hn].
    unfold plain_names in Hplain. rewrite Forall_forall in Hplain, Hslash.
    apply (other_segment_not_under n (req_path c) name rest).
    + apply plain_name_nonempty, Hplain, Hn.
    + apply Hslash, Hn.
    + exact Hparts.
    + intros ->. now apply (lookup_field_none_keys _ _ Hmiss).
Qed.


(** C8, amended: when the persisted record parses to a table in which every
    entry's provider reads as a text, every workload name is plain (not
    empty, none of [:], [*], [?], [{], [}]) and no workload is named
    [config], a GET of [/config] whose source answers 200 with a document
    that parses to [table] is answered with status 200 and the
    serialization of [table], and the record persisted afterwards is that
    same serialization, whatever the record was before. *)
Theorem config_refresh_replaces_the_record env w request old_text old body rest table :
  req_method request = lit "GET" ->
  req_path request = lit "/config" ->
  kv w !! getConfigKey env = Some old_text ->
  JSON_parse old_text = Return old ->
  truthy (Some old) = true ->
  readable_providers old ->
  plain_names old ->
  lit "config" ∉ for_in_keys old ->
  take_reply hosts_url (interceptors w) = Some (Reply 200 body, rest) ->
  yaml_parse body = Return table ->
  exists w',
    handleRequest request env w = (Return (mkResponse 200 (JSON_stringify table)), w')
    /\ kv w' !! getConfigKey env = Some (JSON_stringify table).
Proof.
  intros Hm Hp Hold Hjson Htruthy Hread Hplain Hnot Hnet Hyaml.
  destruct (register_workloads_returns _ _ Hread Hplain) as [routes Hreg].
  rewrite (get_config_reaches_refresh env w request old_text old routes);
    try assumption.
  - eexists. unfold try_catch, bind.
    rewrite (refreshConfig_ok env w body rest table Hnet Hyaml).
    unfold ret, c_json. split; [reflexivity|]. cbn [kv set_kv]. apply lookup_insert_eq.
  - apply Forall_forall. intros n Hn. apply list_elem_of_filter in Hn as [_ Hn].
    apply config_not_under. intros ->. contradiction.
Qed.

End OutsideWorkloads.

Lemma demo_tables_readable :
  readable_providers demo_table /\ plain_names demo_table
  /\ readable_providers old_table /\ plain_names old_table.
Proof.
  unfold readable_providers, plain_names.
  repeat split; (apply Forall_cons_2; [|apply Forall_nil_2]);
    try (exists (lit "example")); vm_compute; reflexivity.
Qed.

(** C5 at work: [forwardRequest] on a name the table does not have, and
    what [handleRequest] does with the same request. *)
Lemma unknown_workload_witness :
  Index.forwardRequest (GET "/doesnotexist" "") (Some demo_table)
    (routing_world demo_table [])
  = (Return (mkResponse 404 (lit "Workload " ++ lit "doesnotexist" ++ lit " not found")),
     routing_world demo_table [])
  /\ Index.handleRequest (crypto := checksum_crypto) (yaml := json_yaml)
       (GET "/doesnotexist" "") demo_env (routing_world demo_table [])
     = try_catch
         (Index.getUserAndHistory (crypto := checksum_crypto) demo_env
            (GET "/doesnotexist" ""))
         Index.onError (routing_world demo_table []).
Proof.
  destruct (unknown_workload_is_not_found (crypto := checksum_crypto) (yaml := json_yaml)
              (GET "/doesnotexist" "")
              [(lit "workload1", workload "example" "foo.com")] (lit "doesnotexist") []
              (routing_world demo_table []) demo_env (JSON_stringify demo_table))
    as [Hforward Hhandle].
  - vm_compute. reflexivity.
  - vm_compute. reflexivity.
  - apply (bool_decide_eq_false_1 (lit "doesnotexist" ∈ object_prototype_names)).
    vm_compute. reflexivity.
  - split; [exact Hforward|]. apply Hhandle.
    + reflexivity.
    + vm_compute. discriminate.
    + reflexivity.
    + vm_compute. reflexivity.
    + apply demo_tables_readable.
    + apply demo_tables_readable.
    + apply Forall_cons_2; [|apply Forall_nil_2].
      apply (bool_decide_eq_false_1 (47 ∈ lit "workload1")). vm_compute. reflexivity.
Defined.

(** A workload whose name holds a [/] is the one case in which the 404 of
    [forwardRequest] reaches the client of [handleRequest]: the route
    [/a/b] matches, and the first segment [a] is no workload. *)
Example nested_name_is_answered_404 :
  Index.handleRequest (crypto := checksum_crypto) (yaml := json_yaml)
    (GET "/a/b" "") demo_env (routing_world nested_name_table [])
  = (Return (mkResponse 404 (lit "Workload a not found")),
     routing_world nested_name_table []).
Proof. vm_compute. reflexivity. Qed.


(** C8 at work: the record [oldWorkload] is replaced by the fetched table. *)
Lemma config_refresh_witness :
  exists w',
    Index.handleRequest (crypto := checksum_crypto) (yaml := json_yaml)
      (GET "/config" "") demo_env
      (routing_world old_table [(Index.hosts_url, Reply 200 (JSON_stringify demo_table))])
    = (Return (mkResponse 200 (JSON_stringify demo_table)), w')
    /\ kv w' !! Index.getConfigKey demo_env = Some (JSON_stringify demo_table).
Proof.
  apply (config_refresh_replaces_the_record (crypto := checksum_crypto) (yaml := json_yaml)
           demo_env
           (routing_world old_table
              [(Index.hosts_url, Reply 200 (JSON_stringify demo_table))])
           (GET "/config" "") (JSON_stringify old_table) old_table
           (JSON_stringify demo_table) [] demo_table).
  - reflexivity.
  - reflexivity.
  - reflexivity.
  - vm_compute. reflexivity.
  - reflexivity.
  - apply demo_tables_readable.
  - apply demo_tables_readable.
  - apply not_elem_of_cons. split; [vm_compute; discriminate|apply not_elem_of_nil].
  - reflexivity.
  - vm_compute. reflexivity.
Defined.
